(** * Hudl login test harness: element resolution, interaction and scenario lifecycle

    A shallow embedding of the page-object layer ([pages/base_page.py],
    [pages/login_page.py]), of the behave hooks ([features/environment.py])
    and of [DriverManager.quit_driver] ([utils/driver_manager.py]), with the
    properties of the specification stated over it.

    Conventions of the embedding.
    - Python [str] values are modelled as [string] (sequences of ASCII
      characters); [lower], [strip] and [in] act on them as the Python
      methods act on ASCII text.
    - The browser is an external collaborator: it is a state [W] with one
      transition per WebDriver primitive (class [Browser]).  Every call made
      to it, and every line printed, is recorded in order as an [event].
    - Python exceptions are values of [exn]; a computation of the page layer
      lives in the monad [M], which threads the browser state, collects the
      events and either returns or raises.
    - A Python [float] is an IEEE 754 binary64 number, a [spec_float] of
      the Standard Library with a mantissa of 53 bits: its operations
      round to the nearest number, ties to even. *)

From Stdlib Require Import String Ascii List ZArith Lia Bool.
From Stdlib Require Floats.SpecFloat.
From stdpp Require Import gmap strings pretty.
Import ListNotations.

Open Scope string_scope.
Open Scope list_scope.
Open Scope Z_scope.

(* ===================================================================== *)
(** ** Python strings *)
(* ===================================================================== *)

Definition ascii_code (c : ascii) : nat := nat_of_ascii c.

Definition in_range (lo hi : nat) (c : ascii) : bool :=
  (Nat.leb lo (ascii_code c)) && (Nat.leb (ascii_code c) hi).

Definition is_upper (c : ascii) : bool := in_range 65 90 c.
Definition is_alpha (c : ascii) : bool := in_range 65 90 c || in_range 97 122 c.
Definition is_digit (c : ascii) : bool := in_range 48 57 c.

(** [str.lower()] *)
Definition lower_char (c : ascii) : ascii :=
  if is_upper c then ascii_of_nat (ascii_code c + 32) else c.

Fixpoint lower (s : string) : string :=
  match s with
  | EmptyString => EmptyString
  | String c r => String (lower_char c) (lower r)
  end.

(** [needle in hay] *)
Fixpoint str_in (needle hay : string) : bool :=
  if String.prefix needle hay then true
  else match hay with
       | EmptyString => false
       | String _ r => str_in needle r
       end.

(** [c in s] for a single character *)
Fixpoint char_in (c : ascii) (s : string) : bool :=
  match s with
  | EmptyString => false
  | String d r => Ascii.eqb c d || char_in c r
  end.

Fixpoint rev_string (s : string) : string :=
  match s with
  | EmptyString => EmptyString
  | String c r => rev_string r +:+ String c EmptyString
  end.

(** [s.lstrip(chars)], [s.rstrip(chars)], [s.strip(chars)] for a
    predicate picking the characters to remove *)
Fixpoint lstrip_with (p : ascii -> bool) (s : string) : string :=
  match s with
  | EmptyString => EmptyString
  | String c r => if p c then lstrip_with p r else s
  end.

Definition rstrip_with (p : ascii -> bool) (s : string) : string :=
  rev_string (lstrip_with p (rev_string s)).

Definition strip_with (p : ascii -> bool) (s : string) : string :=
  rstrip_with p (lstrip_with p s).

(** the ASCII characters [str.isspace] accepts *)
Definition is_space (c : ascii) : bool :=
  in_range 9 13 c || in_range 28 32 c.

(** [s.strip()] *)
Definition strip (s : string) : string := strip_with is_space s.

(** the double quote and the single quote *)
Definition dquote : ascii := ascii_of_nat 34.
Definition squote : ascii := ascii_of_nat 39.

(** [s.strip(q)] where [q] holds the double and the single quote *)
Definition strip_quotes (s : string) : string :=
  strip_with (fun c => Ascii.eqb c dquote || Ascii.eqb c squote) s.

(** [s.replace(a, b)] for single characters *)
Fixpoint replace_char (a b : ascii) (s : string) : string :=
  match s with
  | EmptyString => EmptyString
  | String c r => String (if Ascii.eqb c a then b else c) (replace_char a b r)
  end.

Fixpoint remove_chars (p : ascii -> bool) (s : string) : string :=
  match s with
  | EmptyString => EmptyString
  | String c r => if p c then remove_chars p r else String c (remove_chars p r)
  end.

Fixpoint all_chars (p : ascii -> bool) (s : string) : bool :=
  match s with
  | EmptyString => true
  | String c r => p c && all_chars p r
  end.

(** [s.split(c, 1)] when [c] occurs in [s]: the text before and after the
    first occurrence; [None] when [c] does not occur *)
Fixpoint split_first (c : ascii) (s : string) : option (string * string) :=
  match s with
  | EmptyString => None
  | String d r =>
      if Ascii.eqb d c then Some (EmptyString, r)
      else match split_first c r with
           | Some (a, b) => Some (String d a, b)
           | None => None
           end
  end.

(** the text before and after the last occurrence of [c] *)
Fixpoint split_last (c : ascii) (s : string) : option (string * string) :=
  match s with
  | EmptyString => None
  | String d r =>
      match split_last c r with
      | Some (a, b) => Some (String d a, b)
      | None => if Ascii.eqb d c then Some (EmptyString, r) else None
      end
  end.

(** the longest prefix without a character of [p], and the rest *)
Fixpoint span_until (p : ascii -> bool) (s : string) : string * string :=
  match s with
  | EmptyString => (EmptyString, EmptyString)
  | String c r =>
      if p c then (EmptyString, s)
      else let '(a, b) := span_until p r in (String c a, b)
  end.

(* ===================================================================== *)
(** ** Exceptions and results *)
(* ===================================================================== *)

(** The exception classes the code raises or catches.  All of them derive
    from [Exception]. *)
Inductive exn_class : Type :=
  | TimeoutException
  | NoSuchElementException
  | StaleElementReferenceException
  | ElementNotInteractableException
  | WebDriverException
  | AssertionError
  | ValueError
  | KeyError
  | AttributeError
  | ImportError
  | OSError
  | ZeroDivisionError
  | OverflowError
  | PlainException.

(** An exception: its class and [str(e)]. *)
Record exn : Type := Exn { exn_kind : exn_class; exn_text : string }.

Definition exn_class_eqb (a b : exn_class) : bool :=
  match a, b with
  | TimeoutException, TimeoutException
  | NoSuchElementException, NoSuchElementException
  | StaleElementReferenceException, StaleElementReferenceException
  | ElementNotInteractableException, ElementNotInteractableException
  | WebDriverException, WebDriverException
  | AssertionError, AssertionError
  | ValueError, ValueError
  | KeyError, KeyError
  | AttributeError, AttributeError
  | ImportError, ImportError
  | OSError, OSError
  | ZeroDivisionError, ZeroDivisionError
  | OverflowError, OverflowError
  | PlainException, PlainException => true
  | _, _ => false
  end.

Definition is_class (k : exn_class) (e : exn) : bool := exn_class_eqb (exn_kind e) k.

Inductive result (A : Type) : Type :=
  | Ok (a : A)
  | Raise (e : exn).
Arguments Ok {A} a.
Arguments Raise {A} e.

(* ===================================================================== *)
(** ** [urllib.parse.urlparse] *)
(* ===================================================================== *)

(** The six components of a parse result. *)
Record ParseResult : Type := {
  scheme : string;
  netloc : string;
  path : string;
  params : string;
  query : string;
  fragment : string
}.

Definition scheme_char (c : ascii) : bool :=
  is_alpha c || is_digit c || char_in c "+-.".

(** [uses_params] of [urllib.parse] *)
Definition uses_params : list string :=
  [""; "ftp"; "hdl"; "prospero"; "http"; "imap"; "https"; "shttp"; "rtsp";
   "rtspu"; "sip"; "sips"; "mms"; "sftp"; "tel"].

Definition string_in_list (s : string) (l : list string) : bool :=
  existsb (String.eqb s) l.

(** scheme detection of [urlsplit]: the text before the first colon is a
    scheme when it is not empty, starts with a letter and holds scheme
    characters only *)
Definition split_scheme (url : string) : string * string :=
  match split_first ":" url with
  | Some (String c pre, rest) =>
      if is_alpha c && all_chars scheme_char (String c pre)
      then (lower (String c pre), rest)
      else (EmptyString, url)
  | _ => (EmptyString, url)
  end.

(** [_splitnetloc(url, 2)] after a leading [//] *)
Definition split_netloc (url : string) : string * string :=
  match url with
  | String a (String b r) =>
      if Ascii.eqb a "/" && Ascii.eqb b "/"
      then span_until (fun c => char_in c "/?#") r
      else (EmptyString, url)
  | _ => (EmptyString, url)
  end.

(** [_splitparams] *)
Definition split_params (url : string) : string * string :=
  match split_last "/" url with
  | Some (head, tail) =>
      match split_first ";" tail with
      | Some (a, b) => (head +:+ "/" +:+ a, b)
      | None => (url, EmptyString)
      end
  | None =>
      match split_first ";" url with
      | Some (a, b) => (a, b)
      | None => (url, EmptyString)
      end
  end.

(** the cleaning [urlsplit] starts with: leading C0 control characters
    and spaces are stripped, then tabs and newlines are removed *)
Definition is_unsafe (c : ascii) : bool :=
  let n := ascii_code c in
  Nat.eqb n 9 || Nat.eqb n 10 || Nat.eqb n 13.

Definition clean_url (url : string) : string :=
  remove_chars is_unsafe (lstrip_with (in_range 0 32) url).

(** [url.split('#', 1)] and [url.split('?', 1)] of [urlsplit], when the
    separator occurs *)
Definition split_fragment (url : string) : string * string :=
  match split_first "#" url with
  | Some (a, b) => (a, b)
  | None => (url, EmptyString)
  end.

Definition split_query (url : string) : string * string :=
  match split_first "?" url with
  | Some (a, b) => (a, b)
  | None => (url, EmptyString)
  end.

(** [urlparse(url)] with the default [scheme=''] and
    [allow_fragments=True], for ASCII text.  A network location with an
    unbalanced square bracket raises [ValueError]; the validation of the
    host inside balanced brackets (an IPv6 literal) is not modelled. *)
Definition urlparse (url0 : string) : result ParseResult :=
  let '(sch, url) := split_scheme (clean_url url0) in
  let '(loc, url) := split_netloc url in
  if xorb (char_in "[" loc) (char_in "]" loc)
  then Raise (Exn ValueError "Invalid IPv6 URL")
  else
    let '(url, frag) := split_fragment url in
    let '(url, qry) := split_query url in
    let '(url, prm) := if string_in_list sch uses_params && char_in ";" url
                       then split_params url
                       else (url, EmptyString) in
    Ok {| scheme := sch; netloc := loc; path := url; params := prm;
          query := qry; fragment := frag |}.

(* ===================================================================== *)
(** ** The browser, its events and the monad of page computations *)
(* ===================================================================== *)

(** A locator tuple [(By.<strategy>, value)]. *)
Definition locator : Type := string * string.

(** The [By] strategies, with the values Selenium gives them. *)
Definition By_ID : string := "id".
Definition By_NAME : string := "name".
Definition By_XPATH : string := "xpath".
Definition By_CSS_SELECTOR : string := "css selector".

(** Handles of web elements and of browser sessions. *)
Definition element : Type := nat.
Definition Driver : Type := nat.

(** The expected conditions the page layer waits for:
    [presence_of_element_located], [visibility_of_element_located],
    [element_to_be_clickable]. *)
Inductive wait_mode : Type := Presence | Visibility | Clickability.

(** The lines the code prints or writes to a file, one constructor per
    line, holding the values that the line interpolates.  The lines that
    give a date or a duration hold no value: times are not part of the
    embedding.  Of the summary of [after_all], [MsgSummaryTop] is the
    empty line and the rule of fifty signs that open it on the screen,
    [MsgSummaryRule] a rule alone, [MsgFileTitle] and [MsgFileRule] the
    first two lines of the file. *)
Inductive message : Type :=
  | MsgRedirectOk (path_fragment : string)
  | MsgProviderRedirectOk (expected_domain : string)
  | MsgActionOk (field_name : string) (l : locator)
  | MsgActionFailed (field_name : string) (l : locator) (e : exn)
  | MsgFoundError (error_text : string) (l : locator)
  | MsgNoErrorWith (l : locator) (e : exn)
  | MsgFoundByPattern (pattern error_text : string)
  | MsgPatternSearchError (e : exn)
  | MsgNoErrorFound
  | MsgStartingScenario (name : string)
  | MsgNoWebDriver (e : exn)
  | MsgInstallDependencies
  | MsgScenarioStarted (name : string)
  | MsgPageObjectsInitialized
  | MsgScenarioPassed (name : string)
  | MsgScenarioFailed (name : string)
  | MsgScenarioSkipped (name : string)
  | MsgScreenshotSaved (screenshot_path : string)
  | MsgScreenshotFailed (e : exn)
  | MsgDriverCloseError (e : exn)
  | MsgDriverQuitError (e : exn)
  | MsgTotalTests (n : Z)
  | MsgPassed (n : Z)
  | MsgFailed (n : Z)
  | MsgSkipped (n : Z)
  | MsgPassRate (pass_rate : string)
  | MsgSummaryWriteFailed (e : exn)
  | MsgSummaryTop
  | MsgSummaryHeading
  | MsgSummaryRule
  | MsgTotalDuration
  | MsgFileTitle
  | MsgFileRule
  | MsgExecutionDate
  | MsgDuration
  | MsgBrowser (browser : string)
  | MsgBaseUrl (base_url : string).

(** What the code does to the outside, in order. *)
Inductive event : Type :=
  | EvWait (m : wait_mode) (l : locator) (timeout : Z)
  | EvWaitPageLoad (timeout : Z)
  | EvFindElements (l : locator)
  | EvClick (el : element)
  | EvScriptClick (el : element)
  | EvClear (el : element)
  | EvSendKeys (el : element) (text : string)
  | EvText (el : element)
  | EvGetAttribute (el : element) (name : string)
  | EvIsDisplayed (el : element)
  | EvCurrentUrl
  | EvSleep (milliseconds : Z)
  | EvNewSession
  | EvImplicitlyWait (d : Driver) (seconds : Z)
  | EvMaximizeWindow (d : Driver)
  | EvScreenshot (d : Driver) (filename : string)
  | EvQuit (d : Driver)
  | EvOpenFile (filename : string)
  | EvFileWrite (filename : string) (line : message)
  | EvCloseFile (filename : string)
  | EvPrint (m : message).

(** The WebDriver primitives (and the few system calls) the code relies
    on.  Each is a transition of the outside world [W]: it answers, or
    raises, and leaves the world in a new state. *)
Class Browser (W : Type) : Type := {
  (** [WebDriverWait(driver, timeout).until(EC.<mode>(locator))] *)
  wait_until : wait_mode -> locator -> Z -> W -> result element * W;
  (** [WebDriverWait(driver, timeout).until(lambda d:
      d.execute_script(return document.readyState) == complete)] *)
  wait_ready_state : Z -> W -> result unit * W;
  (** [driver.find_elements] on the unpacked locator *)
  driver_find_elements : locator -> W -> result (list element) * W;
  (** [element.click()] *)
  element_click : element -> W -> result unit * W;
  (** [driver.execute_script(arguments[0].click();, element)] *)
  script_click : element -> W -> result unit * W;
  (** [element.clear()] *)
  element_clear : element -> W -> result unit * W;
  (** [element.send_keys(text)] *)
  element_send_keys : element -> string -> W -> result unit * W;
  (** [element.text] *)
  element_text : element -> W -> result string * W;
  (** [element.get_attribute(name)]; [None] when the attribute is absent *)
  element_get_attribute : element -> string -> W -> result (option string) * W;
  (** [element.is_displayed()] *)
  element_is_displayed : element -> W -> result bool * W;
  (** [driver.current_url] *)
  driver_current_url : W -> result string * W;
  (** [time.sleep(seconds)], in milliseconds *)
  time_sleep : Z -> W -> W;
  (** [int(time.time())] *)
  unix_time : W -> Z;
  (** [os.getenv(HEADLESS, false).lower() == true] *)
  env_headless : W -> bool;
  (** the import of [utils.driver_manager] and the construction of the
      WebDriver in [before_scenario] *)
  new_session : W -> result Driver * W;
  (** [driver.implicitly_wait(seconds)] *)
  driver_implicitly_wait : Driver -> Z -> W -> result unit * W;
  (** [driver.maximize_window()] *)
  driver_maximize_window : Driver -> W -> result unit * W;
  (** [driver.save_screenshot(filename)] *)
  driver_save_screenshot : Driver -> string -> W -> result bool * W;
  (** [driver.quit()] *)
  driver_quit : Driver -> W -> result unit * W;
  (** [open(filename, 'w')] *)
  open_file : string -> W -> result unit * W;
  (** [f.write(line)] on the file opened under [filename] *)
  file_write : string -> message -> W -> result unit * W;
  (** the closing of that file when its [with] block is left *)
  file_close : string -> W -> result unit * W
}.

(** A computation over the world [W]: from a world, a result (or a raised
    exception), the world it leaves and the events it produced. *)
Definition M (W : Type) (A : Type) : Type := W -> result A * W * list event.

Definition ret {W A} (a : A) : M W A := fun w => (Ok a, w, []).

Definition bind {W A B} (c : M W A) (k : A -> M W B) : M W B := fun w =>
  match c w with
  | (Ok a, w1, o1) => let '(r, w2, o2) := k a w1 in (r, w2, o1 ++ o2)
  | (Raise e, w1, o1) => (Raise e, w1, o1)
  end.

(** [raise e] *)
Definition raise {W A} (e : exn) : M W A := fun w => (Raise e, w, []).

(** [try: c  except <classes>: handler].  [handler e] is [None] when no
    [except] clause matches [e], which then propagates. *)
Definition try_except {W A} (c : M W A) (handler : exn -> option (M W A)) : M W A :=
  fun w =>
    match c w with
    | (Ok a, w1, o1) => (Ok a, w1, o1)
    | (Raise e, w1, o1) =>
        match handler e with
        | Some k => let '(r, w2, o2) := k w1 in (r, w2, o1 ++ o2)
        | None => (Raise e, w1, o1)
        end
    end.

(** a call to the outside, recorded as [ev] *)
Definition call {W A} (ev : event) (prim : W -> result A * W) : M W A :=
  fun w => let '(r, w1) := prim w in (r, w1, [ev]).

(** [print(...)] *)
Definition print {W} (m : message) : M W unit := fun w => (Ok tt, w, [EvPrint m]).

(** a pure step that may raise *)
Definition lift {W A} (r : result A) : M W A := fun w => (r, w, []).

#[global] Instance M_ret {W} : MRet (M W) := fun A a => ret a.
#[global] Instance M_bind {W} : MBind (M W) := fun A B k c => bind c k.

(** [try: c  finally: k]: [k] runs however [c] ends, and an exception it
    raises takes the place of the outcome of [c] *)
Definition try_finally {W A} (c : M W A) (k : M W unit) : M W A := fun w =>
  let '(r, w1, o1) := c w in
  match k w1 with
  | (Ok _, w2, o2) => (r, w2, o1 ++ o2)
  | (Raise e, w2, o2) => (Raise e, w2, o1 ++ o2)
  end.

(** [except Exception] *)
Definition any_exception {W A} (k : exn -> M W A) : exn -> option (M W A) :=
  fun e => Some (k e).

(** [except <class>] *)
Definition only {W A} (cls : exn_class) (k : exn -> M W A) : exn -> option (M W A) :=
  fun e => if is_class cls e then Some (k e) else None.

(** a string is truthy when it is not empty *)
Definition truthy (s : string) : bool :=
  match s with EmptyString => false | _ => true end.

(** [range(n)] *)
Definition range (n : Z) : list Z := map Z.of_nat (seq 0 (Z.to_nat n)).

(* ===================================================================== *)
(** ** [pages/base_page.py] *)
(* ===================================================================== *)

(** The resolved settings the pages read from the configuration manager,
    and what its [get_browser] and [get_base_url] answer when the summary
    is written: the text an f-string makes of the answer, or the
    exception the call raises. *)
Record Config : Type := {
  get_explicit_wait : Z;
  get_implicit_wait : Z;
  get_error_timeout : Z;
  get_browser : result string;
  get_base_url : result string
}.

(** A page object: its configuration manager ([None] when it was built
    without one).  Its driver is the browser world itself. *)
Record BasePage : Type := { config : option Config }.

(** the timeout of [self.wait]:
    [config.get_explicit_wait() if config else 20] *)
Definition self_wait (self : BasePage) : Z :=
  match config self with
  | Some c => get_explicit_wait c
  | None => 20
  end.

(** the timeout of [WebDriverWait(self.driver, timeout) if timeout else
    self.wait]: [None] and [0] are falsy *)
Definition wait_timeout (self : BasePage) (timeout : option Z) : Z :=
  match timeout with
  | Some t => if t =? 0 then self_wait self else t
  | None => self_wait self
  end.

Section BasePageMethods.
Context {W : Type} `{Browser W}.

Definition until (m : wait_mode) (l : locator) (timeout : Z) : M W element :=
  call (EvWait m l timeout) (wait_until m l timeout).

Definition find_element (self : BasePage) (l : locator) (timeout : option Z)
  : M W element :=
  until Presence l (wait_timeout self timeout).

Definition find_elements (self : BasePage) (l : locator) (timeout : option Z)
  : M W (list element) :=
  until Presence l (wait_timeout self timeout) ;;
  call (EvFindElements l) (driver_find_elements l).

Definition find_clickable_element (self : BasePage) (l : locator)
  (timeout : option Z) : M W element :=
  until Clickability l (wait_timeout self timeout).

Definition find_visible_element (self : BasePage) (l : locator)
  (timeout : option Z) : M W element :=
  until Visibility l (wait_timeout self timeout).

(** [time.sleep], the pause given in milliseconds *)
Definition sleep (milliseconds : Z) : M W unit :=
  fun w => (Ok tt, time_sleep milliseconds w, [EvSleep milliseconds]).

(** the loop of [_click_with_retry] over the attempts still to make *)
Fixpoint _click_attempts (el : element) (max_attempts : Z) (attempts : list Z)
  : M W unit :=
  match attempts with
  | [] => mret tt
  | attempt :: rest =>
      try_except
        (call (EvClick el) (element_click el))
        (fun e =>
           if is_class StaleElementReferenceException e then
             Some (if attempt =? max_attempts - 1 then raise e
                   else (sleep 500 ;; _click_attempts el max_attempts rest))
           else if is_class ElementNotInteractableException e then
             Some (call (EvScriptClick el) (script_click el))
           else None)
  end.

Definition _click_with_retry (self : BasePage) (el : element) (max_attempts : Z)
  : M W unit :=
  _click_attempts el max_attempts (range max_attempts).

Definition click_element (self : BasePage) (l : locator) (timeout : option Z)
  : M W unit :=
  el ← find_clickable_element self l timeout;
  _click_with_retry self el 3.

Definition send_keys_to_element (self : BasePage) (l : locator) (text : string)
  (clear_first : bool) : M W unit :=
  el ← find_visible_element self l None;
  (if clear_first then call (EvClear el) (element_clear el) else mret tt) ;;
  call (EvSendKeys el text) (element_send_keys el text).

Definition get_element_text (self : BasePage) (l : locator) (timeout : option Z)
  : M W string :=
  el ← find_visible_element self l timeout;
  t ← call (EvText el) (element_text el);
  mret (strip t).

Definition get_element_attribute (self : BasePage) (l : locator)
  (attribute : string) (timeout : option Z) : M W string :=
  el ← find_element self l timeout;
  v ← call (EvGetAttribute el attribute) (element_get_attribute el attribute);
  mret (match v with
        | Some s => if truthy s then s else ""
        | None => ""
        end).

Definition is_element_present (self : BasePage) (l : locator) (timeout : Z)
  : M W bool :=
  try_except
    (until Presence l timeout ;; mret true)
    (only TimeoutException (fun _ => mret false)).

Definition is_element_visible (self : BasePage) (l : locator) (timeout : Z)
  : M W bool :=
  try_except
    (until Visibility l timeout ;; mret true)
    (only TimeoutException (fun _ => mret false)).

Definition is_element_clickable (self : BasePage) (l : locator) (timeout : Z)
  : M W bool :=
  try_except
    (until Clickability l timeout ;; mret true)
    (only TimeoutException (fun _ => mret false)).

Definition wait_for_page_load (self : BasePage) (timeout : option Z) : M W bool :=
  let t := wait_timeout self timeout in
  try_except
    (call (EvWaitPageLoad t) (wait_ready_state t) ;; mret true)
    (only TimeoutException (fun _ => mret false)).

Definition get_current_url (self : BasePage) : M W string :=
  call EvCurrentUrl driver_current_url.

Fixpoint find_element_with_fallback (self : BasePage) (locators : list locator)
  (timeout : Z) : M W (option element) :=
  match locators with
  | [] => mret None
  | l :: rest =>
      try_except
        (el ← find_element self l (Some timeout); mret (Some el))
        (any_exception (fun _ => find_element_with_fallback self rest timeout))
  end.

End BasePageMethods.

(* ===================================================================== *)
(** ** [pages/login_page.py] *)
(* ===================================================================== *)

(** Field locators. *)
Definition EMAIL_FIELD : locator := (By_NAME, "username").
Definition EMAIL_FIELD_ALT : locator := (By_ID, "username").
Definition EMAIL_FIELD_TYPE : locator := (By_CSS_SELECTOR, "input[type='email']").
Definition EMAIL_FIELD_NAME_PATTERN : locator := (By_CSS_SELECTOR, "input[name*='email' i]").
Definition EMAIL_FIELD_PLACEHOLDER : locator := (By_CSS_SELECTOR, "input[placeholder*='email' i]").
Definition CONTINUE_BUTTON : locator := (By_CSS_SELECTOR, "button[type='submit']").
Definition CONTINUE_BUTTON_ALT : locator := (By_NAME, "action").

(** Error message locators. *)
Definition ERROR_MESSAGE : locator := (By_CSS_SELECTOR, ".ulp-input-error-message").
Definition EMAIL_ERROR : locator := (By_ID, "error-element-username").
Definition PASSWORD_ERROR : locator := (By_ID, "error-element-password").
Definition GENERIC_ERROR : locator := (By_CSS_SELECTOR, "[data-qa-id='login-error']").

(** [error_locators] of [_find_error_by_locators], in its order *)
Definition error_locators : list locator :=
  [ERROR_MESSAGE; GENERIC_ERROR; EMAIL_ERROR; PASSWORD_ERROR].

(** [error_patterns] of [_find_error_by_text_patterns], in its order *)
Definition error_patterns : list string :=
  ["incorrect"; "invalid"; "wrong"; "error"; "failed";
   "not found"; "does not exist"; "try again"; "password"].

(** the XPath that [_find_error_by_text_patterns] builds for a pattern *)
Definition pattern_xpath (pattern : string) : string :=
  "//*[contains(translate(text(), 'ABCDEFGHIJKLMNOPQRSTUVWXYZ', 'abcdefghijklmnopqrstuvwxyz'), '"
  +:+ pattern +:+ "')]".

(** [self.config.get_error_timeout() if self.config else 3] *)
Definition error_timeout (self : BasePage) : Z :=
  match config self with
  | Some c => get_error_timeout c
  | None => 3
  end.

(** the message of the [assert False] of [verify_redirect_url] *)
Definition redirect_url_message (path_fragment current_path current_url : string)
  : string :=
  "Expected URL path to contain " +:+ String dquote path_fragment
  +:+ String dquote ", but got path: " +:+ current_path
  +:+ " (full URL: " +:+ current_url +:+ ")".

(** the message of the [assert False] of [verify_redirect_to_provider] *)
Definition redirect_provider_message (expected_domain current_domain current_url : string)
  : string :=
  "Expected to be redirected to domain " +:+ String dquote expected_domain
  +:+ String dquote ", but got domain: " +:+ current_domain
  +:+ " (full URL: " +:+ current_url +:+ ")".

(** the message of the exception [_try_locators_with_action] raises *)
Definition could_not_find_message (field_name : string) : string :=
  "Could not find " +:+ field_name +:+ " with any of the available locators".

Section LoginPageMethods.
Context {W : Type} `{Browser W}.

Definition verify_redirect_url (self : BasePage) (path_fragment : string)
  : M W unit :=
  wait_for_page_load self (Some 10) ;;
  current_url ← get_current_url self;
  current_parsed ← lift (urlparse current_url);
  let current_path := lower (path current_parsed) in
  let path_fragment_lower := lower path_fragment in
  if negb (str_in path_fragment_lower current_path)
  then raise (Exn AssertionError
                (redirect_url_message path_fragment current_path current_url))
  else print (MsgRedirectOk path_fragment).

Definition verify_redirect_to_provider (self : BasePage) (expected_url : string)
  : M W unit :=
  wait_for_page_load self (Some 10) ;;
  current_url ← get_current_url self;
  let expected_url_clean := strip_quotes expected_url in
  current_parsed ← lift (urlparse current_url);
  expected_parsed ← lift (urlparse expected_url_clean);
  let current_domain := lower (netloc current_parsed) in
  let expected_domain := lower (netloc expected_parsed) in
  if negb (str_in expected_domain current_domain)
     && negb (String.eqb current_domain expected_domain)
  then raise (Exn AssertionError
                (redirect_provider_message expected_domain current_domain current_url))
  else print (MsgProviderRedirectOk expected_domain).

(** [action_func] stands for the action with its extra arguments already
    given: [action_func l] is the source's [action_func(locator, *args)]. *)
Fixpoint _try_locators_with_action (self : BasePage) (locators : list locator)
  (action_func : locator -> M W unit) (field_name : string) : M W unit :=
  match locators with
  | [] => raise (Exn PlainException (could_not_find_message field_name))
  | l :: rest =>
      try_except
        (action_func l ;; print (MsgActionOk field_name l))
        (any_exception (fun e =>
           print (MsgActionFailed field_name l e) ;;
           _try_locators_with_action self rest action_func field_name))
  end.

(** the loop of [_find_error_by_locators] over the locators still to try;
    a [WebElement] is always truthy, so [if element] always holds *)
Fixpoint _find_error_in (self : BasePage) (locators : list locator) : M W string :=
  match locators with
  | [] => mret ""
  | l :: rest =>
      found ← try_except
                (el ← find_visible_element self l (Some (error_timeout self));
                 t ← call (EvText el) (element_text el);
                 let error_text := strip t in
                 if truthy error_text
                 then print (MsgFoundError error_text l) ;; mret (Some error_text)
                 else mret None)
                (any_exception (fun e => print (MsgNoErrorWith l e) ;; mret None));
      match found with
      | Some error_text => mret error_text
      | None => _find_error_in self rest
      end
  end.

Definition _find_error_by_locators (self : BasePage) : M W string :=
  _find_error_in self error_locators.

(** the inner loop of [_find_error_by_text_patterns], over the elements
    found for one pattern *)
Fixpoint _scan_elements (pattern : string) (elements : list element)
  : M W (option string) :=
  match elements with
  | [] => mret None
  | el :: rest =>
      displayed ← call (EvIsDisplayed el) (element_is_displayed el);
      cond ← (if displayed : bool
              then t ← call (EvText el) (element_text el); mret (truthy (strip t))
              else mret false);
      if cond : bool
      then t ← call (EvText el) (element_text el);
           let error_text := strip t in
           print (MsgFoundByPattern pattern error_text) ;;
           mret (Some error_text)
      else _scan_elements pattern rest
  end.

(** the outer loop of [_find_error_by_text_patterns], over the patterns *)
Fixpoint _scan_patterns (self : BasePage) (patterns : list string)
  : M W (option string) :=
  match patterns with
  | [] => mret None
  | pattern :: rest =>
      elements ← find_elements self (By_XPATH, pattern_xpath pattern) None;
      found ← _scan_elements pattern elements;
      match found with
      | Some error_text => mret (Some error_text)
      | None => _scan_patterns self rest
      end
  end.

Definition _find_error_by_text_patterns (self : BasePage) : M W string :=
  found ← try_except
            (_scan_patterns self error_patterns)
            (any_exception (fun e => print (MsgPatternSearchError e) ;; mret None));
  match found with
  | Some error_text => mret error_text
  | None => mret ""
  end.

(** the loop of [get_error_message] over the detection strategies *)
Fixpoint _first_error_message (strategies : list (M W string)) : M W string :=
  match strategies with
  | [] => print MsgNoErrorFound ;; mret ""
  | strategy :: rest =>
      error_message ← strategy;
      if truthy error_message then mret error_message
      else _first_error_message rest
  end.

Definition get_error_message (self : BasePage) : M W string :=
  let error_detection_strategies :=
    [_find_error_by_locators self; _find_error_by_text_patterns self] in
  _first_error_message error_detection_strategies.

End LoginPageMethods.

(* ===================================================================== *)
(** ** [features/environment.py] and [DriverManager.quit_driver] *)
(* ===================================================================== *)

(** The attributes of the behave context the hooks use.  An attribute that
    may be missing ([hasattr] is false) is an [option]; [driver] is
    [Some None] when it was set to [None].  [page_objects] stands for the
    five page objects, all built from the same driver and configuration.
    Start times and durations are not part of the embedding. *)
Record Context : Type := {
  config_manager : option Config;
  test_metrics : gmap string Z;
  driver : option (option Driver);
  scenario_data : option unit;
  page_objects : option BasePage
}.

(** What the hooks read of a scenario. *)
Record Scenario : Type := { name : string; status : string }.

(** [os.path.join(a, b)] on a POSIX system, for a relative [b] *)
Definition path_join (a b : string) : string := a +:+ "/" +:+ b.

(** An [int] as an operand of a float operation of the Standard Library:
    the integer itself, not rounded. *)
Definition exact_int (n : Z) : SpecFloat.spec_float :=
  match n with
  | Z0 => SpecFloat.S754_zero false
  | Zpos p => SpecFloat.S754_finite false p 0
  | Zneg p => SpecFloat.S754_finite true p 0
  end.

(** [a / b] on two [int]s: the quotient rounded once to a float; a
    quotient beyond the largest float raises [OverflowError] *)
Definition int_true_divide (a b : Z) : result SpecFloat.spec_float :=
  if b =? 0 then Raise (Exn ZeroDivisionError "division by zero")
  else match SpecFloat.SFdiv 53 1024 (exact_int a) (exact_int b) with
       | SpecFloat.S754_infinity _ =>
           Raise (Exn OverflowError "integer division result too large for a float")
       | quotient => Ok quotient
       end.

(** [x * 100] on a float [x] *)
Definition times_100 (x : SpecFloat.spec_float) : SpecFloat.spec_float :=
  SpecFloat.SFmul 53 1024 x (exact_int 100).

(** [n / d] rounded to the nearest integer, ties to even, for [d > 0] *)
Definition round_half_even (n d : Z) : Z :=
  let q := n / d in
  let r := n mod d in
  if 2 * r <? d then q
  else if d <? 2 * r then q + 1
  else if Z.even q then q else q + 1.

Definition two_digits (n : Z) : string :=
  if n <? 10 then "0" +:+ pretty n else pretty n.

(** [f'{x:.2f}']: the value of the float, which is a fraction with a
    power of two for denominator, rounded to hundredths, ties to even;
    the sign is kept when the hundredths are zero *)
Definition format_2f (x : SpecFloat.spec_float) : string :=
  match x with
  | SpecFloat.S754_nan => "nan"
  | SpecFloat.S754_infinity s => if s then "-inf" else "inf"
  | SpecFloat.S754_zero s => if s then "-0.00" else "0.00"
  | SpecFloat.S754_finite s m e =>
      let hundredths := if 0 <=? e then Z.pos m * 2 ^ e * 100
                        else round_half_even (Z.pos m * 100) (2 ^ (- e)) in
      (if s then "-" else "") +:+ pretty (hundredths / 100) +:+ "."
      +:+ two_digits (hundredths mod 100)
  end.

(** the test metrics as [before_all] initialises them *)
Definition initial_metrics : gmap string Z :=
  <["total_tests" := 0]> (<["passed_tests" := 0]>
    (<["failed_tests" := 0]> (<["skipped_tests" := 0]> ∅))).

(** the part of [before_all] the other hooks depend on: the configuration
    manager it obtained and the fresh metrics *)
Definition before_all (config_manager : option Config) : Context :=
  {| config_manager := config_manager;
     test_metrics := initial_metrics;
     driver := None;
     scenario_data := None;
     page_objects := None |}.

Definition set_test_metrics (m : gmap string Z) (c : Context) : Context :=
  {| config_manager := config_manager c; test_metrics := m; driver := driver c;
     scenario_data := scenario_data c; page_objects := page_objects c |}.

Definition set_driver (d : option Driver) (c : Context) : Context :=
  {| config_manager := config_manager c; test_metrics := test_metrics c;
     driver := Some d; scenario_data := scenario_data c;
     page_objects := page_objects c |}.

Definition set_scenario_data (v : option unit) (c : Context) : Context :=
  {| config_manager := config_manager c; test_metrics := test_metrics c;
     driver := driver c; scenario_data := v; page_objects := page_objects c |}.

Definition set_page_objects (p : BasePage) (c : Context) : Context :=
  {| config_manager := config_manager c; test_metrics := test_metrics c;
     driver := driver c; scenario_data := scenario_data c;
     page_objects := Some p |}.

(** [hasattr(context, 'driver') and context.driver] *)
Definition live_driver (c : Context) : option Driver :=
  match driver c with
  | Some (Some d) => Some d
  | _ => None
  end.

Section Hooks.
Context {W : Type} `{Browser W}.

(** The hooks run on the behave context and the world together. *)
Definition get_context : M (Context * W) Context := fun s => (Ok (fst s), s, []).

Definition modify_context (f : Context -> Context) : M (Context * W) unit :=
  fun s => (Ok tt, (f (fst s), snd s), []).

(** a call to the outside, from a hook *)
Definition hook_call {A} (ev : event) (prim : W -> result A * W)
  : M (Context * W) A :=
  fun s => let '(r, w1) := prim (snd s) in (r, (fst s, w1), [ev]).

(** [context.test_metrics[key]] *)
Definition metric (key : string) : M (Context * W) Z :=
  c ← get_context;
  match test_metrics c !! key with
  | Some n => mret n
  | None => raise (Exn KeyError (String squote key +:+ String squote ""))
  end.

(** [context.test_metrics[key] += 1] *)
Definition increment_metric (key : string) : M (Context * W) unit :=
  n ← metric key;
  modify_context (fun c => set_test_metrics (<[key := n + 1]> (test_metrics c)) c).

Definition before_scenario (scenario : Scenario) : M (Context * W) unit :=
  print (MsgStartingScenario (name scenario)) ;;
  initialised ← try_except
    (d ← hook_call EvNewSession new_session;
     modify_context (set_driver (Some d)) ;;
     mret true)
    (only ImportError (fun e =>
       print (MsgNoWebDriver e) ;;
       print MsgInstallDependencies ;;
       modify_context (set_driver None) ;;
       mret false));
  if negb initialised then mret tt
  else
    c ← get_context;
    match live_driver c with
    | Some d =>
        let implicit_wait := match config_manager c with
                             | Some cfg => get_implicit_wait cfg
                             | None => 10
                             end in
        hook_call (EvImplicitlyWait d implicit_wait)
                  (driver_implicitly_wait d implicit_wait) ;;
        headless ← (fun s => (Ok (env_headless (snd s)), s, []));
        if negb headless
        then hook_call (EvMaximizeWindow d) (driver_maximize_window d)
        else mret tt
    | None => mret tt
    end ;;
    modify_context (set_scenario_data (Some tt)) ;;
    match live_driver c with
    | Some d =>
        modify_context (set_page_objects {| config := config_manager c |}) ;;
        print MsgPageObjectsInitialized
    | None => mret tt
    end ;;
    print (MsgScenarioStarted (name scenario)) ;;
    increment_metric "total_tests".

Definition after_scenario (scenario : Scenario) : M (Context * W) unit :=
  (if String.eqb (status scenario) "passed" then
     increment_metric "passed_tests" ;;
     print (MsgScenarioPassed (name scenario))
   else if String.eqb (status scenario) "failed" then
     increment_metric "failed_tests" ;;
     print (MsgScenarioFailed (name scenario)) ;;
     c ← get_context;
     match live_driver c with
     | Some d =>
         try_except
           (now ← (fun s => (Ok (unix_time (snd s)), s, []));
            let screenshot_name :=
              "failure_" +:+ replace_char " " "_" (name scenario)
              +:+ "_" +:+ pretty now +:+ ".png" in
            let screenshot_path := path_join "reports" screenshot_name in
            hook_call (EvScreenshot d screenshot_path)
                      (driver_save_screenshot d screenshot_path) ;;
            print (MsgScreenshotSaved screenshot_path))
           (any_exception (fun e => print (MsgScreenshotFailed e)))
     | None => mret tt
     end
   else
     increment_metric "skipped_tests" ;;
     print (MsgScenarioSkipped (name scenario))) ;;
  c ← get_context;
  match live_driver c with
  | Some d =>
      try_except
        (hook_call (EvQuit d) (driver_quit d))
        (any_exception (fun e => print (MsgDriverCloseError e)))
  | None => mret tt
  end ;;
  c ← get_context;
  match scenario_data c with
  | Some _ => modify_context (set_scenario_data None)
  | None => mret tt
  end.

Definition summary_file : string := "reports/test_summary.txt".

(** [f.write(line)] on the summary file *)
Definition write_summary (line : message) : M (Context * W) unit :=
  hook_call (EvFileWrite summary_file line) (file_write summary_file line).

(** [with open(filename, 'w') as f: body] *)
Definition with_open (filename : string) (body : M (Context * W) unit)
  : M (Context * W) unit :=
  hook_call (EvOpenFile filename) (open_file filename) ;;
  try_finally body (hook_call (EvCloseFile filename) (file_close filename)).

(** [pass_rate = (passed / total) * 100], formatted with [:.2f] *)
Definition pass_rate_text : M (Context * W) string :=
  passed ← metric "passed_tests";
  total ← metric "total_tests";
  quotient ← lift (int_true_divide passed total);
  mret (format_2f (times_100 quotient)).

(** the [with] block of [after_all] *)
Definition write_summary_file : M (Context * W) unit :=
  with_open summary_file
    (write_summary MsgFileTitle ;;
     write_summary MsgFileRule ;;
     write_summary MsgExecutionDate ;;
     write_summary MsgDuration ;;
     c ← get_context;
     match config_manager c with
     | Some cfg =>
         browser ← lift (get_browser cfg);
         write_summary (MsgBrowser browser) ;;
         base_url ← lift (get_base_url cfg);
         write_summary (MsgBaseUrl base_url)
     | None => mret tt
     end ;;
     total ← metric "total_tests";
     write_summary (MsgTotalTests total) ;;
     passed ← metric "passed_tests";
     write_summary (MsgPassed passed) ;;
     failed ← metric "failed_tests";
     write_summary (MsgFailed failed) ;;
     skipped ← metric "skipped_tests";
     write_summary (MsgSkipped skipped) ;;
     total ← metric "total_tests";
     if 0 <? total
     then pass_rate ← pass_rate_text; write_summary (MsgPassRate pass_rate)
     else mret tt).

(** The start time of the run is taken to be set, as [before_all] sets
    it, so that the duration can be computed. *)
Definition after_all : M (Context * W) unit :=
  print MsgSummaryTop ;;
  print MsgSummaryHeading ;;
  print MsgSummaryRule ;;
  print MsgTotalDuration ;;
  total ← metric "total_tests";
  print (MsgTotalTests total) ;;
  passed ← metric "passed_tests";
  print (MsgPassed passed) ;;
  failed ← metric "failed_tests";
  print (MsgFailed failed) ;;
  skipped ← metric "skipped_tests";
  print (MsgSkipped skipped) ;;
  total ← metric "total_tests";
  (if 0 <? total
   then pass_rate ← pass_rate_text; print (MsgPassRate pass_rate)
   else mret tt) ;;
  print MsgSummaryRule ;;
  try_except write_summary_file
    (any_exception (fun e => print (MsgSummaryWriteFailed e))).

(** The hooks around one scenario, in the order the runner calls them.
    The steps in between are outside the embedding: the status they
    leave is the [status] of the scenario. *)
Definition run_scenario (scenario : Scenario) : M (Context * W) unit :=
  before_scenario scenario ;;
  after_scenario scenario.

Fixpoint run_scenarios (scenarios : list Scenario) : M (Context * W) unit :=
  match scenarios with
  | [] => mret tt
  | scenario :: rest => run_scenario scenario ;; run_scenarios rest
  end.

End Hooks.

(** [utils/driver_manager.py] *)
Record DriverManager : Type := {
  dm_config : option Config;
  dm_driver : option Driver
}.

Section DriverManagerMethods.
Context {W : Type} `{Browser W}.

(** returns the manager as the call leaves it: [finally] clears the
    driver *)
Definition quit_driver (self : DriverManager) : M W DriverManager :=
  match dm_driver self with
  | Some d =>
      try_except
        (call (EvQuit d) (driver_quit d))
        (any_exception (fun e => print (MsgDriverQuitError e))) ;;
      mret {| dm_config := dm_config self; dm_driver := None |}
  | None => mret self
  end.

End DriverManagerMethods.

(* ===================================================================== *)
(** ** A simulated browser *)
(* ===================================================================== *)

(** A page that does not change while it is read, with the few switches
    the properties below need: clicks that fail a given number of times on
    a detached element, a session that cannot be created, a teardown that
    fails.  [sim_present l] lists the elements [l] matches, in document
    order. *)
Record Sim : Type := {
  sim_present : locator -> list element;
  sim_displayed : element -> bool;
  sim_enabled : element -> bool;
  sim_text : element -> string;
  sim_attribute : element -> string -> option string;
  sim_url : string;
  sim_stale_clicks : nat;
  sim_clock : Z;
  sim_headless : bool;
  sim_import_error : bool;
  sim_quit_fails : bool
}.

Definition timeout_exn : exn := Exn TimeoutException "Message: ".
Definition stale_exn : exn :=
  Exn StaleElementReferenceException "Message: stale element reference".
Definition import_exn : exn := Exn ImportError "No module named 'webdriver_manager'".
Definition quit_exn : exn := Exn WebDriverException "Message: session deleted".

(** the expected conditions of Selenium on such a page: each looks at the
    first element the locator matches *)
Definition sim_wait (m : wait_mode) (l : locator) (s : Sim) : result element :=
  match sim_present s l with
  | [] => Raise timeout_exn
  | el :: _ =>
      match m with
      | Presence => Ok el
      | Visibility => if sim_displayed s el then Ok el else Raise timeout_exn
      | Clickability =>
          if sim_displayed s el && sim_enabled s el then Ok el
          else Raise timeout_exn
      end
  end.

Definition sim_after_click (s : Sim) : Sim :=
  {| sim_present := sim_present s; sim_displayed := sim_displayed s;
     sim_enabled := sim_enabled s; sim_text := sim_text s;
     sim_attribute := sim_attribute s; sim_url := sim_url s;
     sim_stale_clicks := Nat.pred (sim_stale_clicks s);
     sim_clock := sim_clock s; sim_headless := sim_headless s;
     sim_import_error := sim_import_error s;
     sim_quit_fails := sim_quit_fails s |}.

Definition sim_click (el : element) (s : Sim) : result unit * Sim :=
  match sim_stale_clicks s with
  | O => (Ok tt, s)
  | S _ => (Raise stale_exn, sim_after_click s)
  end.

#[global] Instance sim_browser : Browser Sim := {|
  wait_until m l _ s := (sim_wait m l s, s);
  wait_ready_state _ s := (Ok tt, s);
  driver_find_elements l s := (Ok (sim_present s l), s);
  element_click := sim_click;
  script_click _ s := (Ok tt, s);
  element_clear _ s := (Ok tt, s);
  element_send_keys _ _ s := (Ok tt, s);
  element_text el s := (Ok (sim_text s el), s);
  element_get_attribute el a s := (Ok (sim_attribute s el a), s);
  element_is_displayed el s := (Ok (sim_displayed s el), s);
  driver_current_url s := (Ok (sim_url s), s);
  time_sleep _ s := s;
  unix_time s := sim_clock s;
  env_headless s := sim_headless s;
  new_session s := (if sim_import_error s then Raise import_exn else Ok 1%nat, s);
  driver_implicitly_wait _ _ s := (Ok tt, s);
  driver_maximize_window _ s := (Ok tt, s);
  driver_save_screenshot _ _ s := (Ok true, s);
  driver_quit _ s := (if sim_quit_fails s then Raise quit_exn else Ok tt, s);
  open_file _ s := (Ok tt, s);
  file_write _ _ s := (Ok tt, s);
  file_close _ s := (Ok tt, s)
|}.

(** an empty page at [url] *)
Definition blank (url : string) : Sim :=
  {| sim_present := fun _ => [];
     sim_displayed := fun _ => true;
     sim_enabled := fun _ => true;
     sim_text := fun _ => "";
     sim_attribute := fun _ _ => None;
     sim_url := url;
     sim_stale_clicks := 0;
     sim_clock := 1700000000;
     sim_headless := true;
     sim_import_error := false;
     sim_quit_fails := false |}.

(** [s], with the elements [els] under the locator [l] *)
Definition with_elements (l : locator) (els : list element) (s : Sim) : Sim :=
  {| sim_present := fun l' => if decide (l' = l) then els else sim_present s l';
     sim_displayed := sim_displayed s; sim_enabled := sim_enabled s;
     sim_text := sim_text s; sim_attribute := sim_attribute s;
     sim_url := sim_url s; sim_stale_clicks := sim_stale_clicks s;
     sim_clock := sim_clock s; sim_headless := sim_headless s;
     sim_import_error := sim_import_error s;
     sim_quit_fails := sim_quit_fails s |}.

(** [s], with the text [t] in the element [el] *)
Definition with_text (el : element) (t : string) (s : Sim) : Sim :=
  {| sim_present := sim_present s; sim_displayed := sim_displayed s;
     sim_enabled := sim_enabled s;
     sim_text := fun el' => if decide (el' = el) then t else sim_text s el';
     sim_attribute := sim_attribute s; sim_url := sim_url s;
     sim_stale_clicks := sim_stale_clicks s; sim_clock := sim_clock s;
     sim_headless := sim_headless s; sim_import_error := sim_import_error s;
     sim_quit_fails := sim_quit_fails s |}.

(** [s], with the element [el] hidden *)
Definition with_hidden (el : element) (s : Sim) : Sim :=
  {| sim_present := sim_present s;
     sim_displayed := fun el' => if decide (el' = el) then false else sim_displayed s el';
     sim_enabled := sim_enabled s; sim_text := sim_text s;
     sim_attribute := sim_attribute s; sim_url := sim_url s;
     sim_stale_clicks := sim_stale_clicks s; sim_clock := sim_clock s;
     sim_headless := sim_headless s; sim_import_error := sim_import_error s;
     sim_quit_fails := sim_quit_fails s |}.

(** [s], with the next [n] clicks failing on a stale reference *)
Definition with_stale_clicks (n : nat) (s : Sim) : Sim :=
  {| sim_present := sim_present s; sim_displayed := sim_displayed s;
     sim_enabled := sim_enabled s; sim_text := sim_text s;
     sim_attribute := sim_attribute s; sim_url := sim_url s;
     sim_stale_clicks := n; sim_clock := sim_clock s;
     sim_headless := sim_headless s; sim_import_error := sim_import_error s;
     sim_quit_fails := sim_quit_fails s |}.

(** [s], where the WebDriver cannot be imported *)
Definition without_webdriver (s : Sim) : Sim :=
  {| sim_present := sim_present s; sim_displayed := sim_displayed s;
     sim_enabled := sim_enabled s; sim_text := sim_text s;
     sim_attribute := sim_attribute s; sim_url := sim_url s;
     sim_stale_clicks := sim_stale_clicks s; sim_clock := sim_clock s;
     sim_headless := sim_headless s; sim_import_error := true;
     sim_quit_fails := sim_quit_fails s |}.

(** [s], where closing the session fails *)
Definition with_failing_quit (s : Sim) : Sim :=
  {| sim_present := sim_present s; sim_displayed := sim_displayed s;
     sim_enabled := sim_enabled s; sim_text := sim_text s;
     sim_attribute := sim_attribute s; sim_url := sim_url s;
     sim_stale_clicks := sim_stale_clicks s; sim_clock := sim_clock s;
     sim_headless := sim_headless s; sim_import_error := sim_import_error s;
     sim_quit_fails := true |}.

(** a page object built without a configuration manager *)
Definition default_page : BasePage := {| config := None |}.

(* ===================================================================== *)
(** ** Vocabulary of the properties *)
(* ===================================================================== *)

(** the result, the world left and the events of a run *)
Definition outcome {A S : Type} (run : result A * S * list event) : result A :=
  fst (fst run).
Definition final {A S : Type} (run : result A * S * list event) : S :=
  snd (fst run).
Definition events {A S : Type} (run : result A * S * list event) : list event :=
  snd run.

Section FallbackVocabulary.
Context {W : Type} `{Browser W}.

(** [attempts_fail attempt ls w fs w']: the attempts on the locators
    [ls], made one after the other from the world [w], all raise; [fs]
    lists the exception and the events of each, and [w'] is the world
    they leave. *)
Inductive attempts_fail {A} (attempt : locator -> M W A)
  : list locator -> W -> list (exn * list event) -> W -> Prop :=
  | attempts_fail_nil w : attempts_fail attempt [] w [] w
  | attempts_fail_cons l ls w e o w1 fs w' :
      attempt l w = (Raise e, w1, o) ->
      attempts_fail attempt ls w1 fs w' ->
      attempts_fail attempt (l :: ls) w ((e, o) :: fs) w'.

(** [stale_clicks el n w w']: from the world [w], [n] clicks on [el] in
    a row raise a stale-reference failure, each followed by the pause of
    [_click_with_retry]; [w'] is the world after the last pause. *)
Inductive stale_clicks (el : element) : nat -> W -> W -> Prop :=
  | stale_clicks_O w : stale_clicks el O w w
  | stale_clicks_S n w e w1 w' :
      element_click el w = (Raise e, w1) ->
      is_class StaleElementReferenceException e = true ->
      stale_clicks el n (time_sleep 500 w1) w' ->
      stale_clicks el (S n) w w'.

End FallbackVocabulary.

(** A boolean check absorbs the timeouts of the wait for [m] on [l], and
    nothing else, when it returns [True] if the wait succeeds, [False] if
    the wait raises a timeout, never raises a timeout itself, and raises
    any other exception that the wait raises. *)
Definition absorbs_timeouts {W : Type} `{Browser W} (m : wait_mode) (l : locator)
  (timeout : Z) (check : M W bool) : Prop :=
  forall w : W,
    (forall el w1, wait_until m l timeout w = (Ok el, w1) ->
       check w = (Ok true, w1, [EvWait m l timeout]))
    /\ (forall e w1, wait_until m l timeout w = (Raise e, w1) ->
          is_class TimeoutException e = true ->
          check w = (Ok false, w1, [EvWait m l timeout]))
    /\ (forall e, outcome (check w) = Raise e ->
          is_class TimeoutException e = false)
    /\ (forall e w1, wait_until m l timeout w = (Raise e, w1) ->
          is_class TimeoutException e = false ->
          check w = (Raise e, w1, [EvWait m l timeout])).

(** C10 as the specification states it: a check is total when, from
    every state of the browser, it returns a boolean. *)
Definition total_check {W : Type} (check : M W bool) : Prop :=
  forall w : W, exists b, outcome (check w) = Ok b.

(** C1 as the specification states it, of the run of a chain on a locator
    list that ends with [post]: the run succeeds, and waits for none of
    the strategies of [post]. *)
Definition tried (l : locator) (evs : list event) : bool :=
  existsb (fun ev => match ev with
                     | EvWait _ l' _ => bool_decide (l' = l)
                     | _ => false
                     end) evs.

Definition succeeds_without_trying {A S : Type} (post : list locator)
  (run : result A * S * list event) : Prop :=
  (exists a, outcome run = Ok a)
  /\ forallb (fun l => negb (tried l (events run))) post = true.

(** the events of failed attempts of [find_element]: one wait each *)
Definition waits (self : BasePage) (timeout : Z) (ls : list locator) : list event :=
  map (fun l => EvWait Presence l (wait_timeout self (Some timeout))) ls.

(** the events of failed attempts of an action, each followed by the line
    [_try_locators_with_action] prints for it *)
Fixpoint failure_log (field_name : string) (ls : list locator)
  (fs : list (exn * list event)) : list event :=
  match ls, fs with
  | l :: ls', (e, o) :: fs' =>
      o ++ EvPrint (MsgActionFailed field_name l e) :: failure_log field_name ls' fs'
  | _, _ => []
  end.

(** An error carries the attempts when its text holds the value of every
    attempted strategy and the text of every failure. *)
Definition carries_attempts (e : exn) (ls : list locator)
  (fs : list (exn * list event)) : Prop :=
  (forall l, In l ls -> str_in (snd l) (exn_text e) = true)
  /\ (forall f, In f fs -> str_in (exn_text (fst f)) (exn_text e) = true).

(** The outcome C2 describes: an error that carries the attempts. *)
Definition fails_carrying_attempts {A : Type} (r : result A) (ls : list locator)
  (fs : list (exn * list event)) : Prop :=
  exists e, r = Raise e /\ carries_attempts e ls fs.

(** the events of [n] stale clicks on [el], each with its pause *)
Fixpoint stale_events (el : element) (n : nat) : list event :=
  match n with
  | O => []
  | S n' => EvClick el :: EvSleep 500 :: stale_events el n'
  end.

(** the events of [n] stale clicks on [el] and of one more click *)
Definition retry_events (el : element) (n : nat) : list event :=
  stale_events el n ++ [EvClick el].

(** A trace re-resolves before each retry when every click but the first
    has, since the click before it, a wait that resolves an element.
    [resolved] tells whether such a wait was seen since the last click. *)
Fixpoint re_resolves_before_retry (resolved : bool) (evs : list event) : bool :=
  match evs with
  | [] => true
  | EvWait _ _ _ :: r => re_resolves_before_retry true r
  | EvClick _ :: r => resolved && re_resolves_before_retry false r
  | _ :: r => re_resolves_before_retry resolved r
  end.

(* ===================================================================== *)
(** ** Sample pages and scenarios *)
(* ===================================================================== *)

(** a login page whose e-mail field answers to [EMAIL_FIELD_ALT] only *)
Definition page_with_alt_email : Sim :=
  with_elements EMAIL_FIELD_ALT [7%nat]
    (blank "https://app.example.com/home/dashboard?ref=x").

(** the action of [enter_field_value]: [send_keys_to_element] with the
    value to enter *)
Definition enter_value {W : Type} `{Browser W} (self : BasePage) (value : string)
  : locator -> M W unit :=
  fun l => send_keys_to_element self l value true.

(** a login page whose continue button is there, and detached for the
    next [n] clicks *)
Definition page_with_stale_button (n : nat) : Sim :=
  with_stale_clicks n (with_elements CONTINUE_BUTTON [4%nat] (blank "https://www.hudl.com/login")).

(** a page whose e-mail field has no [validationMessage] attribute, and no
    error element *)
Definition page_without_errors : Sim :=
  with_elements EMAIL_FIELD [7%nat] (blank "https://www.hudl.com/login").

(** [url] holds neither a question mark nor a hash sign *)
Definition no_query_or_fragment (url : string) : bool :=
  all_chars (fun c => negb (char_in c "?#")) url.

(** [s] starts with one of the characters of [chars] *)
Definition starts_with_any (chars : string) (s : string) : bool :=
  match s with
  | String c _ => char_in c chars
  | EmptyString => false
  end.

(** [host] is a plain host: no delimiter of the network location, no
    square bracket, no control character or space *)
Definition plain_host (host : string) : bool :=
  all_chars (fun c => negb (char_in c "/?#[]") && negb (in_range 0 32 c)) host.

(** The page-load wait of a verification returns when the browser reports
    the page ready or the wait times out ([wait_for_page_load] turns the
    timeout into [False]). *)
Definition page_load_returns (loaded : result unit) : Prop :=
  forall e, loaded = Raise e -> is_class TimeoutException e = true.

(** What C6 states of a verification against the host [expected_host]
    that ends with [r] on the address [current_url]: it succeeds exactly
    when the expected host is contained, whatever the case, in the network
    location of the address. *)
Definition provider_check_as_stated (expected_host current_url : string)
  (r : result unit) : Prop :=
  forall parsed, urlparse current_url = Ok parsed ->
    r = Ok tt <-> str_in (lower expected_host) (lower (netloc parsed)) = true.

(** the application after a login, and the sign-in page of a provider *)
Definition dashboard_page : Sim :=
  blank "https://app.example.com/home/dashboard?ref=x".

Definition google_oauth_page : Sim :=
  blank "https://accounts.google.com/oauth/authorize?client_id=1".

(** the text [_find_error_by_locators] gets from the locator [l] on the
    simulated page [s]: the stripped text of the first element [l] matches
    when that element is displayed, the empty string otherwise *)
Definition visible_text (s : Sim) (l : locator) : string :=
  match sim_wait Visibility l s with
  | Ok el => strip (sim_text s el)
  | Raise _ => ""
  end.

(** the first non-empty text of a list, the empty string when there is
    none *)
Fixpoint first_truthy (texts : list string) : string :=
  match texts with
  | [] => ""
  | t :: rest => if truthy t then t else first_truthy rest
  end.

(** the elements that the XPath of a keyword matches on the page [s] *)
Definition pattern_elements (s : Sim) (pattern : string) : list element :=
  sim_present s (By_XPATH, pattern_xpath pattern).

(** the non-empty stripped texts of the displayed elements among [els] *)
Definition displayed_texts (s : Sim) (els : list element) : list string :=
  List.filter truthy
    (map (fun el => strip (sim_text s el)) (List.filter (sim_displayed s) els)).

(** the texts the scan can return for a keyword on the page [s] *)
Definition pattern_hits (s : Sim) (pattern : string) : list string :=
  displayed_texts s (pattern_elements s pattern).

(** the order in which C4 states the locators are tried: the field-scoped
    ones, then the generic banner *)
Definition error_locators_as_stated : list locator :=
  [ERROR_MESSAGE; EMAIL_ERROR; PASSWORD_ERROR; GENERIC_ERROR].

(** a login page showing a generic banner and an error under the e-mail
    field *)
Definition page_with_banner_and_email_error : Sim :=
  with_text 1%nat "Something went wrong"
    (with_text 2%nat "Enter a valid email"
       (with_elements GENERIC_ERROR [1%nat]
          (with_elements EMAIL_ERROR [2%nat] (blank "https://www.hudl.com/login")))).

(** a login page with no error element, where the keyword [incorrect]
    matches a hidden node and the keyword [invalid] a visible message *)
Definition page_with_keyword_message : Sim :=
  with_hidden 3%nat
    (with_text 5%nat "  Invalid email or password "
       (with_elements (By_XPATH, pattern_xpath "incorrect") [3%nat]
          (with_elements (By_XPATH, pattern_xpath "invalid") [5%nat]
             (blank "https://www.hudl.com/login")))).

(** the four counters of the test metrics *)
Definition metric_keys : list string :=
  ["total_tests"; "passed_tests"; "failed_tests"; "skipped_tests"].

(** the metrics hold the four counters, as [before_all] leaves them *)
Definition metrics_ready (c : Context) : Prop :=
  forall key, In key metric_keys -> is_Some (test_metrics c !! key).

(** the value of a counter, [0] when it is missing *)
Definition counter (key : string) (c : Context) : Z :=
  default 0 (test_metrics c !! key).

(** the counter that [after_scenario] increments for a status *)
Definition status_counter (status : string) : string :=
  if String.eqb status "passed" then "passed_tests"
  else if String.eqb status "failed" then "failed_tests"
  else "skipped_tests".

(** A trace captures before teardown when it holds a screenshot and,
    later, the closing of the same session. *)
Definition captures_before_teardown (evs : list event) : Prop :=
  exists d filename a b c,
    evs = a ++ EvScreenshot d filename :: b ++ EvQuit d :: c.

(** a context as [before_scenario] leaves it on a working browser *)
Definition context_with_session : Context :=
  set_page_objects default_page
    (set_scenario_data (Some tt) (set_driver (Some 1%nat) (before_all None))).

(** three scenarios, of which the second fails *)
Definition three_scenarios : list Scenario :=
  [ {| name := "Valid login"; status := "passed" |};
    {| name := "Invalid password"; status := "failed" |};
    {| name := "Logout"; status := "passed" |} ].

(** the file name [after_scenario] gives the screenshot of a failed
    scenario taken at the time [now] *)
Definition screenshot_path (scenario : Scenario) (now : Z) : string :=
  path_join "reports"
    ("failure_" +:+ replace_char " " "_" (name scenario)
     +:+ "_" +:+ pretty now +:+ ".png").

(** the line [after_scenario] prints for the status of a scenario *)
Definition status_message (scenario : Scenario) : message :=
  if String.eqb (status scenario) "passed" then MsgScenarioPassed (name scenario)
  else if String.eqb (status scenario) "failed" then MsgScenarioFailed (name scenario)
  else MsgScenarioSkipped (name scenario).

Section CleanupVocabulary.
Context {W : Type} `{Browser W}.

(** the capture of [after_scenario]: for a failed scenario with a live
    session, the screenshot and the line printed for its result *)
Definition capture_events (scenario : Scenario) (c : Context) (w : W)
  : list event * W :=
  if String.eqb (status scenario) "passed" then ([], w)
  else if String.eqb (status scenario) "failed" then
    match live_driver c with
    | Some d =>
        let filename := screenshot_path scenario (unix_time w) in
        let '(r, w1) := driver_save_screenshot d filename w in
        ([EvScreenshot d filename;
          EvPrint (match r with
                   | Ok _ => MsgScreenshotSaved filename
                   | Raise e => MsgScreenshotFailed e
                   end)], w1)
    | None => ([], w)
    end
  else ([], w).

(** the teardown of [after_scenario]: with a live session, its closing
    and, when that raises, the line printed for the failure *)
Definition teardown_events (c : Context) (w : W) : list event * W :=
  match live_driver c with
  | Some d =>
      let '(r, w1) := driver_quit d w in
      (EvQuit d :: match r with
                   | Ok _ => []
                   | Raise e => [EvPrint (MsgDriverCloseError e)]
                   end, w1)
  | None => ([], w)
  end.

End CleanupVocabulary.

(** the number of scenarios of a run that [after_scenario] counts under
    the counter [key] *)
Definition count_status (key : string) (scenarios : list Scenario) : Z :=
  Z.of_nat (length (List.filter
                      (fun sc => String.eqb (status_counter (status sc)) key)
                      scenarios)).

(** three scenarios on a machine without the WebDriver packages: none can
    start a browser, so all fail *)
Definition three_failed_scenarios : list Scenario :=
  [ {| name := "Valid login"; status := "failed" |};
    {| name := "Invalid password"; status := "failed" |};
    {| name := "Logout"; status := "failed" |} ].

Section ErrorLookupVocabulary.
Context {W : Type} `{Browser W}.

(** one round of the loop of [_find_error_by_locators]: the text found
    with the locator [l], if any *)
Definition error_text_with (self : BasePage) (l : locator) : M W (option string) :=
  try_except
    (el ← find_visible_element self l (Some (error_timeout self));
     t ← call (EvText el) (element_text el);
     let error_text := strip t in
     if truthy error_text
     then print (MsgFoundError error_text l) ;; mret (Some error_text)
     else mret None)
    (any_exception (fun e => print (MsgNoErrorWith l e) ;; mret None)).

(** [locators_give_nothing self ls w o w']: tried one after the other from
    the world [w], the locators [ls] give no text; [o] are the events of
    the attempts and [w'] is the world they leave. *)
Inductive locators_give_nothing (self : BasePage)
  : list locator -> W -> list event -> W -> Prop :=
  | locators_give_nothing_nil w : locators_give_nothing self [] w [] w
  | locators_give_nothing_cons l ls w o1 w1 o w' :
      error_text_with self l w = (Ok None, w1, o1) ->
      locators_give_nothing self ls w1 o w' ->
      locators_give_nothing self (l :: ls) w (o1 ++ o) w'.

End ErrorLookupVocabulary.

(* ===================================================================== *)
(** * The rest of the page layer, its callers and the configuration manager

    The methods of [pages/base_page.py] and [pages/login_page.py] beyond
    those above, the page objects that call them ([pages/home_page.py],
    [pages/reset_password_page.py], [pages/dashboard_page.py]) and the
    configuration manager they read their timeouts from
    ([utils/config.py]).  A method is embedded when every call it makes to
    the browser and every line it prints is an [event] above. *)
(* ===================================================================== *)

(* ===================================================================== *)
(** ** More Python strings *)
(* ===================================================================== *)

Definition is_lower (c : ascii) : bool := in_range 97 122 c.

(** [str.upper()] *)
Definition upper_char (c : ascii) : ascii :=
  if is_lower c then ascii_of_nat (ascii_code c - 32) else c.

Fixpoint upper (s : string) : string :=
  match s with
  | EmptyString => EmptyString
  | String c r => String (upper_char c) (upper r)
  end.

(** [str.title()]: a letter that follows a letter is lowered, any other
    letter is raised *)
Fixpoint title_from (previous_is_cased : bool) (s : string) : string :=
  match s with
  | EmptyString => EmptyString
  | String c r =>
      String (if previous_is_cased then lower_char c else upper_char c)
             (title_from (is_alpha c) r)
  end.

Definition title (s : string) : string := title_from false s.

(** [s.endswith(c)] for a single character *)
Fixpoint ends_with_char (c : ascii) (s : string) : bool :=
  match s with
  | EmptyString => false
  | String d EmptyString => Ascii.eqb d c
  | String _ r => ends_with_char c r
  end.

(** [s.split(sep)] for a single character: the pieces between the
    occurrences of [sep], empty pieces included *)
Fixpoint split_on (sep : ascii) (s : string) : list string :=
  match s with
  | EmptyString => [EmptyString]
  | String c r =>
      if Ascii.eqb c sep then EmptyString :: split_on sep r
      else match split_on sep r with
           | piece :: pieces => String c piece :: pieces
           | [] => [String c EmptyString]
           end
  end.

(** the digits of a decimal literal, single underscores allowed between
    two digits; [after_digit] tells whether the character before was a
    digit *)
Fixpoint digits_value (acc : Z) (after_digit : bool) (s : string) : option Z :=
  match s with
  | EmptyString => if after_digit then Some acc else None
  | String c r =>
      if is_digit c
      then digits_value (acc * 10 + Z.of_nat (ascii_code c - 48)) true r
      else if Ascii.eqb c "_" && after_digit
      then match r with
           | String d _ => if is_digit d then digits_value acc false r else None
           | EmptyString => None
           end
      else None
  end.

(** the characters [int] skips around a literal: the whitespace of the C
    locale.  The separators 28 to 31, which [str.strip] drops, are not
    among them. *)
Definition is_c_space (c : ascii) : bool := in_range 9 13 c || Ascii.eqb c " ".

Fixpoint count_digits (s : string) : nat :=
  match s with
  | EmptyString => O
  | String c r => if is_digit c then S (count_digits r) else count_digits r
  end.

(** [sys.get_int_max_str_digits()], as the interpreter starts *)
Definition int_max_str_digits : nat := 4300.

(** [int(s)] for an ASCII text, [None] where Python raises [ValueError]:
    surrounding whitespace is skipped, then come an optional sign and the
    digits, of which there may be 4300 at most, leading zeros counted. *)
Definition int_of_str (s : string) : option Z :=
  let literal := strip_with is_c_space s in
  if Nat.ltb int_max_str_digits (count_digits literal) then None
  else match literal with
       | EmptyString => None
       | String c r =>
           if Ascii.eqb c "-" then option_map Z.opp (digits_value 0 false r)
           else if Ascii.eqb c "+" then digits_value 0 false r
           else digits_value 0 false (String c r)
       end.

(** [d.get(key)] on a dictionary given by its entries, each key once *)
Fixpoint dict_get {A : Type} (d : list (string * A)) (key : string) : option A :=
  match d with
  | [] => None
  | (k, v) :: rest => if String.eqb k key then Some v else dict_get rest key
  end.

(* ===================================================================== *)
(** ** [pages/base_page.py], continued *)
(* ===================================================================== *)

Section BasePageFallbacks.
Context {W : Type} `{Browser W}.

Definition wait_for_element_visible (self : BasePage) (l : locator)
  (timeout : option Z) : M W element :=
  find_visible_element self l timeout.

Fixpoint send_keys_with_fallback (self : BasePage) (locators : list locator)
  (text : string) (timeout : Z) : M W bool :=
  match locators with
  | [] => mret false
  | l :: rest =>
      try_except
        (el ← find_element self l (Some timeout);
         call (EvClear el) (element_clear el) ;;
         call (EvSendKeys el text) (element_send_keys el text) ;;
         mret true)
        (any_exception (fun _ => send_keys_with_fallback self rest text timeout))
  end.

Fixpoint click_with_fallback (self : BasePage) (locators : list locator)
  (timeout : Z) : M W bool :=
  match locators with
  | [] => mret false
  | l :: rest =>
      try_except
        (el ← find_element self l (Some timeout);
         call (EvClick el) (element_click el) ;;
         mret true)
        (any_exception (fun _ => click_with_fallback self rest timeout))
  end.

(** [element_name] is not used by the method *)
Fixpoint is_element_visible_with_fallback (self : BasePage)
  (locators : list locator) (element_name : string) (timeout : Z) : M W bool :=
  match locators with
  | [] => mret false
  | l :: rest =>
      visible ← try_except
                  (is_element_visible self l timeout)
                  (any_exception (fun _ => mret false));
      if visible : bool then mret true
      else is_element_visible_with_fallback self rest element_name timeout
  end.

End BasePageFallbacks.

(* ===================================================================== *)
(** ** [pages/login_page.py], continued *)
(* ===================================================================== *)

Definition PASSWORD_FIELD : locator := (By_NAME, "password").
Definition PASSWORD_FIELD_ALT : locator := (By_ID, "password").
Definition PASSWORD_FIELD_TYPE : locator := (By_CSS_SELECTOR, "input[type='password']").
Definition PASSWORD_FIELD_NAME_PATTERN : locator :=
  (By_CSS_SELECTOR, "input[name*='password' i]").
Definition PASSWORD_FIELD_PLACEHOLDER : locator :=
  (By_CSS_SELECTOR, "input[placeholder*='password' i]").

Definition GOOGLE_LOGIN_BUTTON : locator :=
  (By_CSS_SELECTOR, "button[data-provider='google']").
Definition FACEBOOK_LOGIN_BUTTON : locator :=
  (By_CSS_SELECTOR, "button[data-provider='facebook']").
Definition APPLE_LOGIN_BUTTON : locator :=
  (By_CSS_SELECTOR, "button[data-provider='apple']").
Definition DISPLAY_NAME : locator :=
  (By_CSS_SELECTOR, ".hui-globaluseritem__display-name span").

(** [field_locator_map] of [_get_field_locators] *)
Definition field_locator_map : list (string * list locator) :=
  [ ("email", [EMAIL_FIELD; EMAIL_FIELD_ALT; EMAIL_FIELD_TYPE;
               EMAIL_FIELD_NAME_PATTERN; EMAIL_FIELD_PLACEHOLDER]);
    ("password", [PASSWORD_FIELD; PASSWORD_FIELD_ALT; PASSWORD_FIELD_TYPE;
                  PASSWORD_FIELD_NAME_PATTERN; PASSWORD_FIELD_PLACEHOLDER]);
    ("continue_button", [CONTINUE_BUTTON; CONTINUE_BUTTON_ALT]) ].

(** the message of the [ValueError] of [_get_field_locators]; the keys of
    the map are printed as Python prints a list of strings *)
Definition unsupported_field_locators_message (field_type : string) : string :=
  "Unsupported field type: " +:+ field_type
  +:+ ". Supported types: ['email', 'password', 'continue_button']".

(** an empty list is falsy, as a missing entry is *)
Definition _get_field_locators (field_type : string) : result (list locator) :=
  match dict_get field_locator_map (lower field_type) with
  | Some (l :: ls) => Ok (l :: ls)
  | _ => Raise (Exn ValueError (unsupported_field_locators_message field_type))
  end.



Definition unsupported_provider_message (provider : string) : string :=
  "Unsupported social login provider: " +:+ provider.

Section LoginPageFields.
Context {W : Type} `{Browser W}.

Definition _clear_element_with_locator (self : BasePage) (l : locator) : M W unit :=
  el ← find_visible_element self l None;
  call (EvClear el) (element_clear el).

Definition enter_field_value (self : BasePage) (field_type value : string)
  : M W unit :=
  locators ← lift (_get_field_locators field_type);
  _try_locators_with_action self locators
    (fun l => send_keys_to_element self l value true)
    (title field_type +:+ " entry").

Definition clear_field (self : BasePage) (field_type : string) : M W unit :=
  locators ← lift (_get_field_locators field_type);
  _try_locators_with_action self locators
    (_clear_element_with_locator self)
    (title field_type +:+ " field clear").


Definition enter_email (self : BasePage) (email : string) : M W unit :=
  enter_field_value self "email" email.

Definition enter_password (self : BasePage) (password : string) : M W unit :=
  enter_field_value self "password" password.

Definition clear_email (self : BasePage) : M W unit := clear_field self "email".

Definition clear_password (self : BasePage) : M W unit := clear_field self "password".

Definition click_continue_button (self : BasePage) : M W unit :=
  locators ← lift (_get_field_locators "continue_button");
  _try_locators_with_action self locators
    (fun l => click_element self l None)
    "Continue button click".

Definition click_provider_login_button (self : BasePage) (provider : string)
  : M W unit :=
  let provider := strip_quotes (lower provider) in
  if String.eqb provider "google" then click_element self GOOGLE_LOGIN_BUTTON None
  else if String.eqb provider "facebook" then
    click_element self FACEBOOK_LOGIN_BUTTON None
  else if String.eqb provider "apple" then click_element self APPLE_LOGIN_BUTTON None
  else raise (Exn ValueError (unsupported_provider_message provider)).

(** [a or b] on two checks: [b] is run only when [a] gives [False] *)
Definition or_else (a b : M W bool) : M W bool :=
  x ← a; if x : bool then mret true else b.

Definition has_error_message (self : BasePage) : M W bool :=
  let error_timeout := error_timeout self in
  or_else (is_element_visible self ERROR_MESSAGE error_timeout)
    (or_else (is_element_visible self EMAIL_ERROR error_timeout)
       (or_else (is_element_visible self PASSWORD_ERROR error_timeout)
          (is_element_visible self GENERIC_ERROR error_timeout))).

(** a [WebElement] is truthy, so the text is always read *)
Definition get_display_name (self : BasePage) : M W string :=
  try_except
    (display_name_element ← wait_for_element_visible self DISPLAY_NAME (Some 10);
     t ← call (EvText display_name_element) (element_text display_name_element);
     mret (strip t))
    (any_exception (fun _ => mret "")).

End LoginPageFields.

(* ===================================================================== *)
(** ** [pages/home_page.py] *)
(* ===================================================================== *)

Module HomePage.

Definition HOME_URL : string := "/".
Definition LOGIN_BUTTON : locator := (By_CSS_SELECTOR, "[data-qa-id='login-select']").

Section Methods.
Context {W : Type} `{Browser W}.

Definition is_on_home_page (self : BasePage) : M W bool :=
  current_url ← get_current_url self;
  if str_in HOME_URL current_url then mret true
  else if ends_with_char "/" current_url then mret true
  else is_element_present self LOGIN_BUTTON 5.

Definition get_login_button_text (self : BasePage) : M W string :=
  try_except
    (get_element_text self LOGIN_BUTTON None)
    (any_exception (fun _ => mret "")).

End Methods.

End HomePage.

(* ===================================================================== *)
(** ** [pages/reset_password_page.py] *)
(* ===================================================================== *)

Module ResetPasswordPage.

Definition PASSWORD_RESET_URL_PATTERNS : list string :=
  ["/u/login/password-reset-start"; "/password-reset"; "/reset-password";
   "/forgot-password"].

Definition EMAIL_FIELD : locator := (By_NAME, "email").
Definition EMAIL_FIELD_ALT : locator := (By_ID, "email").
Definition EMAIL_FIELD_TYPE : locator := (By_CSS_SELECTOR, "input[type='email']").
Definition EMAIL_FIELD_NAME_PATTERN : locator :=
  (By_CSS_SELECTOR, "input[name*='email' i]").
Definition EMAIL_FIELD_PLACEHOLDER : locator :=
  (By_CSS_SELECTOR, "input[placeholder*='email' i]").

Definition SUBMIT_BUTTON : locator := (By_CSS_SELECTOR, "button[type='submit']").
Definition SUBMIT_BUTTON_ALT : locator := (By_CSS_SELECTOR, "input[type='submit']").
Definition SUBMIT_BUTTON_TEXT : locator :=
  (By_XPATH, "//button[contains(text(), 'Reset') or contains(text(), 'Send')]").


(** The exceptions the page raises itself; the text is the message they
    are built with. *)
Definition email_field_not_found : exn :=
  Exn NoSuchElementException "Email field not found on password reset page".
Definition submit_button_not_found : exn :=
  Exn NoSuchElementException "Submit button not found on password reset page".

Section Methods.
Context {W : Type} `{Browser W}.

Definition is_on_password_reset_page (self : BasePage) : M W bool :=
  try_except
    (current_url ← get_current_url self;
     mret (existsb (fun pattern => str_in pattern current_url)
             PASSWORD_RESET_URL_PATTERNS))
    (any_exception (fun _ => mret false)).

(** [find_element_with_fallback] is called with its default timeout *)
Definition get_email_field (self : BasePage) : M W (option element) :=
  let locators := [EMAIL_FIELD; EMAIL_FIELD_ALT; EMAIL_FIELD_TYPE;
                   EMAIL_FIELD_NAME_PATTERN; EMAIL_FIELD_PLACEHOLDER] in
  find_element_with_fallback self locators 3.

(** the answer of [send_keys_with_fallback] is dropped *)
Definition enter_email (self : BasePage) (email : string) : M W unit :=
  email_field ← get_email_field self;
  match email_field with
  | Some _ =>
      send_keys_with_fallback self
        [EMAIL_FIELD; EMAIL_FIELD_ALT; EMAIL_FIELD_TYPE] email 3 ;;
      mret tt
  | None => raise email_field_not_found
  end.

Definition get_submit_button (self : BasePage) : M W (option element) :=
  let locators := [SUBMIT_BUTTON; SUBMIT_BUTTON_ALT; SUBMIT_BUTTON_TEXT] in
  find_element_with_fallback self locators 3.

Definition click_submit (self : BasePage) : M W unit :=
  submit_button ← get_submit_button self;
  match submit_button with
  | Some _ =>
      click_with_fallback self
        [SUBMIT_BUTTON; SUBMIT_BUTTON_ALT; SUBMIT_BUTTON_TEXT] 3 ;;
      mret tt
  | None => raise submit_button_not_found
  end.

End Methods.

End ResetPasswordPage.

(* ===================================================================== *)
(** ** [pages/dashboard_page.py] *)
(* ===================================================================== *)

Module DashboardPage.

Definition WELCOME_MESSAGE : locator := (By_CSS_SELECTOR, "[data-qa-id='welcome-message']").
Definition TEAM_INFO : locator := (By_CSS_SELECTOR, "[data-qa-id='team-info']").



Section Methods.
Context {W : Type} `{Browser W}.

Definition get_welcome_message (self : BasePage) : M W string :=
  try_except
    (get_element_text self WELCOME_MESSAGE None)
    (any_exception (fun _ => mret "")).

Definition get_team_info (self : BasePage) : M W string :=
  try_except
    (get_element_text self TEAM_INFO None)
    (any_exception (fun _ => mret "")).



End Methods.

End DashboardPage.

(* ===================================================================== *)
(** ** [utils/config.py] *)
(* ===================================================================== *)

Module ConfigPy.

(** The values a YAML file loads to and the values the configuration
    manager handles: [None], booleans, integers, text, lists and
    dictionaries with text keys (given by their entries, each key once).
    Floating-point numbers and dates are not part of the embedding. *)
#[warnings="-register-all"]
Inductive value : Type :=
  | VNone
  | VBool (b : bool)
  | VInt (n : Z)
  | VStr (s : string)
  | VList (items : list value)
  | VDict (entries : list (string * value)).

(** The exception classes the manager meets. *)
Inductive error : Type := KeyError | TypeError | ValueError | AttributeError.

Inductive res (A : Type) : Type :=
  | Val (a : A)
  | Err (e : error).
Arguments Val {A} a.
Arguments Err {A} e.

#[global] Instance res_ret : MRet res := fun A a => Val a.
#[global] Instance res_bind : MBind res := fun A B k c =>
  match c with
  | Val a => k a
  | Err e => Err e
  end.

(** the truth value of a value *)
Definition truthy (v : value) : bool :=
  match v with
  | VNone => false
  | VBool b => b
  | VInt n => negb (n =? 0)
  | VStr s => match s with EmptyString => false | _ => true end
  | VList items => match items with [] => false | _ => true end
  | VDict entries => match entries with [] => false | _ => true end
  end.

(** [value[k]] for a text [k]: a dictionary without the key raises
    [KeyError]; anything that is not a dictionary raises [TypeError] *)
Definition subscript (v : value) (k : string) : res value :=
  match v with
  | VDict entries =>
      match dict_get entries k with
      | Some x => Val x
      | None => Err KeyError
      end
  | _ => Err TypeError
  end.

(** [for k in keys: value = value[k]] *)
Fixpoint walk (v : value) (keys : list string) : res value :=
  match keys with
  | [] => Val v
  | k :: rest => x ← subscript v k; walk x rest
  end.

(** [v.lower()]: only text has the method *)
Definition str_lower (v : value) : res string :=
  match v with
  | VStr s => Val (lower s)
  | _ => Err AttributeError
  end.

(** [int(v)] *)
Definition py_int (v : value) : res Z :=
  match v with
  | VInt n => Val n
  | VBool b => Val (if b then 1 else 0)
  | VStr s =>
      match int_of_str s with
      | Some n => Val n
      | None => Err ValueError
      end
  | VNone | VList _ | VDict _ => Err TypeError
  end.

(** The configuration manager: the data loaded from the YAML files. *)
Record Config : Type := { config_data : value }.

(** the name of the environment variable that overrides [key] *)
Definition env_key (key : string) : string := replace_char "." "_" (upper key).

Section Getters.
(** [os.environ] *)
Variable environ : gmap string string.

Definition get (self : Config) (key : string) (default : value) : res value :=
  match environ !! env_key key with
  | Some env_value => Val (VStr env_value)
  | None =>
      let keys := split_on "." key in
      match walk (config_data self) keys with
      | Val v => Val v
      | Err KeyError | Err TypeError => Val default
      | Err e => Err e
      end
  end.

Definition get_browser (self : Config) : res string :=
  browser_name ← get self "browser.name" VNone;
  if truthy browser_name then str_lower browser_name
  else b ← get self "browser" (VStr "chrome"); str_lower b.

Definition get_implicit_wait (self : Config) : res Z :=
  v ← get self "timeouts.implicit_wait" (VInt 10); py_int v.

Definition get_explicit_wait (self : Config) : res Z :=
  v ← get self "timeouts.explicit_wait" (VInt 20); py_int v.

Definition get_page_load_timeout (self : Config) : res Z :=
  v ← get self "timeouts.page_load" (VInt 30); py_int v.

Definition get_screenshot_on_failure (self : Config) : res bool :=
  v ← get self "reporting.screenshot_on_failure" (VStr "true");
  s ← str_lower v;
  Val (String.eqb s "true").

Definition get_error_timeout (self : Config) : res Z :=
  v ← get self "timeouts.error_detection" (VInt 3); py_int v.

Definition get_social_login_timeout (self : Config) : res Z :=
  v ← get self "timeouts.social_login" (VInt 2); py_int v.

End Getters.

End ConfigPy.

(* ===================================================================== *)
(** ** Vocabulary of the further properties *)
(* ===================================================================== *)

Section AttemptVocabulary.
Context {W : Type} `{Browser W}.

(** one round of the loop of [send_keys_with_fallback]: the element is
    looked up, cleared and typed into *)
Definition send_keys_attempt (self : BasePage) (text : string) (timeout : Z)
  (l : locator) : M W bool :=
  el ← find_element self l (Some timeout);
  call (EvClear el) (element_clear el) ;;
  call (EvSendKeys el text) (element_send_keys el text) ;;
  mret true.

(** one round of the loop of [click_with_fallback]: the element is looked
    up and clicked once *)
Definition click_attempt (self : BasePage) (timeout : Z) (l : locator) : M W bool :=
  el ← find_element self l (Some timeout);
  call (EvClick el) (element_click el) ;;
  mret true.

(** [waits_raise m timeout ls w w']: the waits for [m] on the locators
    [ls], made one after the other from the world [w], all raise (a
    timeout or anything else); [w'] is the world they leave. *)
Inductive waits_raise (m : wait_mode) (timeout : Z)
  : list locator -> W -> W -> Prop :=
  | waits_raise_nil w : waits_raise m timeout [] w w
  | waits_raise_cons l ls w e w1 w' :
      wait_until m l timeout w = (Raise e, w1) ->
      waits_raise m timeout ls w1 w' ->
      waits_raise m timeout (l :: ls) w w'.

(** [waits_time_out m timeout ls w w']: the same, each wait raising a
    timeout. *)
Inductive waits_time_out (m : wait_mode) (timeout : Z)
  : list locator -> W -> W -> Prop :=
  | waits_time_out_nil w : waits_time_out m timeout [] w w
  | waits_time_out_cons l ls w e w1 w' :
      wait_until m l timeout w = (Raise e, w1) ->
      is_class TimeoutException e = true ->
      waits_time_out m timeout ls w1 w' ->
      waits_time_out m timeout (l :: ls) w w'.

End AttemptVocabulary.

(** the events of failed attempts, in order *)
Definition attempt_events (fs : list (exn * list event)) : list event :=
  concat (map snd fs).

(** the waits for [m] on the locators [ls], in order *)
Definition wait_events (m : wait_mode) (timeout : Z) (ls : list locator)
  : list event :=
  map (fun l => EvWait m l timeout) ls.

(** the number of clicks in a trace, and of pauses *)
Fixpoint clicks (evs : list event) : nat :=
  match evs with
  | [] => O
  | EvClick _ :: r => S (clicks r)
  | _ :: r => clicks r
  end.

Fixpoint pauses (evs : list event) : nat :=
  match evs with
  | [] => O
  | EvSleep _ :: r => S (pauses r)
  | _ :: r => pauses r
  end.

(** whether a trace holds keys sent to an element *)
Fixpoint sends_keys (evs : list event) : bool :=
  match evs with
  | [] => false
  | EvSendKeys _ _ :: _ => true
  | _ :: r => sends_keys r
  end.

(** the locators [has_error_message] checks, in its order *)
Definition has_error_locators : list locator :=
  [ERROR_MESSAGE; EMAIL_ERROR; PASSWORD_ERROR; GENERIC_ERROR].

(** the dictionary that holds [v] under the path [keys] and nothing else *)
Fixpoint nest (keys : list string) (v : ConfigPy.value) : ConfigPy.value :=
  match keys with
  | [] => v
  | k :: rest => ConfigPy.VDict [(k, nest rest v)]
  end.

(* ===================================================================== *)
(** ** More sample pages *)
(* ===================================================================== *)

(** a password reset page whose e-mail field answers to the name pattern
    only *)
Definition reset_page_with_pattern_email : Sim :=
  with_elements ResetPasswordPage.EMAIL_FIELD_NAME_PATTERN [9%nat]
    (blank "https://www.hudl.com/u/login/password-reset-start").

(** a sign-up page whose e-mail field answers to the type locator only *)
Definition page_with_typed_email : Sim :=
  with_elements EMAIL_FIELD_TYPE [8%nat] (blank "https://www.hudl.com/signup").

(** a login page whose password error element is shown *)
Definition page_with_password_error : Sim :=
  with_text 6%nat " Wrong email or password. "
    (with_elements PASSWORD_ERROR [6%nat] (blank "https://www.hudl.com/login")).

(* ===================================================================== *)
(** ** A simulated browser that fails on request *)
(* ===================================================================== *)

(** The simulated page [flaky_page] behind a browser where a native
    click, a wait, the creation of a session or the writing of a file
    raises the exception given for it, when one is given. *)
Record Flaky : Type := {
  flaky_page : Sim;
  flaky_click : option exn;
  flaky_wait : option exn;
  flaky_session : option exn;
  flaky_write : option exn
}.

Definition on_page {A : Type} (f : Sim -> result A * Sim) (s : Flaky)
  : result A * Flaky :=
  let '(r, p) := f (flaky_page s) in
  (r, {| flaky_page := p; flaky_click := flaky_click s;
         flaky_wait := flaky_wait s; flaky_session := flaky_session s;
         flaky_write := flaky_write s |}).

Definition or_raise {A : Type} (failure : option exn)
  (f : Flaky -> result A * Flaky) (s : Flaky) : result A * Flaky :=
  match failure with
  | Some e => (Raise e, s)
  | None => f s
  end.

#[global] Instance flaky_browser : Browser Flaky := {|
  wait_until m l t s := or_raise (flaky_wait s) (on_page (wait_until m l t)) s;
  wait_ready_state t s := on_page (wait_ready_state t) s;
  driver_find_elements l s := on_page (driver_find_elements l) s;
  element_click el s := or_raise (flaky_click s) (on_page (element_click el)) s;
  script_click el s := on_page (script_click el) s;
  element_clear el s := on_page (element_clear el) s;
  element_send_keys el text s := on_page (element_send_keys el text) s;
  element_text el s := on_page (element_text el) s;
  element_get_attribute el a s := on_page (element_get_attribute el a) s;
  element_is_displayed el s := on_page (element_is_displayed el) s;
  driver_current_url s := on_page driver_current_url s;
  time_sleep t s := snd (on_page (fun p => (Ok tt, time_sleep t p)) s);
  unix_time s := unix_time (flaky_page s);
  env_headless s := env_headless (flaky_page s);
  new_session s := or_raise (flaky_session s) (on_page new_session) s;
  driver_implicitly_wait d t s := on_page (driver_implicitly_wait d t) s;
  driver_maximize_window d s := on_page (driver_maximize_window d) s;
  driver_save_screenshot d f s := on_page (driver_save_screenshot d f) s;
  driver_quit d s := on_page (driver_quit d) s;
  open_file f s := or_raise (flaky_write s) (on_page (open_file f)) s;
  file_write f line s := on_page (file_write f line) s;
  file_close f s := on_page (file_close f) s
|}.

Definition not_interactable_exn : exn :=
  Exn ElementNotInteractableException "Message: element not interactable".
Definition unreachable_exn : exn :=
  Exn WebDriverException "Message: chrome not reachable".
Definition permission_exn : exn :=
  Exn OSError "[Errno 13] Permission denied: 'reports/test_summary.txt'".

(** [p], with every element covered by an overlay: native clicks raise *)
Definition covered (p : Sim) : Flaky :=
  {| flaky_page := p; flaky_click := Some not_interactable_exn; flaky_wait := None;
     flaky_session := None; flaky_write := None |}.

(** [p], behind a browser that has lost its connection: waits raise *)
Definition unreachable (p : Sim) : Flaky :=
  {| flaky_page := p; flaky_click := None; flaky_wait := Some unreachable_exn;
     flaky_session := None; flaky_write := None |}.


(** [p], on a machine where no file can be opened for writing *)
Definition write_protected (p : Sim) : Flaky :=
  {| flaky_page := p; flaky_click := None; flaky_wait := None;
     flaky_session := None; flaky_write := Some permission_exn |}.

(** a text that starts, or ends, with a whitespace character *)
Definition starts_with_space (s : string) : bool :=
  match s with
  | String c _ => is_space c
  | EmptyString => false
  end.

Fixpoint ends_with_space (s : string) : bool :=
  match s with
  | EmptyString => false
  | String c EmptyString => is_space c
  | String _ r => ends_with_space r
  end.

(** A text is trimmed when stripping it changes nothing and it has no
    whitespace at either end. *)
Definition trimmed (s : string) : Prop :=
  strip s = s /\ starts_with_space s = false /\ ends_with_space s = false.

(** A read gives the text or nothing when, whatever the browser does, it
    returns a trimmed text and raises nothing, and returns the empty text
    when its wait for a visible element under [l] raises. *)
Definition reads_text_or_empty {W : Type} `{Browser W} (l : locator) (timeout : Z)
  (read : M W string) : Prop :=
  forall w : W,
    (exists text, outcome (read w) = Ok text /\ trimmed text)
    /\ (forall e w1, wait_until Visibility l timeout w = (Raise e, w1) ->
          read w = (Ok "", w1, [EvWait Visibility l timeout])).

(** the providers [click_provider_login_button] knows *)
Definition known_providers : list string := ["google"; "facebook"; "apple"].

(** the locators the password reset page types into, and clicks *)
Definition reset_typed_locators : list locator :=
  [ResetPasswordPage.EMAIL_FIELD; ResetPasswordPage.EMAIL_FIELD_ALT;
   ResetPasswordPage.EMAIL_FIELD_TYPE].

Definition reset_clicked_locators : list locator :=
  [ResetPasswordPage.SUBMIT_BUTTON; ResetPasswordPage.SUBMIT_BUTTON_ALT;
   ResetPasswordPage.SUBMIT_BUTTON_TEXT].



(** the four counter lines of the summary for the metrics of [c] *)
Definition counter_lines (c : Context) : list message :=
  [MsgTotalTests (counter "total_tests" c); MsgPassed (counter "passed_tests" c);
   MsgFailed (counter "failed_tests" c); MsgSkipped (counter "skipped_tests" c)].

(** the pass rate line of the summary: there is one when a scenario was
    counted, and the quotient may be too large for a float *)
Definition pass_rate_lines (c : Context) : result (list message) :=
  if 0 <? counter "total_tests" c
  then match int_true_divide (counter "passed_tests" c) (counter "total_tests" c) with
       | Ok quotient => Ok [MsgPassRate (format_2f (times_100 quotient))]
       | Raise e => Raise e
       end
  else Ok [].

(** the summary as it is printed, given its pass rate line *)
Definition screen_summary (c : Context) (rate : list message) : list message :=
  [MsgSummaryTop; MsgSummaryHeading; MsgSummaryRule; MsgTotalDuration]
  ++ counter_lines c ++ rate ++ [MsgSummaryRule].

(** the first lines of the summary file *)
Definition file_head : list message :=
  [MsgFileTitle; MsgFileRule; MsgExecutionDate; MsgDuration].

(** the lines of the summary file, and the exception of the
    configuration manager that ends them early, if any *)
Definition file_summary (c : Context) (rate : list message)
  : list message * option exn :=
  match config_manager c with
  | None => (file_head ++ counter_lines c ++ rate, None)
  | Some cfg =>
      match get_browser cfg with
      | Raise e => (file_head, Some e)
      | Ok browser =>
          match get_base_url cfg with
          | Raise e => (file_head ++ [MsgBrowser browser], Some e)
          | Ok base_url =>
              (file_head ++ [MsgBrowser browser; MsgBaseUrl base_url]
               ++ counter_lines c ++ rate, None)
          end
      end
  end.

(** a hook leaves the context as it finds it *)
Definition keeps_context {W A : Type} (hook : M (Context * W) A) : Prop :=
  forall c w, fst (final (hook (c, w))) = c.

(** a configuration whose file has a [browser] dictionary without a
    name: [get_browser] takes the dictionary for the name *)
Definition config_with_browser_options : Config :=
  {| get_explicit_wait := 20; get_implicit_wait := 10; get_error_timeout := 3;
     get_browser := Raise (Exn AttributeError
                             "'dict' object has no attribute 'lower'");
     get_base_url := Ok "https://www.hudl.com" |}.

(** a manager that holds a session, on a machine where closing fails *)
Definition manager_with_session : DriverManager :=
  {| dm_config := None; dm_driver := Some 1%nat |}.

(** An integer setting is read rightly when the text of its environment
    variable, if there is one, is converted by [int]; otherwise the value
    stored in the file under its path is converted, and the default is
    the answer when the path does not lead to a value. *)
Definition reads_integer_setting (environ : gmap string string)
  (self : ConfigPy.Config) (variable : string) (path : list string)
  (default : Z) (answer : ConfigPy.res Z) : Prop :=
  match environ !! variable with
  | Some text =>
      answer = match int_of_str text with
               | Some n => ConfigPy.Val n
               | None => ConfigPy.Err ConfigPy.ValueError
               end
  | None =>
      match ConfigPy.walk (ConfigPy.config_data self) path with
      | ConfigPy.Val v => answer = ConfigPy.py_int v
      | ConfigPy.Err _ => answer = ConfigPy.Val default
      end
  end.

(** a configuration file that sets the browser options but not its name,
    one that stores nothing for the error timeout, and one that turns
    the screenshots on with a YAML boolean *)
Definition file_with_browser_options : ConfigPy.Config :=
  {| ConfigPy.config_data :=
       ConfigPy.VDict
         [("browser", ConfigPy.VDict [("headless", ConfigPy.VBool true)])] |}.

Definition file_with_null_timeout : ConfigPy.Config :=
  {| ConfigPy.config_data :=
       ConfigPy.VDict
         [("timeouts", ConfigPy.VDict [("error_detection", ConfigPy.VNone)])] |}.

Definition file_with_boolean_screenshots : ConfigPy.Config :=
  {| ConfigPy.config_data :=
       ConfigPy.VDict
         [("reporting",
           ConfigPy.VDict [("screenshot_on_failure", ConfigPy.VBool true)])] |}.

Definition file_with_chrome : ConfigPy.Config :=
  {| ConfigPy.config_data :=
       ConfigPy.VDict [("browser", ConfigPy.VDict [("name", ConfigPy.VStr "Chrome")])] |}.

(* ===================================================================== *)
(** ** Running computations *)
(* ===================================================================== *)

Section Running.
Context {W : Type}.

Lemma bind_ok {A B} (c : M W A) (k : A -> M W B) w a w1 o1 r w2 o2 :
  c w = (Ok a, w1, o1) -> k a w1 = (r, w2, o2) ->
  (c ≫= k) w = (r, w2, o1 ++ o2).
Proof.
  intros Hc Hk. unfold mbind, M_bind, bind. rewrite Hc, Hk. reflexivity.
Qed.

Lemma bind_raise {A B} (c : M W A) (k : A -> M W B) w e w1 o1 :
  c w = (Raise e, w1, o1) -> (c ≫= k) w = (Raise e, w1, o1).
Proof.
  intros Hc. unfold mbind, M_bind, bind. rewrite Hc. reflexivity.
Qed.

Lemma try_ok {A} (c : M W A) handler w a w1 o1 :
  c w = (Ok a, w1, o1) -> try_except c handler w = (Ok a, w1, o1).
Proof. intros Hc. unfold try_except. rewrite Hc. reflexivity. Qed.

Lemma try_caught {A} (c : M W A) handler k w e w1 o1 r w2 o2 :
  c w = (Raise e, w1, o1) -> handler e = Some k -> k w1 = (r, w2, o2) ->
  try_except c handler w = (r, w2, o1 ++ o2).
Proof.
  intros Hc Hh Hk. unfold try_except. rewrite Hc, Hh, Hk. reflexivity.
Qed.

Lemma try_uncaught {A} (c : M W A) handler w e w1 o1 :
  c w = (Raise e, w1, o1) -> handler e = None ->
  try_except c handler w = (Raise e, w1, o1).
Proof. intros Hc Hh. unfold try_except. rewrite Hc, Hh. reflexivity. Qed.

Lemma ret_run {A} (a : A) (w : W) : (mret a : M W A) w = (Ok a, w, []).
Proof. reflexivity. Qed.

Lemma print_run (m : message) (w : W) : print m w = (Ok tt, w, [EvPrint m]).
Proof. reflexivity. Qed.

End Running.

(* ===================================================================== *)
(** ** The fallback chain *)
(* ===================================================================== *)

Section Fallback.
Context {W : Type} `{Browser W}.

Lemma find_element_events self l timeout (w : W) r w1 o :
  find_element self l timeout w = (r, w1, o) ->
  o = [EvWait Presence l (wait_timeout self timeout)].
Proof.
  unfold find_element, until, call. destruct (wait_until _ _ _ w).
  intros [= _ _ <-]. reflexivity.
Qed.

Lemma fallback_after_failures self pre rest timeout (w : W) fs w1 :
  attempts_fail (fun l => find_element self l (Some timeout)) pre w fs w1 ->
  forall r w2 o,
    find_element_with_fallback self rest timeout w1 = (r, w2, o) ->
    find_element_with_fallback self (pre ++ rest) timeout w
    = (r, w2, waits self timeout pre ++ o).
Proof.
  induction 1 as [w | l ls w e o1 w1 fs w' Hl _ IH]; intros r w2 o Hrest.
  - exact Hrest.
  - cbn [app find_element_with_fallback].
    pose proof (find_element_events _ _ _ _ _ _ _ Hl) as ->.
    rewrite (try_caught _ _ _ _ _ _ _ _ _ _
               (bind_raise _ _ _ _ _ _ Hl) eq_refl (IH _ _ _ Hrest)).
    reflexivity.
Qed.

Lemma try_locators_after_failures self pre rest (action : locator -> M W unit)
  field_name w fs w1 :
  attempts_fail action pre w fs w1 ->
  forall r w2 o,
    _try_locators_with_action self rest action field_name w1 = (r, w2, o) ->
    _try_locators_with_action self (pre ++ rest) action field_name w
    = (r, w2, failure_log field_name pre fs ++ o).
Proof.
  induction 1 as [w | l ls w e o1 w1 fs w' Hl _ IH]; intros r w2 o Hrest.
  - exact Hrest.
  - cbn [app _try_locators_with_action failure_log].
    rewrite (try_caught _ _ _ _ _ _ _ _ _ _
               (bind_raise _ _ _ _ _ _ Hl) eq_refl
               (bind_ok _ _ _ _ _ _ _ _ _ (print_run _ _) (IH _ _ _ Hrest))).
    rewrite <- app_assoc. reflexivity.
Qed.

(** C1, as the code has it.  When the strategies before some position of
    a locator list all fail to resolve and the strategy at that position
    resolves an element, [find_element_with_fallback] returns that
    element.  [_try_locators_with_action] succeeds with the first
    strategy whose action returns, the resolution and what is then done
    to the element taken together: an attempt that raises, before or
    after it has resolved an element, is passed over.  In both, the world
    and the events are those of the attempts up to the one that goes
    through: the strategies after it are not tried. *)
Theorem fallback_uses_first_resolving_strategy
  (self : BasePage) (pre post : list locator) (l : locator) (timeout : Z)
  (action : locator -> M W unit) (field_name : string)
  (w w1 w2 w1' w2' : W) (fs fs' : list (exn * list event))
  (el : element) (o o' : list event) :
  attempts_fail (fun l0 => find_element self l0 (Some timeout)) pre w fs w1 ->
  find_element self l (Some timeout) w1 = (Ok el, w2, o) ->
  attempts_fail action pre w fs' w1' ->
  action l w1' = (Ok tt, w2', o') ->
  find_element_with_fallback self (pre ++ l :: post) timeout w
  = (Ok (Some el), w2, waits self timeout (pre ++ [l]))
  /\ _try_locators_with_action self (pre ++ l :: post) action field_name w
     = (Ok tt, w2', failure_log field_name pre fs' ++ o'
                    ++ [EvPrint (MsgActionOk field_name l)]).
Proof.
  intros Hpre Hl Hpre' Hl'. split.
  - unfold waits. rewrite map_app. fold (waits self timeout pre).
    apply (fallback_after_failures _ _ _ _ _ _ _ Hpre).
    cbn [find_element_with_fallback map].
    pose proof (find_element_events _ _ _ _ _ _ _ Hl) as ->.
    rewrite (try_ok _ _ _ _ _ _
               (bind_ok _ (fun el0 => mret (Some el0)) _ _ _ _ _ _ _ Hl eq_refl)).
    reflexivity.
  - apply (try_locators_after_failures _ _ _ _ _ _ _ _ Hpre').
    cbn [_try_locators_with_action].
    rewrite (try_ok _ _ _ _ _ _
               (bind_ok _ (fun _ => print (MsgActionOk field_name l))
                  _ _ _ _ _ _ _ Hl' eq_refl)).
    reflexivity.
Qed.

End Fallback.

Lemma fallback_uses_first_resolving_strategy_witness :
  find_element_with_fallback default_page
    ([EMAIL_FIELD] ++ EMAIL_FIELD_ALT :: [EMAIL_FIELD_TYPE]) 3 page_with_alt_email
  = (Ok (Some 7%nat), page_with_alt_email,
     [EvWait Presence EMAIL_FIELD 3; EvWait Presence EMAIL_FIELD_ALT 3])
  /\ _try_locators_with_action default_page
       ([EMAIL_FIELD] ++ EMAIL_FIELD_ALT :: [EMAIL_FIELD_TYPE])
       (enter_value default_page "user@example.com") "Email entry"
       page_with_alt_email
     = (Ok tt, page_with_alt_email,
        [EvWait Visibility EMAIL_FIELD 20;
         EvPrint (MsgActionFailed "Email entry" EMAIL_FIELD timeout_exn);
         EvWait Visibility EMAIL_FIELD_ALT 20;
         EvClear 7%nat; EvSendKeys 7%nat "user@example.com";
         EvPrint (MsgActionOk "Email entry" EMAIL_FIELD_ALT)]).
Proof.
  apply (fallback_uses_first_resolving_strategy default_page
           [EMAIL_FIELD] [EMAIL_FIELD_TYPE] EMAIL_FIELD_ALT 3
           (enter_value default_page "user@example.com") "Email entry"
           page_with_alt_email page_with_alt_email page_with_alt_email
           page_with_alt_email page_with_alt_email
           [(timeout_exn, [EvWait Presence EMAIL_FIELD 3])]
           [(timeout_exn, [EvWait Visibility EMAIL_FIELD 20])]
           7%nat
           [EvWait Presence EMAIL_FIELD_ALT 3]
           [EvWait Visibility EMAIL_FIELD_ALT 20;
            EvClear 7%nat; EvSendKeys 7%nat "user@example.com"]).
  - apply attempts_fail_cons with (w1 := page_with_alt_email);
      [reflexivity | apply attempts_fail_nil].
  - reflexivity.
  - apply attempts_fail_cons with (w1 := page_with_alt_email);
      [reflexivity | apply attempts_fail_nil].
  - reflexivity.
Defined.

(** C1 as stated does not hold of [_try_locators_with_action]: resolving
    an element does not settle the matter.  On a login page whose
    continue button is detached, the first strategy does not resolve and
    the second resolves the button, but the three clicks on it fail, so
    the action raises: the chain goes on to the third strategy and, as
    that one does not resolve, raises in the end. *)
Lemma resolved_strategy_is_passed_over_when_its_action_raises :
  let page := page_with_stale_button 3 in
  let click := fun l => click_element default_page l None in
  attempts_fail (fun l => find_clickable_element default_page l None)
    [EMAIL_FIELD] page [(timeout_exn, [EvWait Clickability EMAIL_FIELD 20])] page
  /\ find_clickable_element default_page CONTINUE_BUTTON None page
     = (Ok 4%nat, page, [EvWait Clickability CONTINUE_BUTTON 20])
  /\ _try_locators_with_action default_page
       ([EMAIL_FIELD] ++ CONTINUE_BUTTON :: [CONTINUE_BUTTON_ALT]) click
       "Continue button click" page
     = (Raise (Exn PlainException (could_not_find_message "Continue button click")),
        page_with_stale_button 0,
        [EvWait Clickability EMAIL_FIELD 20;
         EvPrint (MsgActionFailed "Continue button click" EMAIL_FIELD timeout_exn);
         EvWait Clickability CONTINUE_BUTTON 20;
         EvClick 4%nat; EvSleep 500; EvClick 4%nat; EvSleep 500; EvClick 4%nat;
         EvPrint (MsgActionFailed "Continue button click" CONTINUE_BUTTON stale_exn);
         EvWait Clickability CONTINUE_BUTTON_ALT 20;
         EvPrint (MsgActionFailed "Continue button click" CONTINUE_BUTTON_ALT
                    timeout_exn)])
  /\ ~ succeeds_without_trying [CONTINUE_BUTTON_ALT]
         (_try_locators_with_action default_page
            ([EMAIL_FIELD] ++ CONTINUE_BUTTON :: [CONTINUE_BUTTON_ALT]) click
            "Continue button click" page).
Proof.
  cbv zeta. split; [| split; [| split]].
  - apply attempts_fail_cons with (w1 := page_with_stale_button 3);
      [reflexivity | apply attempts_fail_nil].
  - reflexivity.
  - reflexivity.
  - intros [[a Hok] _]. vm_compute in Hok. discriminate Hok.
Qed.

(* ===================================================================== *)
(** ** Exhausted fallback chains *)
(* ===================================================================== *)

Section Exhaustion.
Context {W : Type} `{Browser W}.

(** C2, as the code has it.  When no strategy of a locator list
    resolves, every strategy is attempted once, in order, and then
    [find_element_with_fallback] returns [None] without raising, while
    [_try_locators_with_action] raises a plain [Exception] whose message
    is built from the field name alone: neither outcome carries the
    attempted strategies or their failures. *)
Theorem exhausted_fallback_outcome
  (self : BasePage) (locators : list locator) (timeout : Z)
  (action : locator -> M W unit) (field_name : string)
  (w w1 w1' : W) (fs fs' : list (exn * list event)) :
  attempts_fail (fun l => find_element self l (Some timeout)) locators w fs w1 ->
  attempts_fail action locators w fs' w1' ->
  find_element_with_fallback self locators timeout w
  = (Ok None, w1, waits self timeout locators)
  /\ _try_locators_with_action self locators action field_name w
     = (Raise (Exn PlainException (could_not_find_message field_name)), w1',
        failure_log field_name locators fs').
Proof.
  intros Hfind Haction. split.
  - pose proof (fallback_after_failures self locators [] timeout w fs w1 Hfind
                  (Ok None) w1 [] eq_refl) as Hrun.
    rewrite !app_nil_r in Hrun. exact Hrun.
  - pose proof (try_locators_after_failures self locators [] action field_name
                  w fs' w1' Haction _ w1' [] eq_refl) as Hrun.
    rewrite !app_nil_r in Hrun. exact Hrun.
Qed.

End Exhaustion.

Lemma exhausted_fallback_outcome_witness :
  find_element_with_fallback default_page [EMAIL_FIELD; EMAIL_FIELD_TYPE] 3
    page_with_alt_email
  = (Ok None, page_with_alt_email,
     [EvWait Presence EMAIL_FIELD 3; EvWait Presence EMAIL_FIELD_TYPE 3])
  /\ _try_locators_with_action default_page [EMAIL_FIELD; EMAIL_FIELD_TYPE]
       (enter_value default_page "user@example.com") "Email entry"
       page_with_alt_email
     = (Raise (Exn PlainException
                 "Could not find Email entry with any of the available locators"),
        page_with_alt_email,
        [EvWait Visibility EMAIL_FIELD 20;
         EvPrint (MsgActionFailed "Email entry" EMAIL_FIELD timeout_exn);
         EvWait Visibility EMAIL_FIELD_TYPE 20;
         EvPrint (MsgActionFailed "Email entry" EMAIL_FIELD_TYPE timeout_exn)]).
Proof.
  apply (exhausted_fallback_outcome default_page [EMAIL_FIELD; EMAIL_FIELD_TYPE] 3
           (enter_value default_page "user@example.com") "Email entry"
           page_with_alt_email page_with_alt_email page_with_alt_email
           [(timeout_exn, [EvWait Presence EMAIL_FIELD 3]);
            (timeout_exn, [EvWait Presence EMAIL_FIELD_TYPE 3])]
           [(timeout_exn, [EvWait Visibility EMAIL_FIELD 20]);
            (timeout_exn, [EvWait Visibility EMAIL_FIELD_TYPE 20])]).
  - repeat (eapply attempts_fail_cons with (w1 := page_with_alt_email);
            [reflexivity |]). apply attempts_fail_nil.
  - repeat (eapply attempts_fail_cons with (w1 := page_with_alt_email);
            [reflexivity |]). apply attempts_fail_nil.
Defined.

(** C2 as stated does not hold: on a page where neither strategy of the
    list resolves, [find_element_with_fallback] does not fail at all, and
    the error of [_try_locators_with_action] does not hold the attempted
    strategies. *)
Lemma exhausted_fallback_carries_no_attempts :
  let locators := [EMAIL_FIELD; EMAIL_FIELD_TYPE] in
  let fs := [(timeout_exn, [EvWait Presence EMAIL_FIELD 3]);
             (timeout_exn, [EvWait Presence EMAIL_FIELD_TYPE 3])] in
  let fs' := [(timeout_exn, [EvWait Visibility EMAIL_FIELD 20]);
              (timeout_exn, [EvWait Visibility EMAIL_FIELD_TYPE 20])] in
  attempts_fail (fun l => find_element default_page l (Some 3)) locators
    page_with_alt_email fs page_with_alt_email
  /\ attempts_fail (enter_value default_page "user@example.com") locators
       page_with_alt_email fs' page_with_alt_email
  /\ ~ fails_carrying_attempts
         (outcome (find_element_with_fallback default_page locators 3
                     page_with_alt_email)) locators fs
  /\ ~ fails_carrying_attempts
         (outcome (_try_locators_with_action default_page locators
                     (enter_value default_page "user@example.com") "Email entry"
                     page_with_alt_email)) locators fs'.
Proof.
  cbv zeta. repeat split.
  - repeat (eapply attempts_fail_cons with (w1 := page_with_alt_email);
            [reflexivity |]). apply attempts_fail_nil.
  - repeat (eapply attempts_fail_cons with (w1 := page_with_alt_email);
            [reflexivity |]). apply attempts_fail_nil.
  - intros (e & Hraise & _). vm_compute in Hraise. discriminate Hraise.
  - intros (e & Hraise & Hcarries & _). vm_compute in Hraise.
    injection Hraise as <-.
    specialize (Hcarries EMAIL_FIELD (or_introl eq_refl)).
    vm_compute in Hcarries. discriminate Hcarries.
Qed.

(* ===================================================================== *)
(** ** Click with retry *)
(* ===================================================================== *)

Section ClickRetry.
Context {W : Type} `{Browser W}.

Lemma click_attempts_after_stale el max n (w w1 : W) :
  stale_clicks el n w w1 ->
  forall k rest r w2 o,
    Z.of_nat (k + n) <= max - 1 ->
    _click_attempts el max rest w1 = (r, w2, o) ->
    _click_attempts el max (map Z.of_nat (seq k n) ++ rest) w
    = (r, w2, stale_events el n ++ o).
Proof.
  induction 1 as [w | n w e w1 w' Hclick Hstale _ IH];
    intros k rest r w2 o Hk Hrest.
  - exact Hrest.
  - cbn [seq map app _click_attempts stale_events].
    unfold try_except, call. rewrite Hclick, Hstale.
    destruct (Z.eqb_spec (Z.of_nat k) (max - 1)) as [Heq | _]; [lia |].
    unfold mbind, M_bind, bind, sleep.
    rewrite (IH (S k) rest r w2 o); [reflexivity | lia | exact Hrest].
Qed.

Lemma range_split (max : Z) (n : nat) :
  Z.of_nat n < max ->
  range max = map Z.of_nat (seq 0 n) ++ Z.of_nat n
              :: map Z.of_nat (seq (S n) (Z.to_nat max - S n)).
Proof.
  intros Hn. unfold range.
  replace (Z.to_nat max) with (n + S (Z.to_nat max - S n))%nat by lia.
  rewrite seq_app, map_app. cbn [seq map Nat.add].
  replace (n + S (Z.to_nat max - S n) - S n)%nat with (Z.to_nat max - S n)%nat by lia.
  reflexivity.
Qed.

(** the retry loop alone, for any number of attempts *)
Lemma click_with_retry_stale self el max n (w w1 : W) :
  stale_clicks el n w w1 ->
  (Z.of_nat n < max ->
   forall w2, element_click el w1 = (Ok tt, w2) ->
     _click_with_retry self el max w = (Ok tt, w2, retry_events el n))
  /\ (Z.of_nat n = max - 1 ->
      forall e w2, element_click el w1 = (Raise e, w2) ->
        is_class StaleElementReferenceException e = true ->
        _click_with_retry self el max w = (Raise e, w2, retry_events el n)).
Proof.
  intros Hstale. unfold _click_with_retry, retry_events. split.
  - intros Hn w2 Hclick. rewrite (range_split max n Hn).
    apply (click_attempts_after_stale _ _ _ _ _ Hstale); [lia |].
    cbn [_click_attempts]. unfold try_except, call. rewrite Hclick. reflexivity.
  - intros Hn e w2 Hclick He. rewrite (range_split max n) by lia.
    apply (click_attempts_after_stale _ _ _ _ _ Hstale); [lia |].
    cbn [_click_attempts]. unfold try_except, call. rewrite Hclick, He.
    rewrite (proj2 (Z.eqb_eq _ _) Hn). reflexivity.
Qed.

(** C3, as the code has it.  [click_element] resolves the element once.
    If the click then raises a stale-reference failure on [n] attempts
    in a row, with [n] below the three attempts allowed, and succeeds on
    the next, the operation succeeds; if it raises that failure on all
    three attempts, the third failure propagates.  Every attempt clicks
    the handle resolved at the start: a retry pauses and clicks again,
    it does not resolve the element again. *)
Theorem click_retries_on_the_resolved_element
  (self : BasePage) (l : locator) (timeout : option Z) (el : element)
  (n : nat) (w0 w w1 : W) :
  wait_until Clickability l (wait_timeout self timeout) w0 = (Ok el, w) ->
  stale_clicks el n w w1 ->
  ((n < 3)%nat ->
   forall w2, element_click el w1 = (Ok tt, w2) ->
     click_element self l timeout w0
     = (Ok tt, w2,
        EvWait Clickability l (wait_timeout self timeout) :: retry_events el n))
  /\ (n = 2%nat ->
      forall e w2, element_click el w1 = (Raise e, w2) ->
        is_class StaleElementReferenceException e = true ->
        click_element self l timeout w0
        = (Raise e, w2,
           EvWait Clickability l (wait_timeout self timeout) :: retry_events el n)).
Proof.
  intros Hfind Hstale.
  destruct (click_with_retry_stale self el 3 n w w1 Hstale) as [Hok Hfail].
  assert (Hresolve : find_clickable_element self l timeout w0
                     = (Ok el, w, [EvWait Clickability l (wait_timeout self timeout)])).
  { unfold find_clickable_element, until, call. rewrite Hfind. reflexivity. }
  split.
  - intros Hn w2 Hclick. unfold click_element.
    rewrite (bind_ok _ _ _ _ _ _ _ _ _ Hresolve (Hok ltac:(lia) w2 Hclick)).
    reflexivity.
  - intros Hn e w2 Hclick He. unfold click_element.
    rewrite (bind_ok _ _ _ _ _ _ _ _ _ Hresolve (Hfail ltac:(lia) e w2 Hclick He)).
    reflexivity.
Qed.

End ClickRetry.

Lemma click_retries_on_the_resolved_element_witness :
  click_element default_page CONTINUE_BUTTON None (page_with_stale_button 2)
  = (Ok tt, page_with_stale_button 0,
     [EvWait Clickability CONTINUE_BUTTON 20;
      EvClick 4%nat; EvSleep 500; EvClick 4%nat; EvSleep 500; EvClick 4%nat]).
Proof.
  refine (proj1 (click_retries_on_the_resolved_element default_page CONTINUE_BUTTON
                   None 4%nat 2 (page_with_stale_button 2) (page_with_stale_button 2)
                   (page_with_stale_button 0) _ _) _ (page_with_stale_button 0) _).
  - reflexivity.
  - apply stale_clicks_S with (e := stale_exn) (w1 := page_with_stale_button 1);
      [reflexivity | reflexivity |].
    apply stale_clicks_S with (e := stale_exn) (w1 := page_with_stale_button 0);
      [reflexivity | reflexivity |].
    apply stale_clicks_O.
  - lia.
  - reflexivity.
Defined.

(** C3 as stated does not hold: when the first click meets a detached
    element, the retry clicks the same handle again with no resolution in
    between. *)
Lemma click_retry_does_not_re_resolve :
  events (click_element default_page CONTINUE_BUTTON None (page_with_stale_button 1))
  = [EvWait Clickability CONTINUE_BUTTON 20; EvClick 4%nat; EvSleep 500; EvClick 4%nat]
  /\ re_resolves_before_retry false
       (events (click_element default_page CONTINUE_BUTTON None
                  (page_with_stale_button 1)))
     = false.
Proof. split; reflexivity. Qed.

(* ===================================================================== *)
(** ** Reads and boolean checks *)
(* ===================================================================== *)

Section Reads.
Context {W : Type} `{Browser W}.

(** C9.  When the element resolves and the attribute is absent,
    [get_element_attribute] returns the empty string; when the wait of
    [get_element_text] for a visible element raises (in particular when
    it times out), [get_element_text] raises that exception and reads no
    text. *)
Theorem attribute_read_defaults_and_text_read_raises
  (self : BasePage) (l l' : locator) (attribute : string)
  (timeout timeout' : option Z) (el : element) (e : exn) (w w1 w2 w' w1' : W) :
  wait_until Presence l (wait_timeout self timeout) w = (Ok el, w1) ->
  element_get_attribute el attribute w1 = (Ok None, w2) ->
  wait_until Visibility l' (wait_timeout self timeout') w' = (Raise e, w1') ->
  is_class TimeoutException e = true ->
  get_element_attribute self l attribute timeout w
  = (Ok "", w2, [EvWait Presence l (wait_timeout self timeout);
                 EvGetAttribute el attribute])
  /\ get_element_text self l' timeout' w'
     = (Raise e, w1', [EvWait Visibility l' (wait_timeout self timeout')]).
Proof.
  intros Hfind Hattr Hvisible _. split.
  - unfold get_element_attribute, find_element, until, call,
      mbind, M_bind, bind.
    rewrite Hfind, Hattr. reflexivity.
  - unfold get_element_text, find_visible_element, until, call,
      mbind, M_bind, bind.
    rewrite Hvisible. reflexivity.
Qed.

Lemma try_wait_absorbs_timeouts (m : wait_mode) (l : locator) (timeout : Z) :
  absorbs_timeouts m l timeout
    (try_except (until m l timeout ;; mret true)
       (only TimeoutException (fun _ => mret false))).
Proof.
  intros w.
  unfold try_except, only, until, call, mbind, M_bind, bind, outcome.
  split; [| split; [| split]].
  - intros el w1 Hwait. rewrite Hwait. reflexivity.
  - intros e w1 Hwait He. rewrite Hwait, He. reflexivity.
  - intros e. destruct (wait_until m l timeout w) as [[el | e0] w1].
    + cbn. discriminate.
    + destruct (is_class TimeoutException e0) eqn:He0; cbn.
      * discriminate.
      * intros [= <-]. exact He0.
  - intros e w1 Hwait He. rewrite Hwait, He. reflexivity.
Qed.

(** C10, as the code has it.  [is_element_present], [is_element_visible]
    and [is_element_clickable] return [True] when their wait succeeds and
    [False] when it raises a timeout, and whatever the browser does none
    of them lets a timeout escape; any other exception of the wait leaves
    the check as it was raised. *)
Theorem boolean_checks_absorb_timeouts
  (self : BasePage) (l : locator) (timeout : Z) :
  absorbs_timeouts Presence l timeout (is_element_present self l timeout)
  /\ absorbs_timeouts Visibility l timeout (is_element_visible self l timeout)
  /\ absorbs_timeouts Clickability l timeout (is_element_clickable self l timeout).
Proof.
  split; [| split]; apply try_wait_absorbs_timeouts.
Qed.

End Reads.

Lemma attribute_read_defaults_and_text_read_raises_witness :
  get_element_attribute default_page EMAIL_FIELD "validationMessage" (Some 1)
    page_without_errors
  = (Ok "", page_without_errors,
     [EvWait Presence EMAIL_FIELD 1; EvGetAttribute 7%nat "validationMessage"])
  /\ get_element_text default_page EMAIL_ERROR None page_without_errors
     = (Raise timeout_exn, page_without_errors, [EvWait Visibility EMAIL_ERROR 20]).
Proof.
  apply (attribute_read_defaults_and_text_read_raises default_page
           EMAIL_FIELD EMAIL_ERROR "validationMessage" (Some 1) None 7%nat
           timeout_exn page_without_errors page_without_errors page_without_errors
           page_without_errors page_without_errors);
    reflexivity.
Defined.

Lemma boolean_checks_absorb_timeouts_witness :
  is_element_present default_page EMAIL_FIELD 5 page_without_errors
  = (Ok true, page_without_errors, [EvWait Presence EMAIL_FIELD 5])
  /\ is_element_visible default_page EMAIL_ERROR 5 page_without_errors
     = (Ok false, page_without_errors, [EvWait Visibility EMAIL_ERROR 5]).
Proof.
  split.
  - apply (proj1 (proj1 (boolean_checks_absorb_timeouts default_page EMAIL_FIELD 5)
                    page_without_errors) 7%nat page_without_errors).
    reflexivity.
  - apply (proj1 (proj2 (proj1 (proj2 (boolean_checks_absorb_timeouts default_page
                                         EMAIL_ERROR 5))
                           page_without_errors))
             timeout_exn page_without_errors); reflexivity.
Defined.

(** C10 as stated does not hold: the checks are not total.  Behind a
    browser that has lost its connection the wait raises a
    [WebDriverException], which is no timeout, and each of the three
    checks raises it. *)
Lemma boolean_checks_raise_when_the_browser_is_unreachable :
  let w := unreachable page_without_errors in
  is_element_present default_page EMAIL_FIELD 5 w
  = (Raise unreachable_exn, w, [EvWait Presence EMAIL_FIELD 5])
  /\ is_element_visible default_page EMAIL_FIELD 5 w
     = (Raise unreachable_exn, w, [EvWait Visibility EMAIL_FIELD 5])
  /\ is_element_clickable default_page EMAIL_FIELD 5 w
     = (Raise unreachable_exn, w, [EvWait Clickability EMAIL_FIELD 5])
  /\ ~ total_check (is_element_present (W := Flaky) default_page EMAIL_FIELD 5)
  /\ ~ total_check (is_element_visible (W := Flaky) default_page EMAIL_FIELD 5)
  /\ ~ total_check (is_element_clickable (W := Flaky) default_page EMAIL_FIELD 5).
Proof.
  cbv zeta. repeat split; try reflexivity.
  all: intros Htotal;
    destruct (Htotal (unreachable page_without_errors)) as [b Hb];
    vm_compute in Hb; discriminate Hb.
Qed.

(* ===================================================================== *)
(** ** Facts on strings and on [urlparse] *)
(* ===================================================================== *)

Lemma append_nil_l (b : string) : "" +:+ b = b.
Proof. reflexivity. Qed.

Lemma append_cons (x : ascii) (a b : string) : String x a +:+ b = String x (a +:+ b).
Proof. reflexivity. Qed.

Lemma append_assoc (a b c : string) : (a +:+ b) +:+ c = a +:+ (b +:+ c).
Proof.
  induction a as [| x a IH]; [reflexivity |].
  rewrite !append_cons, IH. reflexivity.
Qed.

Lemma append_nil_r (a : string) : a +:+ "" = a.
Proof.
  induction a as [| x a IH]; [reflexivity |].
  rewrite append_cons, IH. reflexivity.
Qed.

Lemma prefix_append (x b : string) : String.prefix x (x +:+ b) = true.
Proof.
  induction x as [| c x IH].
  - rewrite append_nil_l. now destruct b.
  - rewrite append_cons. cbn [String.prefix].
    destruct (ascii_dec c c) as [_ | Hne]; [exact IH | now destruct Hne].
Qed.

Lemma prefix_inv (x h : string) :
  String.prefix x h = true -> exists b, h = x +:+ b.
Proof.
  revert h. induction x as [| c x IH]; intros h Hp.
  - exists h. reflexivity.
  - destruct h as [| d h]; cbn in Hp; [discriminate |].
    destruct (ascii_dec c d) as [-> | _]; [| discriminate].
    destruct (IH h Hp) as [b ->]. exists b. reflexivity.
Qed.

(** [str_in] is the substring test *)
Lemma str_in_intro (a x b : string) : str_in x (a +:+ x +:+ b) = true.
Proof.
  induction a as [| c a IH].
  - rewrite append_nil_l. destruct (x +:+ b) eqn:Hxb; cbn [str_in];
      rewrite <- Hxb, prefix_append; reflexivity.
  - rewrite append_cons. cbn [str_in]. rewrite IH.
    now destruct (String.prefix _ _).
Qed.

Lemma str_in_inv (x h : string) :
  str_in x h = true -> exists a b, h = a +:+ x +:+ b.
Proof.
  induction h as [| c h IH]; cbn [str_in].
  - destruct (String.prefix x "") eqn:Hp; [| discriminate].
    intros _. destruct (prefix_inv _ _ Hp) as [b ->]. now exists "", b.
  - destruct (String.prefix x (String c h)) eqn:Hp.
    + intros _. destruct (prefix_inv _ _ Hp) as [b ->]. now exists "", b.
    + intros Hin. destruct (IH Hin) as (a & b & ->). now exists (String c a), b.
Qed.

Lemma str_in_empty (h : string) : str_in "" h = true.
Proof. now destruct h. Qed.

Lemma str_in_refl (x : string) : str_in x x = true.
Proof.
  pose proof (str_in_intro "" x "") as Hin.
  now rewrite append_nil_l, append_nil_r in Hin.
Qed.

(** both messages hold the two values they report *)
Lemma redirect_url_message_holds (path_fragment current_path current_url : string) :
  str_in path_fragment
    (redirect_url_message path_fragment current_path current_url) = true
  /\ str_in current_path
       (redirect_url_message path_fragment current_path current_url) = true.
Proof.
  unfold redirect_url_message. split.
  - change (String dquote path_fragment) with (String dquote "" +:+ path_fragment).
    rewrite (append_assoc (String dquote "")), <- (append_assoc _ (String dquote "")).
    apply str_in_intro.
  - change (String dquote path_fragment) with (String dquote "" +:+ path_fragment).
    change (String dquote ", but got path: ")
      with (String dquote "" +:+ ", but got path: ").
    rewrite !(append_assoc (String dquote "")).
    rewrite <- (append_assoc (String dquote "") ", but got path: ").
    rewrite <- (append_assoc path_fragment).
    rewrite <- (append_assoc (String dquote "")).
    rewrite <- (append_assoc "Expected URL path to contain ").
    apply str_in_intro.
Qed.

Lemma redirect_provider_message_holds (expected_domain current_domain current_url : string) :
  str_in expected_domain
    (redirect_provider_message expected_domain current_domain current_url) = true
  /\ str_in current_domain
       (redirect_provider_message expected_domain current_domain current_url) = true.
Proof.
  unfold redirect_provider_message. split.
  - change (String dquote expected_domain) with (String dquote "" +:+ expected_domain).
    rewrite (append_assoc (String dquote "")), <- (append_assoc _ (String dquote "")).
    apply str_in_intro.
  - change (String dquote expected_domain) with (String dquote "" +:+ expected_domain).
    change (String dquote ", but got domain: ")
      with (String dquote "" +:+ ", but got domain: ").
    rewrite !(append_assoc (String dquote "")).
    rewrite <- (append_assoc (String dquote "") ", but got domain: ").
    rewrite <- (append_assoc expected_domain).
    rewrite <- (append_assoc (String dquote "")).
    rewrite <- (append_assoc "Expected to be redirected to domain ").
    apply str_in_intro.
Qed.

Lemma all_chars_append (p : ascii -> bool) (a b : string) :
  all_chars p (a +:+ b) = all_chars p a && all_chars p b.
Proof.
  induction a as [| c a IH]; [reflexivity |].
  rewrite append_cons. cbn [all_chars]. rewrite IH. apply andb_assoc.
Qed.

Lemma all_chars_lstrip (q p : ascii -> bool) (a : string) :
  all_chars q a = true -> all_chars q (lstrip_with p a) = true.
Proof.
  induction a as [| c a IH]; [reflexivity |]. cbn [all_chars lstrip_with].
  intros [Hc Ha]%andb_prop. destruct (p c); [auto |].
  cbn [all_chars]. now rewrite Hc, Ha.
Qed.

Lemma all_chars_remove (q p : ascii -> bool) (a : string) :
  all_chars q a = true -> all_chars q (remove_chars p a) = true.
Proof.
  induction a as [| c a IH]; [reflexivity |]. cbn [all_chars remove_chars].
  intros [Hc Ha]%andb_prop. destruct (p c); [auto |].
  cbn [all_chars]. now rewrite Hc, IH.
Qed.

Lemma lstrip_with_append (p : ascii -> bool) (a : string) (c : ascii) (s : string) :
  p c = false -> lstrip_with p (a +:+ String c s) = lstrip_with p a +:+ String c s.
Proof.
  intros Hc. induction a as [| d a IH].
  - rewrite append_nil_l. cbn [lstrip_with]. now rewrite Hc.
  - rewrite append_cons. cbn [lstrip_with]. destruct (p d); [exact IH |].
    now rewrite append_cons.
Qed.

Lemma remove_chars_append (p : ascii -> bool) (a b : string) :
  remove_chars p (a +:+ b) = remove_chars p a +:+ remove_chars p b.
Proof.
  induction a as [| d a IH]; [reflexivity |].
  rewrite append_cons. cbn [remove_chars]. destruct (p d); [exact IH |].
  now rewrite append_cons, IH.
Qed.

Lemma split_first_append (c : ascii) (a b : string) :
  split_first c (a +:+ b)
  = match split_first c a with
    | Some (x, y) => Some (x, y +:+ b)
    | None => match split_first c b with
              | Some (x, y) => Some (a +:+ x, y)
              | None => None
              end
    end.
Proof.
  induction a as [| d a IH].
  - rewrite append_nil_l. cbn [split_first]. now destruct (split_first c b) as [[x y] |].
  - rewrite append_cons. cbn [split_first]. destruct (Ascii.eqb d c); [reflexivity |].
    rewrite IH. destruct (split_first c a) as [[x y] |]; [reflexivity |].
    now destruct (split_first c b) as [[x y] |].
Qed.

Lemma split_first_absent (q : ascii -> bool) (c : ascii) (a : string) :
  q c = false -> all_chars q a = true -> split_first c a = None.
Proof.
  intros Hc. induction a as [| d a IH]; [reflexivity |]. cbn [all_chars split_first].
  intros [Hd Ha]%andb_prop. destruct (Ascii.eqb_spec d c) as [-> | _]; [congruence |].
  now rewrite IH.
Qed.

Lemma split_first_all_chars (q : ascii -> bool) (c : ascii) (a x y : string) :
  split_first c a = Some (x, y) -> all_chars q a = true ->
  all_chars q x = true /\ all_chars q y = true.
Proof.
  revert x y. induction a as [| d a IH]; intros x y; [discriminate |].
  cbn [split_first all_chars]. intros Hsplit [Hd Ha]%andb_prop.
  destruct (Ascii.eqb d c).
  - injection Hsplit as <- <-. auto.
  - destruct (split_first c a) as [[x' y'] |]; [| discriminate].
    injection Hsplit as <- <-. destruct (IH _ _ eq_refl Ha) as [Hx Hy].
    cbn [all_chars]. now rewrite Hd, Hx.
Qed.

Lemma span_until_append (p : ascii -> bool) (a : string) (c : ascii) (s : string) :
  p c = true ->
  span_until p (a +:+ String c s)
  = (fst (span_until p a), snd (span_until p a) +:+ String c s).
Proof.
  intros Hc. induction a as [| d a IH].
  - rewrite append_nil_l. cbn [span_until]. now rewrite Hc.
  - rewrite append_cons. cbn [span_until]. destruct (p d); [reflexivity |].
    rewrite IH. now destruct (span_until p a).
Qed.

Lemma span_until_all_chars (q p : ascii -> bool) (a : string) :
  all_chars q a = true -> all_chars q (snd (span_until p a)) = true.
Proof.
  induction a as [| d a IH]; [reflexivity |]. cbn [span_until all_chars].
  intros Hda. destruct (p d); [exact Hda |].
  apply andb_prop in Hda as [_ Ha]. specialize (IH Ha).
  now destruct (span_until p a).
Qed.

Lemma span_until_absent (p : ascii -> bool) (a : string) :
  all_chars (fun c => negb (p c)) a = true -> span_until p a = (a, "").
Proof.
  induction a as [| d a IH]; [reflexivity |]. cbn [span_until all_chars].
  intros [Hd Ha]%andb_prop. apply negb_true_iff in Hd. rewrite Hd, (IH Ha).
  reflexivity.
Qed.

(** the steps of [urlparse] on a text followed by a query or a fragment *)
Lemma split_scheme_suffix (u : string) (c : ascii) (s : string) :
  no_query_or_fragment u = true -> char_in c "?#" = true ->
  split_scheme (u +:+ String c s)
  = (fst (split_scheme u), snd (split_scheme u) +:+ String c s)
  /\ no_query_or_fragment (snd (split_scheme u)) = true.
Proof.
  intros Hu Hc. unfold split_scheme. rewrite split_first_append.
  destruct (split_first ":" u) as [[pre rest] |] eqn:Hsplit.
  - destruct (split_first_all_chars _ _ _ _ _ Hsplit Hu) as [_ Hrest].
    destruct pre as [| d pre]; [now split |].
    destruct (is_alpha d && all_chars scheme_char (String d pre)); now split.
  - split; [| exact Hu].
    destruct (split_first ":" (String c s)) as [[x y] |] eqn:Hs; [| reflexivity].
    destruct (u +:+ x) as [| d pre] eqn:Hux; [reflexivity |].
    replace (is_alpha d && all_chars scheme_char (String d pre)) with false;
      [reflexivity |].
    symmetry. apply andb_false_intro2. rewrite <- Hux, all_chars_append.
    apply andb_false_intro2.
    cbn [split_first] in Hs. destruct (Ascii.eqb_spec c ":") as [-> | _];
      [discriminate Hc |].
    destruct (split_first ":" s) as [[x' y'] |]; [| discriminate].
    injection Hs as <- <-. cbn [all_chars]. apply andb_false_intro1.
    cbn in Hc. apply orb_prop in Hc as [Hc | Hc].
    + apply Ascii.eqb_eq in Hc as ->. reflexivity.
    + rewrite orb_false_r in Hc. apply Ascii.eqb_eq in Hc as ->. reflexivity.
Qed.

Lemma split_netloc_suffix (r : string) (c : ascii) (s : string) :
  no_query_or_fragment r = true -> char_in c "?#" = true ->
  split_netloc (r +:+ String c s)
  = (fst (split_netloc r), snd (split_netloc r) +:+ String c s)
  /\ no_query_or_fragment (snd (split_netloc r)) = true.
Proof.
  intros Hr Hc.
  assert (Hdelim : char_in c "/?#" = true).
  { cbn in Hc |- *. rewrite Hc. apply orb_true_r. }
  assert (Hne : Ascii.eqb c "/" = false).
  { cbn in Hc. apply orb_prop in Hc as [Hc | Hc].
    - apply Ascii.eqb_eq in Hc as ->. reflexivity.
    - rewrite orb_false_r in Hc. apply Ascii.eqb_eq in Hc as ->. reflexivity. }
  destruct r as [| a [| b r]].
  - rewrite append_nil_l. split; [| reflexivity].
    destruct s; cbn [split_netloc]; [reflexivity | rewrite Hne; reflexivity].
  - rewrite !append_cons, append_nil_l. split; [| exact Hr].
    cbn [split_netloc fst snd]. rewrite Hne, andb_false_r. reflexivity.
  - rewrite !append_cons. cbn [split_netloc].
    destruct (Ascii.eqb a "/" && Ascii.eqb b "/"); [| now split].
    rewrite (span_until_append _ _ _ _ Hdelim).
    split; [reflexivity |]. apply span_until_all_chars.
    cbn [no_query_or_fragment all_chars] in Hr. unfold no_query_or_fragment.
    now apply andb_prop in Hr as [_ [_ Hr]%andb_prop].
Qed.

Lemma split_query_fragment_suffix (r : string) (c : ascii) (s : string) :
  no_query_or_fragment r = true -> char_in c "?#" = true ->
  fst (split_query (fst (split_fragment (r +:+ String c s)))) = r
  /\ fst (split_query (fst (split_fragment r))) = r.
Proof.
  intros Hr Hc.
  assert (Hhash : split_first "#" r = None).
  { apply (split_first_absent (fun c0 => negb (char_in c0 "?#")) "#" r eq_refl Hr). }
  assert (Hquest : split_first "?" r = None).
  { apply (split_first_absent (fun c0 => negb (char_in c0 "?#")) "?" r eq_refl Hr). }
  split.
  2:{ unfold split_fragment, split_query. rewrite Hhash. cbn [fst]. now rewrite Hquest. }
  unfold split_fragment. rewrite split_first_append, Hhash.
  cbn in Hc. apply orb_prop in Hc as [Hc | Hc].
  - apply Ascii.eqb_eq in Hc as ->. cbn [split_first].
    change (Ascii.eqb "?" "#") with false. cbv iota.
    assert (Hq : forall x, fst (split_query (r +:+ String "?" x)) = r).
    { intros x. unfold split_query. rewrite split_first_append, Hquest.
      cbn [split_first]. change (Ascii.eqb "?" "?") with true. cbv iota.
      cbn [fst]. apply append_nil_r. }
    destruct (split_first "#" s) as [[x y] |]; cbn [fst]; apply Hq.
  - rewrite orb_false_r in Hc. apply Ascii.eqb_eq in Hc as ->. cbn [split_first].
    change (Ascii.eqb "#" "#") with true. cbv iota. cbn [fst].
    rewrite append_nil_r. unfold split_query. now rewrite Hquest.
Qed.

(** The scheme, network location, path and parameters that [urlparse]
    gives do not depend on the query string or the fragment: a text
    without either parses, on these four components, as the same text
    followed by a query or a fragment. *)
Lemma urlparse_ignores_query_and_fragment (u suffix : string) (parsed : ParseResult) :
  no_query_or_fragment u = true ->
  starts_with_any "?#" suffix = true ->
  urlparse u = Ok parsed ->
  exists parsed',
    urlparse (u +:+ suffix) = Ok parsed'
    /\ scheme parsed' = scheme parsed /\ netloc parsed' = netloc parsed
    /\ path parsed' = path parsed /\ params parsed' = params parsed.
Proof.
  intros Hu Hs. destruct suffix as [| c s]; [discriminate Hs |].
  cbn [starts_with_any] in Hs. unfold urlparse, clean_url.
  assert (Hws : in_range 0 32 c = false).
  { cbn in Hs. apply orb_prop in Hs as [Hc | Hc].
    - apply Ascii.eqb_eq in Hc as ->. reflexivity.
    - rewrite orb_false_r in Hc. apply Ascii.eqb_eq in Hc as ->. reflexivity. }
  assert (Hsafe : is_unsafe c = false).
  { cbn in Hs. apply orb_prop in Hs as [Hc | Hc].
    - apply Ascii.eqb_eq in Hc as ->. reflexivity.
    - rewrite orb_false_r in Hc. apply Ascii.eqb_eq in Hc as ->. reflexivity. }
  rewrite (lstrip_with_append _ _ _ _ Hws), remove_chars_append.
  cbn [remove_chars]. rewrite Hsafe.
  set (u1 := remove_chars is_unsafe (lstrip_with (in_range 0 32) u)).
  set (s1 := remove_chars is_unsafe s).
  assert (Hu1 : no_query_or_fragment u1 = true).
  { apply all_chars_remove, all_chars_lstrip, Hu. }
  destruct (split_scheme_suffix u1 c s1 Hu1 Hs) as [-> Hr].
  destruct (split_scheme u1) as [sch r]. cbn [fst snd] in Hr |- *.
  destruct (split_netloc_suffix r c s1 Hr Hs) as [-> Hrest].
  destruct (split_netloc r) as [loc rest]. cbn [fst snd] in Hrest |- *.
  destruct (xorb (char_in "[" loc) (char_in "]" loc)); [discriminate |].
  destruct (split_query_fragment_suffix rest c s1 Hrest Hs) as [Hlong Hshort].
  destruct (split_fragment (rest +:+ String c s1)) as [url1 frag1].
  cbn [fst] in Hlong.
  destruct (split_query url1) as [url2 qry1]. cbn [fst] in Hlong. subst url2.
  destruct (split_fragment rest) as [url3 frag3]. cbn [fst] in Hshort.
  destruct (split_query url3) as [url4 qry3]. cbn [fst] in Hshort. subst url4.
  destruct (if string_in_list sch uses_params && char_in ";" rest
            then split_params rest else (rest, "")) as [url5 prm].
  intros [= <-]. eexists. split; [reflexivity |]. cbn. auto.
Qed.

Lemma remove_chars_none (p q : ascii -> bool) (a : string) :
  (forall c, q c = true -> p c = false) -> all_chars q a = true ->
  remove_chars p a = a.
Proof.
  intros Hqp. induction a as [| c a IH]; [reflexivity |]. cbn [all_chars remove_chars].
  intros [Hc Ha]%andb_prop. now rewrite (Hqp c Hc), (IH Ha).
Qed.

Lemma all_chars_weaken (p q : ascii -> bool) (a : string) :
  (forall c, q c = true -> p c = true) -> all_chars q a = true -> all_chars p a = true.
Proof.
  intros Hqp. induction a as [| c a IH]; [reflexivity |]. cbn [all_chars].
  intros [Hc Ha]%andb_prop. now rewrite (Hqp c Hc), (IH Ha).
Qed.

Lemma char_in_absent (q : ascii -> bool) (c : ascii) (a : string) :
  q c = false -> all_chars q a = true -> char_in c a = false.
Proof.
  intros Hc. induction a as [| d a IH]; [reflexivity |]. cbn [all_chars char_in].
  intros [Hd Ha]%andb_prop. rewrite (IH Ha), orb_false_r.
  destruct (Ascii.eqb_spec c d) as [-> | _]; [congruence | reflexivity].
Qed.

Lemma plain_host_facts (host : string) :
  plain_host host = true ->
  remove_chars is_unsafe host = host
  /\ span_until (fun c => char_in c "/?#") host = (host, "")
  /\ char_in "[" host = false /\ char_in "]" host = false.
Proof.
  intros Hhost. unfold plain_host in Hhost. repeat split.
  - eapply remove_chars_none; [| exact Hhost]. intros c Hc. cbn beta in Hc.
    apply andb_prop in Hc as [_ Hc]. apply negb_true_iff in Hc.
    unfold is_unsafe. unfold in_range in Hc. cbn [Nat.leb andb] in Hc.
    destruct (Nat.eqb_spec (ascii_code c) 9) as [E | _]; [now rewrite E in Hc |].
    destruct (Nat.eqb_spec (ascii_code c) 10) as [E | _]; [now rewrite E in Hc |].
    destruct (Nat.eqb_spec (ascii_code c) 13) as [E | _]; [now rewrite E in Hc |].
    reflexivity.
  - apply span_until_absent. eapply all_chars_weaken; [| exact Hhost].
    intros c Hc. cbn beta in Hc.
    apply andb_prop in Hc as [Hc _]. apply negb_true_iff in Hc. apply negb_true_iff.
    cbn in Hc |- *.
    destruct (Ascii.eqb c "/"), (Ascii.eqb c "?"), (Ascii.eqb c "#");
      try discriminate Hc; reflexivity.
  - eapply char_in_absent; [| exact Hhost]. reflexivity.
  - eapply char_in_absent; [| exact Hhost]. reflexivity.
Qed.

(** The network location that [urlparse] gives for a web address is its
    host, whatever path, query or fragment follows it. *)
Lemma urlparse_netloc_ignores_path (sch host rest : string) :
  sch = "http" \/ sch = "https" ->
  plain_host host = true ->
  rest = "" \/ starts_with_any "/?#" rest = true ->
  exists parsed,
    urlparse (sch +:+ "://" +:+ host +:+ rest) = Ok parsed
    /\ scheme parsed = sch /\ netloc parsed = host.
Proof.
  intros Hsch Hhost Hrest.
  destruct (plain_host_facts host Hhost) as (Hclean & Hspan & Hopen & Hclose).
  assert (Hparse : forall rest1,
             rest1 = "" \/ starts_with_any "/?#" rest1 = true ->
             span_until (fun c => char_in c "/?#") (host +:+ rest1) = (host, rest1)).
  { intros rest1 [-> | Hstart].
    - now rewrite append_nil_r.
    - destruct rest1 as [| c s]; [discriminate Hstart |].
      rewrite (span_until_append _ _ _ _ Hstart), Hspan. reflexivity. }
  assert (Hrest1 : remove_chars is_unsafe rest = ""
                   \/ starts_with_any "/?#" (remove_chars is_unsafe rest) = true).
  { destruct Hrest as [-> | Hstart]; [now left | right].
    destruct rest as [| c s]; [discriminate Hstart |]. cbn [remove_chars].
    replace (is_unsafe c) with false; [exact Hstart |].
    cbn in Hstart.
    destruct (Ascii.eqb_spec c "/") as [-> | _]; [reflexivity |].
    destruct (Ascii.eqb_spec c "?") as [-> | _]; [reflexivity |].
    destruct (Ascii.eqb_spec c "#") as [-> | _]; [reflexivity | discriminate Hstart]. }
  unfold urlparse, clean_url.
  destruct Hsch as [-> | ->].
  - change (lstrip_with (in_range 0 32) ("http" +:+ "://" +:+ host +:+ rest))
      with ("http://" +:+ host +:+ rest).
    rewrite !remove_chars_append, Hclean.
    change (split_scheme (remove_chars is_unsafe "http://" +:+ host
                          +:+ remove_chars is_unsafe rest))
      with ("http", "//" +:+ host +:+ remove_chars is_unsafe rest).
    cbv beta iota zeta.
    change (split_netloc ("//" +:+ host +:+ remove_chars is_unsafe rest))
      with (span_until (fun c => char_in c "/?#")
              (host +:+ remove_chars is_unsafe rest)).
    rewrite (Hparse _ Hrest1). cbv beta iota zeta. rewrite Hopen, Hclose. cbn [xorb].
    destruct (split_fragment _) as [url1 frag]. destruct (split_query _) as [url2 qry].
    destruct (string_in_list _ _ && char_in _ _);
      [destruct (split_params _) as [url3 prm] |]; eexists; now split.
  - change (lstrip_with (in_range 0 32) ("https" +:+ "://" +:+ host +:+ rest))
      with ("https://" +:+ host +:+ rest).
    rewrite !remove_chars_append, Hclean.
    change (split_scheme (remove_chars is_unsafe "https://" +:+ host
                          +:+ remove_chars is_unsafe rest))
      with ("https", "//" +:+ host +:+ remove_chars is_unsafe rest).
    cbv beta iota zeta.
    change (split_netloc ("//" +:+ host +:+ remove_chars is_unsafe rest))
      with (span_until (fun c => char_in c "/?#")
              (host +:+ remove_chars is_unsafe rest)).
    rewrite (Hparse _ Hrest1). cbv beta iota zeta. rewrite Hopen, Hclose. cbn [xorb].
    destruct (split_fragment _) as [url1 frag]. destruct (split_query _) as [url2 qry].
    destruct (string_in_list _ _ && char_in _ _);
      [destruct (split_params _) as [url3 prm] |]; eexists; now split.
Qed.

(* ===================================================================== *)
(** ** Redirect verification *)
(* ===================================================================== *)

Section Redirects.
Context {W : Type} `{Browser W}.

Lemma page_load_run self (w : W) loaded w1 :
  wait_ready_state 10 w = (loaded, w1) -> page_load_returns loaded ->
  exists ready, wait_for_page_load self (Some 10) w
                = (Ok ready, w1, [EvWaitPageLoad 10]).
Proof.
  intros Hwait Hloaded. unfold wait_for_page_load, try_except, only, call,
    mbind, M_bind, bind.
  cbn [wait_timeout Z.eqb]. rewrite Hwait. destruct loaded as [[] | e].
  - now exists true.
  - rewrite (Hloaded e eq_refl). now exists false.
Qed.

Lemma verify_redirect_url_run self path_fragment (w : W) loaded w1 current_url
  w2 parsed :
  wait_ready_state 10 w = (loaded, w1) -> page_load_returns loaded ->
  driver_current_url w1 = (Ok current_url, w2) ->
  urlparse current_url = Ok parsed ->
  verify_redirect_url self path_fragment w
  = if str_in (lower path_fragment) (lower (path parsed))
    then (Ok tt, w2,
          [EvWaitPageLoad 10; EvCurrentUrl; EvPrint (MsgRedirectOk path_fragment)])
    else (Raise (Exn AssertionError
                   (redirect_url_message path_fragment (lower (path parsed))
                      current_url)),
          w2, [EvWaitPageLoad 10; EvCurrentUrl]).
Proof.
  intros Hwait Hloaded Hurl Hparse.
  destruct (page_load_run self w loaded w1 Hwait Hloaded) as [ready Hload].
  unfold verify_redirect_url, get_current_url, call, lift, mbind, M_bind, bind.
  rewrite Hload, Hurl, Hparse.
  destruct (str_in (lower path_fragment) (lower (path parsed))); reflexivity.
Qed.

Lemma verify_redirect_to_provider_run self expected_url (w : W) loaded w1
  current_url w2 current_parsed expected_parsed :
  wait_ready_state 10 w = (loaded, w1) -> page_load_returns loaded ->
  driver_current_url w1 = (Ok current_url, w2) ->
  urlparse current_url = Ok current_parsed ->
  urlparse (strip_quotes expected_url) = Ok expected_parsed ->
  verify_redirect_to_provider self expected_url w
  = if str_in (lower (netloc expected_parsed)) (lower (netloc current_parsed))
    then (Ok tt, w2,
          [EvWaitPageLoad 10; EvCurrentUrl;
           EvPrint (MsgProviderRedirectOk (lower (netloc expected_parsed)))])
    else (Raise (Exn AssertionError
                   (redirect_provider_message (lower (netloc expected_parsed))
                      (lower (netloc current_parsed)) current_url)),
          w2, [EvWaitPageLoad 10; EvCurrentUrl]).
Proof.
  intros Hwait Hloaded Hurl Hcurrent Hexpected.
  destruct (page_load_run self w loaded w1 Hwait Hloaded) as [ready Hload].
  unfold verify_redirect_to_provider, get_current_url, call, lift,
    mbind, M_bind, bind.
  rewrite Hload, Hurl, Hcurrent, Hexpected.
  destruct (str_in (lower (netloc expected_parsed))
              (lower (netloc current_parsed))) eqn:Hin; [reflexivity |].
  destruct (String.eqb_spec (lower (netloc current_parsed))
              (lower (netloc expected_parsed))) as [Heq | _]; [| reflexivity].
  rewrite Heq, str_in_refl in Hin. discriminate Hin.
Qed.

(** C5.  Once the page-load wait has returned and the browser has given
    the current URL, [verify_redirect_url] succeeds exactly when the
    lowercased path of that URL contains the lowercased fragment;
    otherwise it raises an [AssertionError] whose message holds the
    actual path and the expected fragment.  A query string or a fragment
    added to the URL does not change whether it succeeds. *)
Theorem redirect_url_checks_the_path
  (self : BasePage) (path_fragment current_url : string) (parsed : ParseResult)
  (loaded : result unit) (w w1 w2 : W) :
  wait_ready_state 10 w = (loaded, w1) -> page_load_returns loaded ->
  driver_current_url w1 = (Ok current_url, w2) ->
  urlparse current_url = Ok parsed ->
  let current_path := lower (path parsed) in
  let message := redirect_url_message path_fragment current_path current_url in
  (outcome (verify_redirect_url self path_fragment w) = Ok tt
   <-> str_in (lower path_fragment) current_path = true)
  /\ (str_in (lower path_fragment) current_path = true ->
   verify_redirect_url self path_fragment w
   = (Ok tt, w2,
      [EvWaitPageLoad 10; EvCurrentUrl; EvPrint (MsgRedirectOk path_fragment)]))
  /\ (str_in (lower path_fragment) current_path = false ->
      verify_redirect_url self path_fragment w
      = (Raise (Exn AssertionError message), w2, [EvWaitPageLoad 10; EvCurrentUrl])
      /\ str_in current_path message = true
      /\ str_in path_fragment message = true)
  /\ (forall suffix loaded' (w' w1' w2' : W),
        no_query_or_fragment current_url = true ->
        starts_with_any "?#" suffix = true ->
        wait_ready_state 10 w' = (loaded', w1') -> page_load_returns loaded' ->
        driver_current_url w1' = (Ok (current_url +:+ suffix), w2') ->
        outcome (verify_redirect_url self path_fragment w') = Ok tt
        <-> outcome (verify_redirect_url self path_fragment w) = Ok tt).
Proof.
  intros Hwait Hloaded Hurl Hparse current_path message.
  pose proof (verify_redirect_url_run self path_fragment w loaded w1 current_url
                w2 parsed Hwait Hloaded Hurl Hparse) as Hrun.
  fold current_path in Hrun. split; [| split; [| split]].
  - rewrite Hrun. destruct (str_in (lower path_fragment) current_path); cbn;
      split; first [reflexivity | discriminate].
  - intros Hin. rewrite Hrun, Hin. reflexivity.
  - intros Hin. rewrite Hrun, Hin. split; [reflexivity |].
    destruct (redirect_url_message_holds path_fragment current_path current_url).
    now split.
  - intros suffix loaded' w' w1' w2' Hplain Hsuffix Hwait' Hloaded' Hurl'.
    destruct (urlparse_ignores_query_and_fragment current_url suffix parsed
                Hplain Hsuffix Hparse) as (parsed' & Hparse' & _ & _ & Hpath & _).
    rewrite (verify_redirect_url_run self path_fragment w' loaded' w1' _ w2'
               parsed' Hwait' Hloaded' Hurl' Hparse'), Hrun, Hpath.
    fold current_path.
    destruct (str_in (lower path_fragment) current_path); cbn; split;
      first [reflexivity | discriminate | auto].
Qed.

(** C6, as the code has it.  Once the page-load wait has returned and
    the browser has given the current URL, [verify_redirect_to_provider]
    parses the expected value, stripped of surrounding quotes, as a URL
    and succeeds exactly when the lowercased network location of that
    URL is contained in the lowercased network location of the current
    URL; otherwise it raises an [AssertionError] whose message holds
    both.  An expected value without a network location (a bare host
    name) therefore always passes.  For a web address the network
    location is the host, whatever path or query follows it. *)
Theorem provider_redirect_compares_network_locations
  (self : BasePage) (expected_url current_url : string)
  (current_parsed expected_parsed : ParseResult)
  (loaded : result unit) (w w1 w2 : W) :
  wait_ready_state 10 w = (loaded, w1) -> page_load_returns loaded ->
  driver_current_url w1 = (Ok current_url, w2) ->
  urlparse current_url = Ok current_parsed ->
  urlparse (strip_quotes expected_url) = Ok expected_parsed ->
  let current_domain := lower (netloc current_parsed) in
  let expected_domain := lower (netloc expected_parsed) in
  let message :=
    redirect_provider_message expected_domain current_domain current_url in
  (outcome (verify_redirect_to_provider self expected_url w) = Ok tt
   <-> str_in expected_domain current_domain = true)
  /\ (str_in expected_domain current_domain = true ->
   verify_redirect_to_provider self expected_url w
   = (Ok tt, w2,
      [EvWaitPageLoad 10; EvCurrentUrl;
       EvPrint (MsgProviderRedirectOk expected_domain)]))
  /\ (str_in expected_domain current_domain = false ->
      verify_redirect_to_provider self expected_url w
      = (Raise (Exn AssertionError message), w2, [EvWaitPageLoad 10; EvCurrentUrl])
      /\ str_in expected_domain message = true
      /\ str_in current_domain message = true)
  /\ (netloc expected_parsed = "" ->
      outcome (verify_redirect_to_provider self expected_url w) = Ok tt)
  /\ (forall sch host rest,
        sch = "http" \/ sch = "https" -> plain_host host = true ->
        rest = "" \/ starts_with_any "/?#" rest = true ->
        current_url = sch +:+ "://" +:+ host +:+ rest ->
        current_domain = lower host).
Proof.
  intros Hwait Hloaded Hurl Hcurrent Hexpected current_domain expected_domain
    message.
  pose proof (verify_redirect_to_provider_run self expected_url w loaded w1
                current_url w2 current_parsed expected_parsed
                Hwait Hloaded Hurl Hcurrent Hexpected) as Hrun.
  fold current_domain expected_domain in Hrun.
  split; [| split; [| split; [| split]]].
  - rewrite Hrun. destruct (str_in expected_domain current_domain); cbn;
      split; first [reflexivity | discriminate].
  - intros Hin. rewrite Hrun, Hin. reflexivity.
  - intros Hin. rewrite Hrun, Hin. split; [reflexivity |].
    apply redirect_provider_message_holds.
  - intros Hempty. rewrite Hrun. unfold expected_domain. rewrite Hempty.
    cbn [lower]. rewrite str_in_empty. reflexivity.
  - intros sch host rest Hsch Hhost Hrest ->.
    destruct (urlparse_netloc_ignores_path sch host rest Hsch Hhost Hrest)
      as (parsed & Hparsed & _ & Hnetloc).
    rewrite Hparsed in Hcurrent. injection Hcurrent as <-.
    unfold current_domain. now rewrite Hnetloc.
Qed.

End Redirects.

Lemma redirect_url_checks_the_path_witness :
  verify_redirect_url default_page "home" dashboard_page
  = (Ok tt, dashboard_page,
     [EvWaitPageLoad 10; EvCurrentUrl; EvPrint (MsgRedirectOk "home")])
  /\ outcome (verify_redirect_url default_page "settings" dashboard_page)
     = Raise (Exn AssertionError
                (redirect_url_message "settings" "/home/dashboard"
                   "https://app.example.com/home/dashboard?ref=x")).
Proof.
  assert (Hwait : wait_ready_state 10 dashboard_page = (Ok tt, dashboard_page))
    by reflexivity.
  assert (Hloaded : page_load_returns (Ok tt)) by (intros e; discriminate).
  assert (Hurl : driver_current_url dashboard_page
                 = (Ok "https://app.example.com/home/dashboard?ref=x", dashboard_page))
    by reflexivity.
  assert (Hparse : urlparse "https://app.example.com/home/dashboard?ref=x"
                   = Ok {| scheme := "https"; netloc := "app.example.com";
                           path := "/home/dashboard"; params := "";
                           query := "ref=x"; fragment := "" |})
    by reflexivity.
  split.
  - apply (proj1 (proj2 (redirect_url_checks_the_path default_page "home"
                           _ _ _ _ _ _ Hwait Hloaded Hurl Hparse))).
    reflexivity.
  - rewrite (proj1 (proj1 (proj2 (proj2 (redirect_url_checks_the_path default_page
                                           "settings" _ _ _ _ _ _
                                           Hwait Hloaded Hurl Hparse))) eq_refl)).
    reflexivity.
Defined.

Lemma provider_redirect_compares_network_locations_witness :
  verify_redirect_to_provider default_page "https://accounts.google.com"
    google_oauth_page
  = (Ok tt, google_oauth_page,
     [EvWaitPageLoad 10; EvCurrentUrl;
      EvPrint (MsgProviderRedirectOk "accounts.google.com")])
  /\ outcome (verify_redirect_to_provider default_page "https://www.facebook.com"
                google_oauth_page)
     = Raise (Exn AssertionError
                (redirect_provider_message "www.facebook.com" "accounts.google.com"
                   "https://accounts.google.com/oauth/authorize?client_id=1")).
Proof.
  assert (Hwait : wait_ready_state 10 google_oauth_page = (Ok tt, google_oauth_page))
    by reflexivity.
  assert (Hloaded : page_load_returns (Ok tt)) by (intros e; discriminate).
  assert (Hurl : driver_current_url google_oauth_page
                 = (Ok "https://accounts.google.com/oauth/authorize?client_id=1",
                    google_oauth_page))
    by reflexivity.
  assert (Hparse : urlparse "https://accounts.google.com/oauth/authorize?client_id=1"
                   = Ok {| scheme := "https"; netloc := "accounts.google.com";
                           path := "/oauth/authorize"; params := "";
                           query := "client_id=1"; fragment := "" |})
    by reflexivity.
  assert (Hgoogle : urlparse (strip_quotes "https://accounts.google.com")
                    = Ok {| scheme := "https"; netloc := "accounts.google.com";
                            path := ""; params := ""; query := ""; fragment := "" |})
    by reflexivity.
  assert (Hfacebook : urlparse (strip_quotes "https://www.facebook.com")
                      = Ok {| scheme := "https"; netloc := "www.facebook.com";
                              path := ""; params := ""; query := ""; fragment := "" |})
    by reflexivity.
  split.
  - apply (proj1 (proj2 (provider_redirect_compares_network_locations default_page
                           _ _ _ _ _ _ _ _ Hwait Hloaded Hurl Hparse Hgoogle))).
    reflexivity.
  - rewrite (proj1 (proj1 (proj2 (proj2 (provider_redirect_compares_network_locations
                                           default_page _ _ _ _ _ _ _ _
                                           Hwait Hloaded Hurl Hparse Hfacebook)))
                      eq_refl)).
    reflexivity.
Defined.

(** C6 as stated does not hold: with the bare host [facebook.com] as the
    expected provider, on a page of [accounts.google.com], the
    verification succeeds although the expected host is not contained in
    the current one. *)
Lemma provider_check_passes_for_a_bare_host :
  outcome (verify_redirect_to_provider default_page "facebook.com" google_oauth_page)
  = Ok tt
  /\ ~ provider_check_as_stated "facebook.com" (sim_url google_oauth_page)
         (outcome (verify_redirect_to_provider default_page "facebook.com"
                     google_oauth_page)).
Proof.
  split; [reflexivity |]. intros Hclaim.
  specialize (Hclaim _ eq_refl). destruct Hclaim as [Hcontained _].
  specialize (Hcontained eq_refl). vm_compute in Hcontained. discriminate Hcontained.
Qed.

(* ===================================================================== *)
(** ** Error-message retrieval *)
(* ===================================================================== *)

(** [_find_error_by_locators] on a simulated page *)
Lemma find_error_in_sim (self : BasePage) (s : Sim) (locators : list locator) :
  exists o, _find_error_in self locators s
            = (Ok (first_truthy (map (visible_text s) locators)), s, o).
Proof.
  induction locators as [| l rest [o IH]]; [now exists [] |].
  cbn [_find_error_in map first_truthy].
  unfold visible_text at 1 2.
  unfold mbind, M_bind, bind, try_except, any_exception, find_visible_element,
    until, call, print. cbn [wait_until element_text sim_browser].
  destruct (sim_wait Visibility l s) as [el | e]; cbn.
  - destruct (truthy (strip (sim_text s el))); cbn.
    + eexists. reflexivity.
    + rewrite IH. eexists. reflexivity.
  - rewrite IH. eexists. reflexivity.
Qed.

(** the inner loop of the scan on a simulated page *)
Lemma scan_elements_sim (s : Sim) (pattern : string) (els : list element) :
  exists o, _scan_elements pattern els s
            = (Ok (head (displayed_texts s els)), s, o).
Proof.
  induction els as [| el rest [o IH]]; [now exists [] |].
  cbn [_scan_elements]. unfold displayed_texts. cbn [List.filter].
  unfold mbind, M_bind, bind, call, print.
  cbn [element_is_displayed element_text sim_browser].
  destruct (sim_displayed s el); cbn.
  - destruct (truthy (strip (sim_text s el))); cbn.
    + eexists. reflexivity.
    + fold (displayed_texts s rest). rewrite IH. eexists. reflexivity.
  - fold (displayed_texts s rest). rewrite IH. eexists. reflexivity.
Qed.

(** one round of the outer loop on a simulated page: a keyword that
    matches no element ends the scan with the timeout of [find_elements] *)
Lemma scan_patterns_step (self : BasePage) (s : Sim) (pattern : string)
  (rest : list string) :
  exists o,
    _scan_patterns self (pattern :: rest) s
    = match pattern_elements s pattern with
      | [] => (Raise timeout_exn, s, o)
      | els =>
          match head (displayed_texts s els) with
          | Some text => (Ok (Some text), s, o)
          | None =>
              let '(r, s', o') := _scan_patterns self rest s in (r, s', o ++ o')
          end
      end.
Proof.
  cbn [_scan_patterns].
  unfold mbind at 1, M_bind at 1, bind at 1, find_elements.
  unfold mbind at 1, M_bind at 1, bind at 1, until, call.
  cbn [wait_until driver_find_elements sim_browser]. unfold sim_wait.
  fold (pattern_elements s pattern).
  destruct (pattern_elements s pattern) as [| el els] eqn:Hels.
  - eexists. reflexivity.
  - unfold mbind, M_bind, bind.
    destruct (scan_elements_sim s pattern (el :: els)) as [o ->].
    destruct (head (displayed_texts s (el :: els))) as [text |]; cbn.
    + eexists. reflexivity.
    + destruct (_scan_patterns self rest s) as [[r s'] o'].
      exists (EvWait Presence (By_XPATH, pattern_xpath pattern) (self_wait self)
              :: EvFindElements (By_XPATH, pattern_xpath pattern) :: o).
      reflexivity.
Qed.

Lemma scan_patterns_hit (self : BasePage) (s : Sim) (pre post : list string)
  (pattern text : string) (more : list string) :
  (forall q, In q pre -> pattern_elements s q <> [] /\ pattern_hits s q = []) ->
  pattern_hits s pattern = text :: more ->
  exists o, _scan_patterns self (pre ++ pattern :: post) s = (Ok (Some text), s, o).
Proof.
  intros Hpre Hhit. induction pre as [| q pre IH]; cbn [app].
  - destruct (scan_patterns_step self s pattern post) as [o ->].
    unfold pattern_hits in Hhit.
    destruct (pattern_elements s pattern) as [| el els]; [discriminate Hhit |].
    rewrite Hhit. now exists o.
  - destruct (scan_patterns_step self s q (pre ++ pattern :: post)) as [o ->].
    destruct (Hpre q (or_introl eq_refl)) as [Hsome Hnone].
    unfold pattern_hits in Hnone.
    destruct (pattern_elements s q) as [| el els]; [now destruct Hsome |].
    rewrite Hnone. cbn [head].
    destruct IH as [o' ->]; [intros q' Hq'; apply Hpre; now right |].
    now eexists.
Qed.

Lemma scan_patterns_none (self : BasePage) (s : Sim) (patterns : list string) :
  (forall q, In q patterns -> pattern_hits s q = []) ->
  exists r o, _scan_patterns self patterns s = (r, s, o)
              /\ (r = Ok None \/ r = Raise timeout_exn).
Proof.
  intros Hnone. induction patterns as [| q rest IH].
  - exists (Ok None), []. now split; [| left].
  - destruct (scan_patterns_step self s q rest) as [o ->].
    pose proof (Hnone q (or_introl eq_refl)) as Hq. unfold pattern_hits in Hq.
    destruct (pattern_elements s q) as [| el els].
    + exists (Raise timeout_exn), o. now split; [| right].
    + rewrite Hq. cbn [head].
      destruct IH as (r & o' & -> & Hr); [intros q' Hq'; apply Hnone; now right |].
      now exists r, (o ++ o').
Qed.

(** one round of the loop of [get_error_message] *)
Lemma first_error_message_step {W : Type} (strategy : M W string)
  (rest : list (M W string)) (w : W) (error_message : string) (w1 : W)
  (o : list event) :
  strategy w = (Ok error_message, w1, o) ->
  _first_error_message (strategy :: rest) w
  = if truthy error_message then (Ok error_message, w1, o)
    else let '(r, w2, o2) := _first_error_message rest w1 in (r, w2, o ++ o2).
Proof.
  intros Hrun. cbn [_first_error_message]. unfold mbind, M_bind, bind.
  rewrite Hrun. destruct (truthy error_message); [| reflexivity].
  cbn. now rewrite app_nil_r.
Qed.

Section ErrorLookup.
Context {W : Type} `{Browser W}.

Lemma error_text_with_truthy (self : BasePage) (l : locator) (w w1 : W)
  (text : string) (o : list event) :
  error_text_with self l w = (Ok (Some text), w1, o) -> truthy text = true.
Proof.
  unfold error_text_with, try_except, any_exception, find_visible_element, until,
    call, print, mbind, M_bind, bind, mret, M_ret, ret.
  destruct (wait_until Visibility l _ w) as [[el | e] w0]; [| discriminate].
  destruct (element_text el w0) as [[t | e] w2]; [| discriminate].
  destruct (truthy (strip t)) eqn:Htruthy; [| discriminate].
  intros [= <- _ _]. exact Htruthy.
Qed.

Lemma find_error_in_step (self : BasePage) (l : locator) (rest : list locator)
  (w w1 : W) (found : option string) (o : list event) :
  error_text_with self l w = (Ok found, w1, o) ->
  _find_error_in self (l :: rest) w
  = match found with
    | Some error_text => (Ok error_text, w1, o ++ [])
    | None => let '(r, w2, o2) := _find_error_in self rest w1 in (r, w2, o ++ o2)
    end.
Proof.
  intros Hround. cbn [_find_error_in]. fold (error_text_with self l).
  unfold mbind at 1, M_bind at 1, bind at 1. rewrite Hround.
  now destruct found.
Qed.

Lemma find_error_in_order (self : BasePage) (pre : list locator) (l : locator)
  (post : list locator) (w w1 w2 : W) (o o' : list event) (text : string) :
  locators_give_nothing self pre w o w1 ->
  error_text_with self l w1 = (Ok (Some text), w2, o') ->
  _find_error_in self (pre ++ l :: post) w = (Ok text, w2, o ++ o').
Proof.
  intros Hpre Hl. induction Hpre as [w | l0 ls w o1 w1 o w' Hround _ IH].
  - cbn [app]. rewrite (find_error_in_step self l post w w2 _ o' Hl).
    now rewrite app_nil_r.
  - cbn [app].
    rewrite (find_error_in_step self l0 (ls ++ l :: post) w w1 _ o1 Hround).
    rewrite (IH Hl). now rewrite app_assoc.
Qed.

(** C4, as the code has it.  [get_error_message] tries the locators in
    the order [ERROR_MESSAGE], [GENERIC_ERROR], [EMAIL_ERROR],
    [PASSWORD_ERROR] (the generic banner comes second, before the two
    field errors): whatever the browser does, once the locators before
    one of them have given no text and that one gives a text, this text is
    returned and nothing else is tried.  On a page that does not change
    during the call, the result is the first non-empty stripped text that
    a locator of the list shows; only when there is none are the keywords
    scanned, in order: if every keyword before some keyword matches
    elements of which none is displayed with a text, and that keyword has
    such an element, the text of its first such element is returned; if no
    keyword has such an element, the result is the empty string. *)
Theorem error_message_lookup_order (self : BasePage) (s : Sim) :
  (forall pre l post (w w1 w2 : W) o o' text,
     error_locators = pre ++ l :: post ->
     locators_give_nothing self pre w o w1 ->
     error_text_with self l w1 = (Ok (Some text), w2, o') ->
     get_error_message self w = (Ok text, w2, o ++ o'))
  /\ let by_locators := first_truthy (map (visible_text s) error_locators) in
     (truthy by_locators = true ->
      outcome (get_error_message self s) = Ok by_locators
      /\ get_error_message self s = _find_error_by_locators self s)
     /\ (truthy by_locators = false ->
         forall pre pattern post text more,
           error_patterns = pre ++ pattern :: post ->
           (forall q, In q pre ->
              pattern_elements s q <> [] /\ pattern_hits s q = []) ->
           pattern_hits s pattern = text :: more ->
           outcome (get_error_message self s) = Ok text)
     /\ (truthy by_locators = false ->
         (forall q, In q error_patterns -> pattern_hits s q = []) ->
         outcome (get_error_message self s) = Ok "").
Proof.
  split.
  { intros pre l post w w1 w2 o o' text Hsplit Hpre Hl.
    assert (Hloc : _find_error_by_locators self w = (Ok text, w2, o ++ o')).
    { unfold _find_error_by_locators. rewrite Hsplit.
      exact (find_error_in_order self pre l post w w1 w2 o o' text Hpre Hl). }
    unfold get_error_message.
    rewrite (first_error_message_step _ _ w text w2 _ Hloc).
    now rewrite (error_text_with_truthy self l w1 w2 text o' Hl). }
  intros by_locators.
  destruct (find_error_in_sim self s error_locators) as [o Hloc].
  fold by_locators in Hloc.
  change (_find_error_in self error_locators s)
    with (_find_error_by_locators (W := Sim) self s) in Hloc.
  pose proof (first_error_message_step (W := Sim) (_find_error_by_locators self)
                [_find_error_by_text_patterns self] s by_locators s o Hloc) as Hrun.
  change (_first_error_message
            [_find_error_by_locators self; _find_error_by_text_patterns self] s)
    with (get_error_message (W := Sim) self s) in Hrun.
  split; [| split].
  - intros Htruthy. rewrite Hrun, Htruthy, Hloc. now split.
  - intros Hfalsy pre pattern post text more Hsplit Hpre Hhit.
    destruct (scan_patterns_hit self s pre post pattern text more Hpre Hhit)
      as [o' Hscan].
    assert (Htext : truthy text = true).
    { unfold pattern_hits, displayed_texts in Hhit.
      assert (Hin : In text (List.filter truthy
                     (map (fun el => strip (sim_text s el))
                        (List.filter (sim_displayed s) (pattern_elements s pattern)))))
        by (rewrite Hhit; now left).
      apply filter_In in Hin as [_ Hin]. exact Hin. }
    assert (Hpatterns : _find_error_by_text_patterns self s = (Ok text, s, o' ++ [])).
    { unfold _find_error_by_text_patterns, mbind, M_bind, bind, try_except.
      rewrite Hsplit, Hscan. reflexivity. }
    rewrite Hrun, Hfalsy.
    rewrite (first_error_message_step _ [] s text s _ Hpatterns), Htext.
    reflexivity.
  - intros Hfalsy Hnone.
    destruct (scan_patterns_none self s error_patterns Hnone)
      as (r & o' & Hscan & Hr).
    assert (Hpatterns : exists o2, _find_error_by_text_patterns self s = (Ok "", s, o2)).
    { unfold _find_error_by_text_patterns, mbind, M_bind, bind, try_except.
      rewrite Hscan. destruct Hr as [-> | ->]; eexists; reflexivity. }
    destruct Hpatterns as [o2 Hpatterns].
    rewrite Hrun, Hfalsy.
    rewrite (first_error_message_step _ [] s "" s _ Hpatterns).
    reflexivity.
Qed.

End ErrorLookup.

Lemma error_message_lookup_order_witness :
  get_error_message default_page page_with_banner_and_email_error
  = (Ok "Something went wrong", page_with_banner_and_email_error,
     [EvWait Visibility ERROR_MESSAGE 3;
      EvPrint (MsgNoErrorWith ERROR_MESSAGE timeout_exn);
      EvWait Visibility GENERIC_ERROR 3; EvText 1%nat;
      EvPrint (MsgFoundError "Something went wrong" GENERIC_ERROR)])
  /\ outcome (get_error_message default_page page_with_keyword_message)
     = Ok "Invalid email or password"
  /\ outcome (get_error_message default_page page_without_errors) = Ok "".
Proof.
  split; [| split].
  - apply (proj1 (error_message_lookup_order (W := Sim) default_page
                    page_with_banner_and_email_error)
             [ERROR_MESSAGE] GENERIC_ERROR [EMAIL_ERROR; PASSWORD_ERROR]
             page_with_banner_and_email_error page_with_banner_and_email_error
             page_with_banner_and_email_error
             [EvWait Visibility ERROR_MESSAGE 3;
              EvPrint (MsgNoErrorWith ERROR_MESSAGE timeout_exn)]
             [EvWait Visibility GENERIC_ERROR 3; EvText 1%nat;
              EvPrint (MsgFoundError "Something went wrong" GENERIC_ERROR)]
             "Something went wrong").
    + reflexivity.
    + apply (locators_give_nothing_cons default_page ERROR_MESSAGE []
               page_with_banner_and_email_error
               [EvWait Visibility ERROR_MESSAGE 3;
                EvPrint (MsgNoErrorWith ERROR_MESSAGE timeout_exn)]
               page_with_banner_and_email_error []
               page_with_banner_and_email_error);
        [reflexivity | apply locators_give_nothing_nil].
    + reflexivity.
  - apply (proj1 (proj2 (proj2 (error_message_lookup_order (W := Sim) default_page
                                  page_with_keyword_message))) eq_refl
             ["incorrect"] "invalid"
             ["wrong"; "error"; "failed"; "not found"; "does not exist";
              "try again"; "password"]
             "Invalid email or password" []).
    + reflexivity.
    + intros q [<- | []]. split; [discriminate | reflexivity].
    + reflexivity.
  - apply (proj2 (proj2 (proj2 (error_message_lookup_order (W := Sim) default_page
                                  page_without_errors))) eq_refl).
    intros q Hq. cbn in Hq.
    repeat (destruct Hq as [<- | Hq]; [reflexivity |]). destruct Hq.
Defined.

(** C4 as stated does not hold: on a page showing a generic banner and an
    error under the e-mail field, the message returned is the banner's,
    not the field's, which the stated order would give. *)
Lemma error_message_prefers_the_banner :
  visible_text page_with_banner_and_email_error EMAIL_ERROR = "Enter a valid email"
  /\ first_truthy (map (visible_text page_with_banner_and_email_error)
                     error_locators_as_stated)
     = "Enter a valid email"
  /\ outcome (get_error_message default_page page_with_banner_and_email_error)
     = Ok "Something went wrong"
  /\ outcome (get_error_message default_page page_with_banner_and_email_error)
     <> Ok (first_truthy (map (visible_text page_with_banner_and_email_error)
                            error_locators_as_stated)).
Proof.
  repeat split; try reflexivity. vm_compute. discriminate.
Qed.

(* ===================================================================== *)
(** ** Scenario hooks *)
(* ===================================================================== *)

Section HookFacts.
Context {W : Type} `{Browser W}.

Lemma metric_run key (c : Context) (w : W) n :
  test_metrics c !! key = Some n -> metric key (c, w) = (Ok n, (c, w), []).
Proof.
  intros Hkey. unfold metric, get_context, mbind, M_bind, bind. cbn [fst].
  rewrite Hkey. reflexivity.
Qed.

Lemma increment_metric_run key (c : Context) (w : W) n :
  test_metrics c !! key = Some n ->
  increment_metric key (c, w)
  = (Ok tt, (set_test_metrics (<[key := n + 1]> (test_metrics c)) c, w), []).
Proof.
  intros Hkey. unfold increment_metric, mbind, M_bind, bind.
  rewrite (metric_run key c w n Hkey). reflexivity.
Qed.

Lemma status_counter_ready (c : Context) (status : string) :
  metrics_ready c -> is_Some (test_metrics c !! status_counter status).
Proof.
  intros Hready. apply Hready. unfold status_counter, metric_keys.
  destruct (String.eqb status "passed"); [cbn; auto |].
  destruct (String.eqb status "failed"); cbn; auto.
Qed.

(** [after_scenario], step by step *)
Lemma after_scenario_run (scenario : Scenario) (c : Context) (w : W) (n : Z) :
  test_metrics c !! status_counter (status scenario) = Some n ->
  after_scenario scenario (c, w)
  = (Ok tt,
     (set_scenario_data None
        (set_test_metrics
           (<[status_counter (status scenario) := n + 1]> (test_metrics c)) c),
      snd (teardown_events c (snd (capture_events scenario c w)))),
     EvPrint (status_message scenario)
     :: fst (capture_events scenario c w)
     ++ fst (teardown_events c (snd (capture_events scenario c w)))).
Proof.
  intros Hn.
  unfold after_scenario, status_counter, status_message, capture_events,
    teardown_events in *.
  unfold mbind, M_bind, bind.
  destruct (String.eqb (status scenario) "passed");
    [| destruct (String.eqb (status scenario) "failed")].
  all: rewrite (increment_metric_run _ c w n Hn).
  all: unfold print, get_context, modify_context, try_except, any_exception,
         hook_call, mret, M_ret, ret; cbn [fst snd].
  all: change (live_driver (set_test_metrics _ c)) with (live_driver c).
  all: unfold screenshot_path.
  all: destruct (live_driver c) as [d |] eqn:Hd; cbn [fst snd app].
  all: repeat match goal with
         | Hd : live_driver ?c0 = _
           |- context [live_driver (set_test_metrics ?m ?c0)] =>
             change (live_driver (set_test_metrics m c0)) with (live_driver c0);
             rewrite Hd; cbn [fst snd app]
         | |- context [driver_save_screenshot ?d ?p ?w] =>
             destruct (driver_save_screenshot d p w) as [[? | ?] ?];
             cbn [fst snd app]
         | |- context [driver_quit ?d ?w] =>
             destruct (driver_quit d w) as [[? | ?] ?]; cbn [fst snd app]
         end.
  all: destruct c as [cm tm dr [[] |] po]; reflexivity.
Qed.

Lemma capture_events_cases (scenario : Scenario) (c : Context) (w : W) :
  (String.eqb (status scenario) "failed" = true
   /\ exists d (r : result bool),
        live_driver c = Some d
        /\ capture_events scenario c w
           = ([EvScreenshot d (screenshot_path scenario (unix_time w));
               EvPrint (match r with
                        | Ok _ => MsgScreenshotSaved
                                    (screenshot_path scenario (unix_time w))
                        | Raise e => MsgScreenshotFailed e
                        end)],
              snd (driver_save_screenshot d
                     (screenshot_path scenario (unix_time w)) w)))
  \/ ((String.eqb (status scenario) "failed" = false \/ live_driver c = None)
      /\ capture_events scenario c w = ([], w)).
Proof.
  unfold capture_events.
  destruct (String.eqb_spec (status scenario) "passed") as [Hp | _].
  - right. split; [left; now rewrite Hp | reflexivity].
  - destruct (String.eqb (status scenario) "failed"); [| right; now split; [left |]].
    destruct (live_driver c) as [d |]; [| right; now split; [right |]].
    left. split; [reflexivity |].
    exists d, (fst (driver_save_screenshot d
                      (screenshot_path scenario (unix_time w)) w)).
    split; [reflexivity |]. cbv zeta.
    now destruct (driver_save_screenshot d _ w) as [r w1].
Qed.

(** C8, as the code has it.  With the metrics that [before_all] sets
    up, [after_scenario] returns normally whatever the status of the
    scenario and whatever the browser does.  It takes a screenshot only
    for a failed scenario with a live session.  With a live session it
    closes the session last: the closing comes after every other call
    to the browser, the screenshot included, and when the closing
    raises, the exception is printed and goes no further. *)
Theorem cleanup_captures_on_failure_and_absorbs_teardown_errors
  (scenario : Scenario) (c : Context) (w : W) :
  metrics_ready c ->
  exists c' w' evs,
    after_scenario scenario (c, w) = (Ok tt, (c', w'), evs)
    /\ ((exists d filename, In (EvScreenshot d filename) evs)
        <-> String.eqb (status scenario) "failed" = true
            /\ exists d, live_driver c = Some d)
    /\ (forall d, live_driver c = Some d ->
          exists before wq r,
            driver_quit d wq = (r, w')
            /\ evs = before ++ EvQuit d
                     :: match r with
                        | Ok _ => []
                        | Raise e => [EvPrint (MsgDriverCloseError e)]
                        end
            /\ forall d', ~ In (EvQuit d') before)
    /\ (live_driver c = None -> forall d, ~ In (EvQuit d) evs).
Proof.
  intros Hready.
  destruct (status_counter_ready c (status scenario) Hready) as [n Hn].
  rewrite (after_scenario_run scenario c w n Hn).
  do 3 eexists. split; [reflexivity |].
  destruct (capture_events_cases scenario c w)
    as [(Hfailed & d & r & Hd & ->) | (Hwhy & ->)]; cbn [fst snd];
    unfold teardown_events.
  - rewrite Hd.
    destruct (driver_quit d _) as [rq wq'] eqn:Hquit. cbn [fst snd].
    split; [| split].
    + split; [intros _; split; [exact Hfailed | now exists d] |].
      intros _. exists d, (screenshot_path scenario (unix_time w)).
      right. now left.
    + intros d0 [= <-]. do 3 eexists. split; [exact Hquit |].
      split; [rewrite !app_comm_cons; reflexivity |].
      intros d' [Hin | [Hin | [Hin | []]]]; discriminate Hin.
    + intros [=].
  - destruct (live_driver c) as [d |] eqn:Hd.
    + destruct (driver_quit d w) as [rq wq'] eqn:Hquit. cbn [fst snd app].
      split; [| split].
      * split.
        -- intros (d0 & filename & [Hin | [Hin | Hin]]); try discriminate Hin.
           destruct rq; cbn in Hin; [destruct Hin |].
           destruct Hin as [Hin | []]. discriminate Hin.
        -- intros [Hfailed _]. destruct Hwhy as [Hwhy | Hwhy]; congruence.
      * intros d0 [= <-]. do 3 eexists. split; [exact Hquit |].
        split; [change (?x :: ?y :: ?z) with ([x] ++ y :: z); reflexivity |].
        intros d' [Hin | []]. discriminate Hin.
      * intros [=].
    + cbn [fst snd app]. split; [| split].
      * split.
        -- intros (d0 & filename & [Hin | []]). discriminate Hin.
        -- intros [_ [d0 [=]]].
      * intros d0 [=].
      * intros _ d0 [Hin | []]. discriminate Hin.
Qed.

End HookFacts.

Lemma cleanup_captures_on_failure_and_absorbs_teardown_errors_witness :
  exists c' w' evs,
    after_scenario {| name := "Invalid password"; status := "failed" |}
      (context_with_session, with_failing_quit (blank "https://www.hudl.com/login"))
    = (Ok tt, (c', w'), evs)
    /\ In (EvScreenshot 1%nat "reports/failure_Invalid_password_1700000000.png") evs
    /\ In (EvPrint (MsgDriverCloseError quit_exn)) evs.
Proof.
  destruct (cleanup_captures_on_failure_and_absorbs_teardown_errors
              {| name := "Invalid password"; status := "failed" |}
              context_with_session
              (with_failing_quit (blank "https://www.hudl.com/login")))
    as (c' & w' & evs & Hrun & _).
  - intros key Hkey. cbn in Hkey.
    repeat (destruct Hkey as [<- | Hkey]; [vm_compute; eauto |]). destruct Hkey.
  - exists c', w', evs. split; [exact Hrun |].
    vm_compute in Hrun. injection Hrun as _ _ <-.
    split; [right; left; reflexivity | do 4 right; left; reflexivity].
Defined.

(** C8 as stated does not hold: after a passed scenario the cleanup closes
    the session without having taken a screenshot. *)
Lemma cleanup_takes_no_screenshot_after_a_pass :
  events (after_scenario {| name := "Valid login"; status := "passed" |}
            (context_with_session, blank "https://www.hudl.com/login"))
  = [EvPrint (MsgScenarioPassed "Valid login"); EvQuit 1%nat]
  /\ ~ captures_before_teardown
         (events (after_scenario {| name := "Valid login"; status := "passed" |}
                    (context_with_session, blank "https://www.hudl.com/login"))).
Proof.
  split; [reflexivity |].
  intros (d & filename & a & b & c & Hevs).
  assert (Hin : In (EvScreenshot d filename)
                  (events (after_scenario
                             {| name := "Valid login"; status := "passed" |}
                             (context_with_session,
                              blank "https://www.hudl.com/login")))).
  { rewrite Hevs. apply in_or_app. right. now left. }
  vm_compute in Hin. destruct Hin as [Hin | [Hin | []]]; discriminate Hin.
Qed.

(* ===================================================================== *)
(** ** Test metrics *)
(* ===================================================================== *)

Section MetricFacts.
Context {W : Type} `{Browser W}.

(** [quit_driver] never raises and always clears the driver *)
Lemma quit_driver_never_raises (self : DriverManager) (w : W) :
  exists w' o,
    quit_driver self w
    = (Ok {| dm_config := dm_config self; dm_driver := None |}, w', o).
Proof.
  unfold quit_driver. destruct self as [cfg [d |]]; cbn [dm_driver dm_config].
  - unfold mbind, M_bind, bind, try_except, any_exception, call, print.
    destruct (driver_quit d w) as [[[] | e] w1]; do 2 eexists; reflexivity.
  - do 2 eexists. reflexivity.
Qed.


(** [before_scenario] when the session starts: the scenario is counted *)
Lemma before_scenario_with_session (scenario : Scenario) (c : Context)
  (w w1 w2 w3 : W) (d : Driver) (n : Z) :
  new_session w = (Ok d, w1) ->
  driver_implicitly_wait d
    (match config_manager c with
     | Some cfg => get_implicit_wait cfg
     | None => 10
     end) w1 = (Ok tt, w2) ->
  (if env_headless w2 then (Ok tt, w2) else driver_maximize_window d w2)
  = (Ok tt, w3) ->
  test_metrics c !! "total_tests" = Some n ->
  exists o,
    before_scenario scenario (c, w)
    = (Ok tt,
       (set_test_metrics (<["total_tests" := n + 1]> (test_metrics c))
          (set_page_objects {| config := config_manager c |}
             (set_scenario_data (Some tt) (set_driver (Some d) c))),
        w3), o).
Proof.
  intros Hnew Hwait Hwindow Hn.
  unfold before_scenario, increment_metric, metric.
  unfold mbind, M_bind, bind, try_except, only, hook_call,
    print, modify_context, get_context, mret, M_ret, ret, raise.
  cbn [fst snd]. rewrite Hnew. cbn [fst snd app negb].
  change (live_driver (set_driver (Some d) c)) with (Some d).
  change (config_manager (set_driver (Some d) c)) with (config_manager c).
  cbn [fst snd app]. rewrite Hwait. cbn [fst snd app].
  destruct (env_headless w2); cbn [negb fst snd app].
  - injection Hwindow as <-.
    change (test_metrics (set_page_objects _ _)) with (test_metrics c).
    rewrite Hn. eexists. reflexivity.
  - rewrite Hwindow. cbn [fst snd app].
    change (test_metrics (set_page_objects _ _)) with (test_metrics c).
    rewrite Hn. eexists. reflexivity.
Qed.

Lemma counter_insert (key key' : string) (n : Z) (c c0 : Context) :
  counter key (set_test_metrics (<[key' := n]> (test_metrics c)) c0)
  = if String.eqb key' key then n else counter key c.
Proof.
  unfold counter. cbn [test_metrics set_test_metrics].
  destruct (String.eqb_spec key' key) as [-> | Hne].
  - now rewrite lookup_insert_eq.
  - now rewrite lookup_insert_ne.
Qed.

Lemma metrics_ready_insert (key : string) (n : Z) (c c0 : Context) :
  metrics_ready c ->
  metrics_ready (set_test_metrics (<[key := n]> (test_metrics c)) c0).
Proof.
  intros Hready k Hk. cbn [test_metrics set_test_metrics].
  destruct (decide (key = k)) as [-> | Hne].
  - rewrite lookup_insert_eq. eauto.
  - rewrite lookup_insert_ne by exact Hne. now apply Hready.
Qed.

(** [after_scenario] adds one to exactly one counter, the one of the
    status, and never to the total *)
Lemma after_scenario_counts_one (scenario : Scenario) (c : Context) (w : W) :
  metrics_ready c ->
  exists c' w' o,
    after_scenario scenario (c, w) = (Ok tt, (c', w'), o)
    /\ metrics_ready c'
    /\ forall key,
         counter key c'
         = counter key c
           + (if String.eqb (status_counter (status scenario)) key then 1 else 0).
Proof.
  intros Hready.
  destruct (status_counter_ready c (status scenario) Hready) as [n Hn].
  rewrite (after_scenario_run scenario c w n Hn). do 3 eexists.
  split; [reflexivity |]. split.
  - intros k Hk.
    change (test_metrics (set_scenario_data None ?c0)) with (test_metrics c0).
    now apply metrics_ready_insert.
  - intros key.
    change (counter key (set_scenario_data None ?c0)) with (counter key c0).
    rewrite counter_insert.
    destruct (String.eqb_spec (status_counter (status scenario)) key) as [<- | _];
      [| lia].
    unfold counter. rewrite Hn. reflexivity.
Qed.

End MetricFacts.

(** one scenario on a simulated browser that can start sessions: the total
    and the counter of the status each grow by one *)
Lemma run_scenario_counts (scenario : Scenario) (c : Context) (s : Sim) :
  sim_import_error s = false -> metrics_ready c ->
  exists c' o,
    run_scenario scenario (c, s) = (Ok tt, (c', s), o)
    /\ metrics_ready c'
    /\ forall key,
         counter key c'
         = counter key c
           + (if String.eqb "total_tests" key then 1 else 0)
           + (if String.eqb (status_counter (status scenario)) key then 1 else 0).
Proof.
  intros Himport Hready.
  destruct (Hready "total_tests" (or_introl eq_refl)) as [n Hn].
  destruct (before_scenario_with_session scenario c s s s s 1%nat n) as [o Hbefore].
  - cbn [new_session sim_browser]. now rewrite Himport.
  - reflexivity.
  - cbn [env_headless driver_maximize_window sim_browser].
    now destruct (sim_headless s).
  - exact Hn.
  - set (c1 := set_test_metrics (<["total_tests" := n + 1]> (test_metrics c))
                 (set_page_objects {| config := config_manager c |}
                    (set_scenario_data (Some tt) (set_driver (Some 1%nat) c))))
      in Hbefore.
    assert (Hready1 : metrics_ready c1) by now apply metrics_ready_insert.
    destruct (after_scenario_counts_one scenario c1 s Hready1)
      as (c' & s' & o' & Hafter & Hready' & Hcount).
    assert (Hsame : s' = s).
    { destruct (status_counter_ready c1 (status scenario) Hready1) as [k Hk].
      rewrite (after_scenario_run scenario c1 s k Hk) in Hafter.
      injection Hafter as _ <- _.
      unfold teardown_events, capture_events.
      destruct (String.eqb (status scenario) "passed"),
        (String.eqb (status scenario) "failed"); reflexivity. }
    subst s'.
    exists c', (o ++ o'). split; [| split; [exact Hready' |]].
    + unfold run_scenario. exact (bind_ok _ _ _ _ _ _ _ _ _ Hbefore Hafter).
    + intros key. rewrite Hcount. unfold c1. rewrite counter_insert.
      destruct (String.eqb_spec "total_tests" key) as [<- | _]; [| lia].
      unfold counter. rewrite Hn. reflexivity.
Qed.

(** On a simulated browser that can start sessions, a run counts every
    scenario once in the total and once under its status. *)
Lemma run_scenarios_counts (scenarios : list Scenario) (s : Sim) :
  sim_import_error s = false ->
  forall c, metrics_ready c ->
  exists c' o,
    run_scenarios scenarios (c, s) = (Ok tt, (c', s), o)
    /\ metrics_ready c'
    /\ counter "total_tests" c'
       = counter "total_tests" c + Z.of_nat (length scenarios)
    /\ forall key, key <> "total_tests" ->
         counter key c' = counter key c + count_status key scenarios.
Proof.
  intros Himport. induction scenarios as [| scenario rest IH]; intros c Hready.
  - exists c, []. repeat split; [exact Hready | cbn; lia |].
    intros key _. unfold count_status. cbn. lia.
  - destruct (run_scenario_counts scenario c s Himport Hready)
      as (c1 & o1 & Hrun1 & Hready1 & Hcount1).
    destruct (IH c1 Hready1) as (c' & o' & Hrun & Hready' & Htotal & Hcount).
    exists c', (o1 ++ o'). split; [| split; [exact Hready' | split]].
    + cbn [run_scenarios]. exact (bind_ok _ _ _ _ _ _ _ _ _ Hrun1 Hrun).
    + rewrite Htotal, Hcount1.
      replace (String.eqb (status_counter (status scenario)) "total_tests")
        with false.
      * change (String.eqb "total_tests" "total_tests") with true.
        cbn [length]. lia.
      * unfold status_counter.
        destruct (String.eqb (status scenario) "passed"); [reflexivity |].
        destruct (String.eqb (status scenario) "failed"); reflexivity.
    + intros key Hkey. rewrite (Hcount key Hkey), Hcount1.
      destruct (String.eqb_spec "total_tests" key) as [<- | _]; [now destruct Hkey |].
      unfold count_status. cbn [List.filter].
      destruct (String.eqb (status_counter (status scenario)) key);
        cbn [length]; lia.
Qed.

(** the run of the specification: three scenarios of which the second
    fails, on a working browser *)
Lemma metrics_of_three_scenarios_with_one_failure :
  events ((run_scenarios three_scenarios ;; after_all)
            (before_all None, blank "https://www.hudl.com/login"))
  = events (run_scenarios three_scenarios
              (before_all None, blank "https://www.hudl.com/login"))
    ++ map EvPrint
         [MsgSummaryTop; MsgSummaryHeading; MsgSummaryRule; MsgTotalDuration;
          MsgTotalTests 3; MsgPassed 2; MsgFailed 1; MsgSkipped 0;
          MsgPassRate "66.67"; MsgSummaryRule]
    ++ EvOpenFile summary_file
       :: map (EvFileWrite summary_file)
            [MsgFileTitle; MsgFileRule; MsgExecutionDate; MsgDuration;
             MsgTotalTests 3; MsgPassed 2; MsgFailed 1; MsgSkipped 0;
             MsgPassRate "66.67"]
    ++ [EvCloseFile summary_file].
Proof. vm_compute. reflexivity. Qed.

(** C7 fails on this input.  When the WebDriver cannot be imported,
    [before_scenario] returns before it counts the scenario, while
    [after_scenario] still counts it under its status: after three failed
    scenarios the summary reports a total of 0 with 3 failures, and no
    pass rate. *)
Theorem total_not_counted_without_webdriver :
  let run := (run_scenarios three_failed_scenarios ;; after_all)
               (before_all None,
                without_webdriver (blank "https://www.hudl.com/login")) in
  outcome run = Ok tt
  /\ test_metrics (fst (final run)) !! "total_tests" = Some 0
  /\ test_metrics (fst (final run)) !! "passed_tests" = Some 0
  /\ test_metrics (fst (final run)) !! "failed_tests" = Some 3
  /\ test_metrics (fst (final run)) !! "skipped_tests" = Some 0
  /\ List.filter (fun ev => match ev with
                            | EvPrint (MsgTotalTests _) | EvPrint (MsgPassed _)
                            | EvPrint (MsgFailed _) | EvPrint (MsgSkipped _)
                            | EvPrint (MsgPassRate _) => true
                            | _ => false
                            end) (events run)
     = [EvPrint (MsgTotalTests 0); EvPrint (MsgPassed 0); EvPrint (MsgFailed 3);
        EvPrint (MsgSkipped 0)].
Proof. cbv zeta. repeat split; vm_compute; reflexivity. Qed.

(* ===================================================================== *)
(** ** The fallback loops of the base page *)
(* ===================================================================== *)

Section AttemptLoop.
Context {W : Type}.
Variable attempt : locator -> M W bool.
Variable loop : list locator -> M W bool.
Hypothesis loop_nil : forall w, loop [] w = (Ok false, w, []).
Hypothesis loop_cons : forall l rest w,
  loop (l :: rest) w
  = match attempt l w with
    | (Ok b, w1, o) => (Ok b, w1, o)
    | (Raise e, w1, o) => let '(r, w2, o2) := loop rest w1 in (r, w2, o ++ o2)
    end.
Hypothesis attempt_true : forall l w b w1 o, attempt l w = (Ok b, w1, o) -> b = true.

Lemma loop_never_raises ls w : exists b, outcome (loop ls w) = Ok b.
Proof.
  revert w. induction ls as [| l rest IH]; intros w.
  - rewrite loop_nil. eexists. reflexivity.
  - rewrite loop_cons. destruct (attempt l w) as [[[b | e] w1] o].
    + eexists. reflexivity.
    + destruct (IH w1) as [b Hb]. exists b.
      destruct (loop rest w1) as [[r w2] o2]. exact Hb.
Qed.

Lemma loop_exhausted ls w fs w' :
  attempts_fail attempt ls w fs w' -> loop ls w = (Ok false, w', attempt_events fs).
Proof.
  induction 1 as [w | l ls w e o w1 fs w' Hl _ IH].
  - apply loop_nil.
  - rewrite loop_cons, Hl, IH. reflexivity.
Qed.

Lemma loop_false ls w :
  outcome (loop ls w) = Ok false -> exists fs w', attempts_fail attempt ls w fs w'.
Proof.
  revert w. induction ls as [| l rest IH]; intros w.
  - intros _. exists [], w. constructor.
  - rewrite loop_cons. destruct (attempt l w) as [[[b | e] w1] o] eqn:Hl.
    + rewrite (attempt_true _ _ _ _ _ Hl). discriminate.
    + intros Hrest. destruct (IH w1) as (fs & w' & Hfs).
      { destruct (loop rest w1) as [[r w2] o2]. exact Hrest. }
      exists ((e, o) :: fs), w'. econstructor; eassumption.
Qed.

Lemma loop_first_success pre l post w fs w1 w2 o :
  attempts_fail attempt pre w fs w1 ->
  attempt l w1 = (Ok true, w2, o) ->
  loop (pre ++ l :: post) w = (Ok true, w2, attempt_events fs ++ o).
Proof.
  induction 1 as [w | l0 ls w e o1 w1 fs w' Hl _ IH]; intros Hok.
  - cbn [app]. rewrite loop_cons, Hok. reflexivity.
  - cbn [app]. rewrite loop_cons, Hl, (IH Hok).
    unfold attempt_events. cbn [map concat snd]. rewrite app_assoc. reflexivity.
Qed.

Lemma loop_true ls w :
  outcome (loop ls w) = Ok true ->
  exists pre l post fs w1 w2 o,
    ls = pre ++ l :: post /\ attempts_fail attempt pre w fs w1
    /\ attempt l w1 = (Ok true, w2, o).
Proof.
  revert w. induction ls as [| l rest IH]; intros w.
  - rewrite loop_nil. discriminate.
  - rewrite loop_cons. destruct (attempt l w) as [[[b | e] w1] o] eqn:Hl.
    + intros _. pose proof (attempt_true _ _ _ _ _ Hl) as ->.
      exists [], l, rest, [], w, w1, o. repeat split; [constructor | exact Hl].
    + intros Hrest.
      destruct (IH w1) as (pre & l' & post & fs & w1' & w2 & o' & -> & Hpre & Hl').
      { destruct (loop rest w1) as [[r w2] o2]. exact Hrest. }
      exists (l :: pre), l', post, ((e, o) :: fs), w1', w2, o'.
      repeat split; [econstructor; eassumption | exact Hl'].
Qed.

End AttemptLoop.

Section BaseFallbacks.
Context {W : Type} `{Browser W}.

Lemma send_keys_attempt_true self text timeout l (w : W) b w1 o :
  send_keys_attempt self text timeout l w = (Ok b, w1, o) -> b = true.
Proof.
  unfold send_keys_attempt, find_element, until, call, mbind, M_bind, bind, mret, M_ret, ret.
  destruct (wait_until _ _ _ w) as [[el | e] w0]; [| discriminate].
  destruct (element_clear el w0) as [[[] | e] w2]; [| discriminate].
  destruct (element_send_keys el text w2) as [[[] | e] w3]; [| discriminate].
  intros [= <- _ _]. reflexivity.
Qed.

Lemma click_attempt_true self timeout l (w : W) b w1 o :
  click_attempt self timeout l w = (Ok b, w1, o) -> b = true.
Proof.
  unfold click_attempt, find_element, until, call, mbind, M_bind, bind, mret, M_ret, ret.
  destruct (wait_until _ _ _ w) as [[el | e] w0]; [| discriminate].
  destruct (element_click el w0) as [[[] | e] w2]; [| discriminate].
  intros [= <- _ _]. reflexivity.
Qed.

Lemma send_keys_with_fallback_cons self l rest text timeout (w : W) :
  send_keys_with_fallback self (l :: rest) text timeout w
  = match send_keys_attempt self text timeout l w with
    | (Ok b, w1, o) => (Ok b, w1, o)
    | (Raise e, w1, o) =>
        let '(r, w2, o2) := send_keys_with_fallback self rest text timeout w1 in
        (r, w2, o ++ o2)
    end.
Proof. reflexivity. Qed.

Lemma click_with_fallback_cons self l rest timeout (w : W) :
  click_with_fallback self (l :: rest) timeout w
  = match click_attempt self timeout l w with
    | (Ok b, w1, o) => (Ok b, w1, o)
    | (Raise e, w1, o) =>
        let '(r, w2, o2) := click_with_fallback self rest timeout w1 in
        (r, w2, o ++ o2)
    end.
Proof. reflexivity. Qed.

Lemma send_keys_with_fallback_never_raises self locators text timeout (w : W) :
  exists b, outcome (send_keys_with_fallback self locators text timeout w) = Ok b.
Proof.
  apply (loop_never_raises (send_keys_attempt self text timeout)
           (fun ls => send_keys_with_fallback self ls text timeout));
    first [reflexivity | intros; apply send_keys_with_fallback_cons].
Qed.

Lemma click_with_fallback_never_raises self locators timeout (w : W) :
  exists b, outcome (click_with_fallback self locators timeout w) = Ok b.
Proof.
  apply (loop_never_raises (click_attempt self timeout)
           (fun ls => click_with_fallback self ls timeout));
    first [reflexivity | intros; apply click_with_fallback_cons].
Qed.

(** X1.  Whatever the browser does, [send_keys_with_fallback] raises
    nothing: it returns a boolean.  It returns [False] exactly when the
    attempt on every locator of the list raised (the lookup, the clearing
    or the typing), and then its events are those of the failed attempts,
    in order. *)
Theorem send_keys_with_fallback_false_iff_exhausted
  (self : BasePage) (locators : list locator) (text : string) (timeout : Z) (w : W) :
  (exists b, outcome (send_keys_with_fallback self locators text timeout w) = Ok b)
  /\ (forall fs w',
        attempts_fail (send_keys_attempt self text timeout) locators w fs w' ->
        send_keys_with_fallback self locators text timeout w
        = (Ok false, w', attempt_events fs))
  /\ (outcome (send_keys_with_fallback self locators text timeout w) = Ok false ->
      exists fs w',
        attempts_fail (send_keys_attempt self text timeout) locators w fs w').
Proof.
  pose proof (send_keys_with_fallback_cons self) as Hcons.
  split; [| split].
  - apply send_keys_with_fallback_never_raises.
  - intros fs w'.
    apply (loop_exhausted (send_keys_attempt self text timeout)
             (fun ls => send_keys_with_fallback self ls text timeout));
      first [reflexivity | intros; apply Hcons].
  - apply (loop_false (send_keys_attempt self text timeout)
             (fun ls => send_keys_with_fallback self ls text timeout));
      first [reflexivity | apply send_keys_attempt_true | intros; apply Hcons].
Qed.

(** X2.  When the attempts of [send_keys_with_fallback] on the locators
    before some position all raise and the attempt at that position goes
    through, the method returns [True] and its events are those of the
    attempts up to that one: the locators after it are not tried.
    Conversely it returns [True] only in this way. *)
Theorem send_keys_with_fallback_stops_at_first_success
  (self : BasePage) (text : string) (timeout : Z) :
  (forall (pre post : list locator) (l : locator) (w w1 w2 : W)
          (fs : list (exn * list event)) (o : list event),
     attempts_fail (send_keys_attempt self text timeout) pre w fs w1 ->
     send_keys_attempt self text timeout l w1 = (Ok true, w2, o) ->
     send_keys_with_fallback self (pre ++ l :: post) text timeout w
     = (Ok true, w2, attempt_events fs ++ o))
  /\ (forall (locators : list locator) (w : W),
        outcome (send_keys_with_fallback self locators text timeout w) = Ok true ->
        exists pre l post fs w1 w2 o,
          locators = pre ++ l :: post
          /\ attempts_fail (send_keys_attempt self text timeout) pre w fs w1
          /\ send_keys_attempt self text timeout l w1 = (Ok true, w2, o)).
Proof.
  pose proof (send_keys_with_fallback_cons self) as Hcons.
  split.
  - intros pre post l w w1 w2 fs o.
    apply (loop_first_success (send_keys_attempt self text timeout)
             (fun ls => send_keys_with_fallback self ls text timeout));
      first [reflexivity | intros; apply Hcons].
  - intros locators w.
    apply (loop_true (send_keys_attempt self text timeout)
             (fun ls => send_keys_with_fallback self ls text timeout));
      first [reflexivity | apply send_keys_attempt_true | intros; apply Hcons].
Qed.

Lemma clicks_app (a b : list event) : clicks (a ++ b) = (clicks a + clicks b)%nat.
Proof.
  induction a as [| ev a IH]; [reflexivity |].
  destruct ev; cbn [app clicks]; rewrite ?IH; reflexivity.
Qed.

Lemma click_attempt_clicks self timeout l (w : W) :
  (clicks (events (click_attempt self timeout l w)) <= 1)%nat.
Proof.
  unfold click_attempt, find_element, until, call, mbind, M_bind, bind, mret, M_ret, ret,
    events.
  destruct (wait_until _ _ _ w) as [[el | e] w0]; [| cbn; lia].
  destruct (element_click el w0) as [[[] | e] w2]; cbn; lia.
Qed.

Lemma click_with_fallback_clicks self locators timeout (w : W) :
  (clicks (events (click_with_fallback self locators timeout w)) <= length locators)%nat.
Proof.
  revert w. induction locators as [| l rest IH]; intros w.
  - cbn. lia.
  - rewrite click_with_fallback_cons.
    pose proof (click_attempt_clicks self timeout l w) as Hone.
    destruct (click_attempt self timeout l w) as [[[b | e] w1] o].
    + cbn [events snd] in *. cbn [length]. lia.
    + specialize (IH w1).
      destruct (click_with_fallback self rest timeout w1) as [[r w2] o2].
      cbn [events snd] in *. rewrite clicks_app. cbn [length]. lia.
Qed.

(** X3.  Whatever the browser does, [click_with_fallback] raises nothing
    and clicks at most once per locator: a click that fails is not
    repeated, the next locator is tried.  It returns [True] at the first
    locator whose element is found and clicked, without trying the
    locators after it, and [False] when the attempt on every locator
    raised. *)
Theorem click_with_fallback_clicks_once_per_locator
  (self : BasePage) (locators : list locator) (timeout : Z) (w : W) :
  (exists b, outcome (click_with_fallback self locators timeout w) = Ok b)
  /\ (clicks (events (click_with_fallback self locators timeout w))
      <= length locators)%nat
  /\ (forall pre l post fs w1 w2 o,
        locators = pre ++ l :: post ->
        attempts_fail (click_attempt self timeout) pre w fs w1 ->
        click_attempt self timeout l w1 = (Ok true, w2, o) ->
        click_with_fallback self locators timeout w
        = (Ok true, w2, attempt_events fs ++ o))
  /\ (forall fs w',
        attempts_fail (click_attempt self timeout) locators w fs w' ->
        click_with_fallback self locators timeout w
        = (Ok false, w', attempt_events fs)).
Proof.
  pose proof (click_with_fallback_cons self) as Hcons.
  split; [| split; [| split]].
  - apply click_with_fallback_never_raises.
  - apply click_with_fallback_clicks.
  - intros pre l post fs w1 w2 o ->.
    apply (loop_first_success (click_attempt self timeout)
             (fun ls => click_with_fallback self ls timeout));
      first [reflexivity | intros; apply Hcons].
  - intros fs w'.
    apply (loop_exhausted (click_attempt self timeout)
             (fun ls => click_with_fallback self ls timeout));
      first [reflexivity | intros; apply Hcons].
Qed.

End BaseFallbacks.

Section VisibleFallback.
Context {W : Type} `{Browser W}.

Lemma try_visible_run self l timeout (w : W) :
  try_except (is_element_visible self l timeout)
    (any_exception (fun _ => mret false)) w
  = match wait_until Visibility l timeout w with
    | (Ok _, w1) => (Ok true, w1, [EvWait Visibility l timeout])
    | (Raise _, w1) => (Ok false, w1, [EvWait Visibility l timeout])
    end.
Proof.
  unfold is_element_visible, try_except, any_exception, only, until, call,
    mbind, M_bind, bind, mret, M_ret, ret.
  destruct (wait_until Visibility l timeout w) as [[el | e] w1]; [reflexivity |].
  destruct (is_class TimeoutException e); reflexivity.
Qed.

Lemma visible_fallback_cons self l rest element_name timeout (w : W) :
  is_element_visible_with_fallback self (l :: rest) element_name timeout w
  = match wait_until Visibility l timeout w with
    | (Ok _, w1) => (Ok true, w1, [EvWait Visibility l timeout])
    | (Raise _, w1) =>
        let '(r, w2, o2) :=
          is_element_visible_with_fallback self rest element_name timeout w1 in
        (r, w2, EvWait Visibility l timeout :: o2)
    end.
Proof.
  cbn [is_element_visible_with_fallback].
  unfold mbind at 1. unfold M_bind, bind. rewrite try_visible_run.
  destruct (wait_until Visibility l timeout w) as [[el | e] w1]; reflexivity.
Qed.

Lemma visible_fallback_after_failures self pre rest element_name timeout (w w1 : W) :
  waits_raise Visibility timeout pre w w1 ->
  forall r w2 o,
    is_element_visible_with_fallback self rest element_name timeout w1 = (r, w2, o) ->
    is_element_visible_with_fallback self (pre ++ rest) element_name timeout w
    = (r, w2, wait_events Visibility timeout pre ++ o).
Proof.
  induction 1 as [w | l ls w e w1 w' Hl _ IH]; intros r w2 o Hrest.
  - exact Hrest.
  - cbn [app]. rewrite visible_fallback_cons, Hl, (IH _ _ _ Hrest). reflexivity.
Qed.

(** X4.  Whatever the browser does, [is_element_visible_with_fallback]
    raises nothing.  It returns [True] at the first locator whose wait
    for a visible element succeeds, without trying the locators after
    it, and [False] when the wait on every locator raised, a timeout or
    any other failure, whereas [is_element_visible] itself lets a failure
    that is not a timeout through. *)
Theorem visible_with_fallback_absorbs_every_failure
  (self : BasePage) (locators : list locator) (element_name : string)
  (timeout : Z) (w : W) :
  (exists b,
     outcome (is_element_visible_with_fallback self locators element_name timeout w)
     = Ok b)
  /\ (forall pre l post el w1 w2,
        locators = pre ++ l :: post ->
        waits_raise Visibility timeout pre w w1 ->
        wait_until Visibility l timeout w1 = (Ok el, w2) ->
        is_element_visible_with_fallback self locators element_name timeout w
        = (Ok true, w2, wait_events Visibility timeout (pre ++ [l])))
  /\ (forall w',
        waits_raise Visibility timeout locators w w' ->
        is_element_visible_with_fallback self locators element_name timeout w
        = (Ok false, w', wait_events Visibility timeout locators))
  /\ (forall l e w1,
        wait_until Visibility l timeout w = (Raise e, w1) ->
        is_class TimeoutException e = false ->
        is_element_visible self l timeout w
        = (Raise e, w1, [EvWait Visibility l timeout])).
Proof.
  split; [| split; [| split]].
  - revert w. induction locators as [| l rest IH]; intros w.
    + eexists. reflexivity.
    + rewrite visible_fallback_cons.
      destruct (wait_until Visibility l timeout w) as [[el | e] w1].
      * eexists. reflexivity.
      * destruct (IH w1) as [b Hb]. exists b.
        destruct (is_element_visible_with_fallback self rest element_name timeout w1)
          as [[r w2] o2]. exact Hb.
  - intros pre l post el w1 w2 -> Hpre Hl.
    unfold wait_events. rewrite map_app. fold (wait_events Visibility timeout pre).
    apply (visible_fallback_after_failures _ _ _ _ _ _ _ Hpre).
    rewrite visible_fallback_cons, Hl. reflexivity.
  - intros w' Hall.
    pose proof (visible_fallback_after_failures self locators [] element_name timeout
                  w w' Hall (Ok false) w' [] eq_refl) as Hrun.
    rewrite !app_nil_r in Hrun. exact Hrun.
  - intros l e w1 Hl He.
    unfold is_element_visible, try_except, only, until, call,
      mbind, M_bind, bind.
    rewrite Hl, He. reflexivity.
Qed.

End VisibleFallback.

(* ===================================================================== *)
(** ** More on the click with retry *)
(* ===================================================================== *)

Section ClickRetryEnds.
Context {W : Type} `{Browser W}.

(** X5.  In [_click_with_retry], a click failure that is not a stale
    reference ends the retries at once.  When it is an
    [ElementNotInteractableException] the element is clicked once through
    a script and the outcome of the script is the outcome of the method;
    any other exception propagates.  Both happen whether or not stale
    failures came first. *)
Theorem click_retry_ends_at_other_failures
  (self : BasePage) (el : element) (max_attempts : Z) (n : nat)
  (w w1 w2 : W) (e : exn) :
  stale_clicks el n w w1 ->
  Z.of_nat n < max_attempts ->
  element_click el w1 = (Raise e, w2) ->
  (is_class ElementNotInteractableException e = true ->
   _click_with_retry self el max_attempts w
   = (fst (script_click el w2), snd (script_click el w2),
      retry_events el n ++ [EvScriptClick el]))
  /\ (is_class StaleElementReferenceException e = false ->
      is_class ElementNotInteractableException e = false ->
      _click_with_retry self el max_attempts w = (Raise e, w2, retry_events el n)).
Proof.
  intros Hstale Hn Hclick. unfold _click_with_retry, retry_events.
  rewrite (range_split max_attempts n Hn). split.
  - intros He.
    assert (Hs : is_class StaleElementReferenceException e = false).
    { unfold is_class in *. destruct (exn_kind e); try discriminate; reflexivity. }
    rewrite <- app_assoc.
    apply (click_attempts_after_stale _ _ _ _ _ Hstale); [lia |].
    cbn [_click_attempts]. unfold try_except, call. rewrite Hclick, Hs, He.
    destruct (script_click el w2) as [r w3]. reflexivity.
  - intros Hs He.
    apply (click_attempts_after_stale _ _ _ _ _ Hstale); [lia |].
    cbn [_click_attempts]. unfold try_except, call. rewrite Hclick, Hs, He.
    reflexivity.
Qed.

Lemma click_attempts_cons el max_attempts attempt rest (w : W) :
  _click_attempts el max_attempts (attempt :: rest) w
  = match element_click el w with
    | (Ok a, w1) => (Ok a, w1, [EvClick el])
    | (Raise e, w1) =>
        if is_class StaleElementReferenceException e then
          if attempt =? max_attempts - 1 then (Raise e, w1, [EvClick el])
          else let '(r, w2, o) :=
                 _click_attempts el max_attempts rest (time_sleep 500 w1) in
               (r, w2, EvClick el :: EvSleep 500 :: o)
        else if is_class ElementNotInteractableException e then
          let '(r, w2) := script_click el w1 in
          (r, w2, [EvClick el; EvScriptClick el])
        else (Raise e, w1, [EvClick el])
    end.
Proof.
  cbn [_click_attempts]. unfold try_except, call.
  destruct (element_click el w) as [[a | e] w1]; [reflexivity |].
  destruct (is_class StaleElementReferenceException e).
  - destruct (attempt =? max_attempts - 1); [reflexivity |].
    unfold mbind, M_bind, bind, sleep.
    destruct (_click_attempts el max_attempts rest (time_sleep 500 w1))
      as [[r w2] o]. reflexivity.
  - destruct (is_class ElementNotInteractableException e); [| reflexivity].
    destruct (script_click el w1) as [r w2]. reflexivity.
Qed.

Lemma click_attempts_bounds el max_attempts (n k : nat) (w : W) :
  Z.of_nat (k + S n) = max_attempts ->
  (1 <= clicks (events (_click_attempts el max_attempts
                          (map Z.of_nat (seq k (S n))) w)) <= S n)%nat
  /\ (pauses (events (_click_attempts el max_attempts
                        (map Z.of_nat (seq k (S n))) w)) + 1
      = clicks (events (_click_attempts el max_attempts
                          (map Z.of_nat (seq k (S n))) w)))%nat.
Proof.
  revert k w. induction n as [| n IH]; intros k w Hk;
    rewrite <- cons_seq; cbn [map];
    rewrite click_attempts_cons;
    destruct (element_click el w) as [[[] | e] w1]; try (cbn; lia);
    destruct (is_class StaleElementReferenceException e);
    try (destruct (is_class ElementNotInteractableException e);
         [destruct (script_click el w1) as [r w2] |]; cbn; lia).
  - destruct (Z.eqb_spec (Z.of_nat k) (max_attempts - 1)) as [_ | Hmore]; [| lia].
    cbn. lia.
  - destruct (Z.eqb_spec (Z.of_nat k) (max_attempts - 1)) as [Hlast | _]; [lia |].
    specialize (IH (S k) (time_sleep 500 w1) ltac:(lia)).
    destruct (_click_attempts el max_attempts
                (map Z.of_nat (seq (S k) (S n))) (time_sleep 500 w1))
      as [[r w2] o2].
    cbn [events snd app clicks pauses] in *. lia.
Qed.

(** X6.  Whatever the browser does, [_click_with_retry] clicks at least
    once and at most [max_attempts] times when [max_attempts] is at least
    one, and pauses after every click but the last.  With [max_attempts]
    at zero or below it clicks nothing and returns as if the click had
    been made. *)
Theorem click_with_retry_attempt_bounds
  (self : BasePage) (el : element) (max_attempts : Z) (w : W) :
  (max_attempts <= 0 -> _click_with_retry self el max_attempts w = (Ok tt, w, []))
  /\ (1 <= max_attempts ->
      1 <= Z.of_nat (clicks (events (_click_with_retry self el max_attempts w)))
        <= max_attempts
      /\ (pauses (events (_click_with_retry self el max_attempts w)) + 1
          = clicks (events (_click_with_retry self el max_attempts w)))%nat).
Proof.
  unfold _click_with_retry, range. split.
  - intros Hmax. replace (Z.to_nat max_attempts) with O by lia. reflexivity.
  - intros Hmax.
    destruct (Z.to_nat max_attempts) as [| n] eqn:Hn; [lia |].
    destruct (click_attempts_bounds el max_attempts n 0 w ltac:(lia))
      as [Hclicks Hpauses].
    split; [lia | exact Hpauses].
Qed.

End ClickRetryEnds.

(* ===================================================================== *)
(** ** The fallback loops and the retry on sample pages *)
(* ===================================================================== *)

Lemma send_keys_with_fallback_false_iff_exhausted_witness :
  send_keys_with_fallback default_page [EMAIL_FIELD; EMAIL_FIELD_ALT] "a@b.co" 3
    page_with_typed_email
  = (Ok false, page_with_typed_email,
     [EvWait Presence EMAIL_FIELD 3; EvWait Presence EMAIL_FIELD_ALT 3]).
Proof.
  apply (proj1 (proj2 (send_keys_with_fallback_false_iff_exhausted default_page
                         [EMAIL_FIELD; EMAIL_FIELD_ALT] "a@b.co" 3
                         page_with_typed_email))
           [(timeout_exn, [EvWait Presence EMAIL_FIELD 3]);
            (timeout_exn, [EvWait Presence EMAIL_FIELD_ALT 3])]
           page_with_typed_email).
  apply attempts_fail_cons with (w1 := page_with_typed_email); [reflexivity |].
  apply attempts_fail_cons with (w1 := page_with_typed_email); [reflexivity |].
  apply attempts_fail_nil.
Defined.

Lemma send_keys_with_fallback_stops_at_first_success_witness :
  send_keys_with_fallback default_page
    ([EMAIL_FIELD; EMAIL_FIELD_ALT] ++ EMAIL_FIELD_TYPE :: [EMAIL_FIELD_NAME_PATTERN])
    "a@b.co" 3 page_with_typed_email
  = (Ok true, page_with_typed_email,
     [EvWait Presence EMAIL_FIELD 3; EvWait Presence EMAIL_FIELD_ALT 3;
      EvWait Presence EMAIL_FIELD_TYPE 3; EvClear 8%nat; EvSendKeys 8%nat "a@b.co"]).
Proof.
  apply (proj1 (send_keys_with_fallback_stops_at_first_success default_page "a@b.co" 3)
           [EMAIL_FIELD; EMAIL_FIELD_ALT] [EMAIL_FIELD_NAME_PATTERN] EMAIL_FIELD_TYPE
           page_with_typed_email page_with_typed_email page_with_typed_email
           [(timeout_exn, [EvWait Presence EMAIL_FIELD 3]);
            (timeout_exn, [EvWait Presence EMAIL_FIELD_ALT 3])]
           [EvWait Presence EMAIL_FIELD_TYPE 3; EvClear 8%nat;
            EvSendKeys 8%nat "a@b.co"]).
  - apply attempts_fail_cons with (w1 := page_with_typed_email); [reflexivity |].
    apply attempts_fail_cons with (w1 := page_with_typed_email); [reflexivity |].
    apply attempts_fail_nil.
  - reflexivity.
Defined.

Lemma click_with_fallback_clicks_once_per_locator_witness :
  click_with_fallback default_page [CONTINUE_BUTTON_ALT; CONTINUE_BUTTON] 3
    (page_with_stale_button 1)
  = (Ok false, sim_after_click (page_with_stale_button 1),
     [EvWait Presence CONTINUE_BUTTON_ALT 3; EvWait Presence CONTINUE_BUTTON 3;
      EvClick 4%nat]).
Proof.
  apply (proj2 (proj2 (proj2 (click_with_fallback_clicks_once_per_locator
                                default_page [CONTINUE_BUTTON_ALT; CONTINUE_BUTTON] 3
                                (page_with_stale_button 1))))
           [(timeout_exn, [EvWait Presence CONTINUE_BUTTON_ALT 3]);
            (stale_exn, [EvWait Presence CONTINUE_BUTTON 3; EvClick 4%nat])]
           (sim_after_click (page_with_stale_button 1))).
  apply attempts_fail_cons with (w1 := page_with_stale_button 1); [reflexivity |].
  apply attempts_fail_cons with (w1 := sim_after_click (page_with_stale_button 1));
    [reflexivity |].
  apply attempts_fail_nil.
Defined.

Lemma visible_with_fallback_absorbs_every_failure_witness :
  is_element_visible_with_fallback default_page [EMAIL_FIELD; EMAIL_FIELD_ALT]
    "email field" 2 (unreachable page_with_alt_email)
  = (Ok false, unreachable page_with_alt_email,
     [EvWait Visibility EMAIL_FIELD 2; EvWait Visibility EMAIL_FIELD_ALT 2])
  /\ is_element_visible default_page EMAIL_FIELD 2 (unreachable page_with_alt_email)
     = (Raise unreachable_exn, unreachable page_with_alt_email,
        [EvWait Visibility EMAIL_FIELD 2]).
Proof.
  pose proof (visible_with_fallback_absorbs_every_failure default_page
                [EMAIL_FIELD; EMAIL_FIELD_ALT] "email field" 2
                (unreachable page_with_alt_email)) as (_ & _ & Hfalse & Hraise).
  split.
  - apply (Hfalse (unreachable page_with_alt_email)).
    apply waits_raise_cons with (e := unreachable_exn)
                                (w1 := unreachable page_with_alt_email);
      [reflexivity |].
    apply waits_raise_cons with (e := unreachable_exn)
                                (w1 := unreachable page_with_alt_email);
      [reflexivity |].
    apply waits_raise_nil.
  - apply (Hraise EMAIL_FIELD unreachable_exn (unreachable page_with_alt_email));
      reflexivity.
Defined.

Lemma click_retry_ends_at_other_failures_witness :
  _click_with_retry default_page 4%nat 3 (covered (page_with_stale_button 0))
  = (Ok tt, covered (page_with_stale_button 0), [EvClick 4%nat; EvScriptClick 4%nat]).
Proof.
  apply (proj1 (click_retry_ends_at_other_failures default_page 4%nat 3 0
                  (covered (page_with_stale_button 0))
                  (covered (page_with_stale_button 0))
                  (covered (page_with_stale_button 0))
                  not_interactable_exn
                  (stale_clicks_O _ _) ltac:(lia) eq_refl)).
  reflexivity.
Defined.

Lemma click_with_retry_attempt_bounds_witness :
  _click_with_retry default_page 4%nat 0 (page_with_stale_button 2)
  = (Ok tt, page_with_stale_button 2, [])
  /\ (pauses (events (_click_with_retry default_page 4%nat 3 (page_with_stale_button 2)))
      + 1
      = clicks (events (_click_with_retry default_page 4%nat 3
                          (page_with_stale_button 2))))%nat.
Proof.
  split.
  - apply (proj1 (click_with_retry_attempt_bounds default_page 4%nat 0
                    (page_with_stale_button 2))).
    lia.
  - apply (proj2 (click_with_retry_attempt_bounds default_page 4%nat 3
                    (page_with_stale_button 2))).
    lia.
Defined.

(* ===================================================================== *)
(** ** Texts read from the page *)
(* ===================================================================== *)

Lemma rev_string_append (a b : string) :
  rev_string (a +:+ b) = rev_string b +:+ rev_string a.
Proof.
  induction a as [| c a IH].
  - rewrite append_nil_l, append_nil_r. reflexivity.
  - rewrite append_cons. cbn [rev_string]. rewrite IH, append_assoc. reflexivity.
Qed.

Lemma rev_string_involutive (s : string) : rev_string (rev_string s) = s.
Proof.
  induction s as [| c s IH]; [reflexivity |].
  cbn [rev_string]. rewrite rev_string_append, IH. reflexivity.
Qed.

Lemma lstrip_with_head (p : ascii -> bool) (s : string) :
  match lstrip_with p s with
  | String c _ => p c = false
  | EmptyString => True
  end.
Proof.
  induction s as [| c s IH]; [exact I |].
  cbn [lstrip_with]. destruct (p c) eqn:Hc; [exact IH | exact Hc].
Qed.

Lemma lstrip_with_fixed (p : ascii -> bool) (s : string) :
  match s with String c _ => p c = false | EmptyString => True end ->
  lstrip_with p s = s.
Proof.
  destruct s as [| c s]; [reflexivity |]. cbn [lstrip_with]. now intros ->.
Qed.

Lemma rstrip_with_keeps_head (p : ascii -> bool) (s : string) :
  match s with String c _ => p c = false | EmptyString => True end ->
  match rstrip_with p s with
  | String c _ => p c = false
  | EmptyString => s = EmptyString
  end.
Proof.
  destruct s as [| c s]; [reflexivity |]. intros Hc.
  unfold rstrip_with. cbn [rev_string].
  rewrite (lstrip_with_append p _ c EmptyString Hc), rev_string_append.
  cbn [rev_string]. rewrite append_nil_l, append_cons. exact Hc.
Qed.

Lemma strip_with_fixed (p : ascii -> bool) (s : string) :
  strip_with p (strip_with p s) = strip_with p s.
Proof.
  unfold strip_with.
  pose proof (rstrip_with_keeps_head p _ (lstrip_with_head p s)) as Hhead.
  rewrite (lstrip_with_fixed p (rstrip_with p (lstrip_with p s))).
  - unfold rstrip_with. rewrite rev_string_involutive.
    rewrite (lstrip_with_fixed p (lstrip_with p _)); [reflexivity |].
    apply lstrip_with_head.
  - destruct (rstrip_with p (lstrip_with p s)); [exact I | exact Hhead].
Qed.

Lemma ends_with_space_rev (s : string) :
  ends_with_space s = starts_with_space (rev_string s).
Proof.
  induction s as [| c s IH]; [reflexivity |].
  cbn [rev_string]. destruct s as [| d s]; [reflexivity |].
  change (ends_with_space (String c (String d s))) with (ends_with_space (String d s)).
  rewrite IH. cbn [rev_string].
  destruct (rev_string s +:+ String d EmptyString) as [| x y] eqn:Hrev.
  - destruct (rev_string s); discriminate.
  - reflexivity.
Qed.

Lemma strip_trimmed (s : string) : trimmed (strip s).
Proof.
  unfold trimmed, strip. split; [apply strip_with_fixed | split].
  - unfold strip_with.
    pose proof (rstrip_with_keeps_head is_space _ (lstrip_with_head is_space s)) as Hhead.
    destruct (rstrip_with is_space (lstrip_with is_space s)); [reflexivity | exact Hhead].
  - rewrite ends_with_space_rev. unfold strip_with, rstrip_with.
    rewrite rev_string_involutive.
    pose proof (lstrip_with_head is_space
                  (rev_string (lstrip_with is_space s))) as Hhead.
    destruct (lstrip_with is_space (rev_string (lstrip_with is_space s)));
      [reflexivity | exact Hhead].
Qed.

Section StrippedReads.
Context {W : Type} `{Browser W}.

Lemma get_element_text_trimmed self l timeout (w : W) text :
  outcome (get_element_text self l timeout w) = Ok text -> trimmed text.
Proof.
  unfold get_element_text, find_visible_element, until, call, outcome,
    mbind, M_bind, bind, mret, M_ret, ret.
  destruct (wait_until _ _ _ w) as [[el | e] w1]; [| discriminate].
  destruct (element_text el w1) as [[t | e] w2]; [| discriminate].
  cbn. intros [= <-]. apply strip_trimmed.
Qed.


Lemma text_or_empty_run (read : M W string) (w : W) :
  (forall text, outcome (read w) = Ok text -> trimmed text) ->
  exists text,
    outcome (try_except read (any_exception (fun _ => mret "")) w) = Ok text
    /\ trimmed text
    /\ (forall e, outcome (read w) = Raise e -> text = "").
Proof.
  intros Htrim. unfold try_except, any_exception, outcome in *.
  destruct (read w) as [[[text | e] w1] o].
  - exists text. split; [reflexivity | split; [apply Htrim; reflexivity |]].
    discriminate.
  - exists "". split; [reflexivity | split; [| reflexivity]].
    repeat split.
Qed.

End StrippedReads.

Section TolerantReads.
Context {W : Type} `{Browser W}.

Lemma text_or_empty_reads self l timeout :
  reads_text_or_empty l (wait_timeout self timeout)
    (try_except (get_element_text self l timeout)
       (any_exception (fun _ => mret ""))).
Proof.
  intros w. split.
  - destruct (text_or_empty_run (get_element_text self l timeout) w
                (get_element_text_trimmed self l timeout w))
      as (text & Hok & Htrim & _).
    exists text. split; assumption.
  - intros e w1 Hwait.
    unfold try_except, any_exception, get_element_text, find_visible_element,
      until, call, mbind, M_bind, bind.
    rewrite Hwait. reflexivity.
Qed.

(** X8.  The readers that answer with an empty text instead of failing,
    [get_display_name] of the login page, [get_login_button_text] of the
    home page, [get_welcome_message] and [get_team_info] of the
    dashboard, raise nothing whatever the browser does: each returns a
    trimmed text, and the empty text when its wait for the element
    raises.  The display name is waited for ten seconds, the others for
    the explicit wait of the page. *)
Theorem tolerant_reads_give_text_or_empty (self : BasePage) :
  reads_text_or_empty DISPLAY_NAME 10 (get_display_name self)
  /\ reads_text_or_empty HomePage.LOGIN_BUTTON (self_wait self)
       (HomePage.get_login_button_text self)
  /\ reads_text_or_empty DashboardPage.WELCOME_MESSAGE (self_wait self)
       (DashboardPage.get_welcome_message self)
  /\ reads_text_or_empty DashboardPage.TEAM_INFO (self_wait self)
       (DashboardPage.get_team_info self).
Proof.
  split; [| split; [| split]].
  - exact (text_or_empty_reads self DISPLAY_NAME (Some 10)).
  - exact (text_or_empty_reads self HomePage.LOGIN_BUTTON None).
  - exact (text_or_empty_reads self DashboardPage.WELCOME_MESSAGE None).
  - exact (text_or_empty_reads self DashboardPage.TEAM_INFO None).
Qed.


End TolerantReads.


Lemma tolerant_reads_give_text_or_empty_witness :
  get_display_name default_page page_with_password_error
  = (Ok "", page_with_password_error, [EvWait Visibility DISPLAY_NAME 10]).
Proof.
  apply (proj2 (proj1 (tolerant_reads_give_text_or_empty default_page)
                  page_with_password_error)
           timeout_exn page_with_password_error).
  reflexivity.
Defined.


(* ===================================================================== *)
(** ** Field types, providers and the error check of the login page *)
(* ===================================================================== *)

Lemma lower_char_lower_char (c : ascii) : lower_char (lower_char c) = lower_char c.
Proof. destruct c as [[] [] [] [] [] [] [] []]; reflexivity. Qed.

Lemma lower_char_upper_char (c : ascii) : lower_char (upper_char c) = lower_char c.
Proof. destruct c as [[] [] [] [] [] [] [] []]; reflexivity. Qed.

Lemma upper_char_lower_char (c : ascii) : upper_char (lower_char c) = upper_char c.
Proof. destruct c as [[] [] [] [] [] [] [] []]; reflexivity. Qed.

Lemma is_alpha_lower_char (c : ascii) : is_alpha (lower_char c) = is_alpha c.
Proof. destruct c as [[] [] [] [] [] [] [] []]; reflexivity. Qed.

Lemma is_quote_lower_char (c : ascii) :
  Ascii.eqb (lower_char c) dquote || Ascii.eqb (lower_char c) squote
  = Ascii.eqb c dquote || Ascii.eqb c squote.
Proof. destruct c as [[] [] [] [] [] [] [] []]; reflexivity. Qed.

Lemma lower_lower (s : string) : lower (lower s) = lower s.
Proof.
  induction s as [| c s IH]; [reflexivity |].
  cbn [lower]. now rewrite lower_char_lower_char, IH.
Qed.

Lemma lower_upper (s : string) : lower (upper s) = lower s.
Proof.
  induction s as [| c s IH]; [reflexivity |].
  cbn [lower upper]. now rewrite lower_char_upper_char, IH.
Qed.

Lemma title_from_lower (b : bool) (s : string) :
  title_from b (lower s) = title_from b s.
Proof.
  revert b. induction s as [| c s IH]; intros b; [reflexivity |].
  cbn [lower title_from].
  now rewrite lower_char_lower_char, upper_char_lower_char, is_alpha_lower_char, IH.
Qed.

Lemma lower_append (a b : string) : lower (a +:+ b) = lower a +:+ lower b.
Proof.
  induction a as [| c a IH]; [reflexivity |].
  rewrite append_cons. cbn [lower]. now rewrite IH, append_cons.
Qed.

Lemma lower_rev_string (s : string) : lower (rev_string s) = rev_string (lower s).
Proof.
  induction s as [| c s IH]; [reflexivity |].
  cbn [rev_string lower]. now rewrite lower_append, IH.
Qed.

Lemma lower_lstrip_with (p : ascii -> bool) (s : string) :
  (forall c, p (lower_char c) = p c) ->
  lower (lstrip_with p s) = lstrip_with p (lower s).
Proof.
  intros Hp. induction s as [| c s IH]; [reflexivity |].
  cbn [lstrip_with lower]. rewrite Hp. destruct (p c); [exact IH | reflexivity].
Qed.

Lemma lower_strip_quotes (s : string) : lower (strip_quotes s) = strip_quotes (lower s).
Proof.
  unfold strip_quotes, strip_with, rstrip_with.
  rewrite lower_rev_string, !(lower_lstrip_with _ _ is_quote_lower_char),
    lower_rev_string, !(lower_lstrip_with _ _ is_quote_lower_char).
  reflexivity.
Qed.

Lemma normalised_provider_fixed (provider : string) :
  strip_quotes (lower (strip_quotes (lower provider))) = strip_quotes (lower provider).
Proof.
  rewrite lower_strip_quotes, lower_lower. apply strip_with_fixed.
Qed.

Section LoginChecks.
Context {W : Type} `{Browser W}.

(** X10.  [click_provider_login_button] decides on the provider name
    lowered and stripped of quotes: a name and its normal form behave
    alike, so the lowering the step does on its side changes nothing.
    For [google], [facebook] and [apple] the method is [click_element]
    on the button of the provider; for any other name it raises a
    [ValueError] naming the normal form and does not touch the
    browser. *)
Theorem provider_name_is_normalised
  (self : BasePage) (provider : string) (w : W) :
  click_provider_login_button self (lower provider) w
  = click_provider_login_button self provider w
  /\ click_provider_login_button self (strip_quotes (lower provider)) w
     = click_provider_login_button self provider w
  /\ (String.eqb (strip_quotes (lower provider)) "google" = true ->
      click_provider_login_button self provider w
      = click_element self GOOGLE_LOGIN_BUTTON None w)
  /\ (String.eqb (strip_quotes (lower provider)) "facebook" = true ->
      click_provider_login_button self provider w
      = click_element self FACEBOOK_LOGIN_BUTTON None w)
  /\ (String.eqb (strip_quotes (lower provider)) "apple" = true ->
      click_provider_login_button self provider w
      = click_element self APPLE_LOGIN_BUTTON None w)
  /\ (existsb (String.eqb (strip_quotes (lower provider))) known_providers = false ->
      click_provider_login_button self provider w
      = (Raise (Exn ValueError
                  (unsupported_provider_message (strip_quotes (lower provider)))),
         w, [])).
Proof.
  unfold click_provider_login_button.
  rewrite lower_lower, normalised_provider_fixed.
  split; [reflexivity | split; [reflexivity |]].
  unfold known_providers. cbn [existsb].
  destruct (String.eqb (strip_quotes (lower provider)) "google") eqn:Hg.
  { apply String.eqb_eq in Hg. rewrite Hg.
    repeat split; first [reflexivity | discriminate]. }
  destruct (String.eqb (strip_quotes (lower provider)) "facebook") eqn:Hf.
  { apply String.eqb_eq in Hf. rewrite Hf.
    repeat split; first [reflexivity | discriminate]. }
  destruct (String.eqb (strip_quotes (lower provider)) "apple") eqn:Ha.
  { apply String.eqb_eq in Ha. rewrite Ha.
    repeat split; first [reflexivity | discriminate]. }
  repeat split; first [reflexivity | discriminate].
Qed.

Lemma visible_step self l timeout (w : W) :
  is_element_visible self l timeout w
  = match wait_until Visibility l timeout w with
    | (Ok _, w1) => (Ok true, w1, [EvWait Visibility l timeout])
    | (Raise e, w1) =>
        if is_class TimeoutException e
        then (Ok false, w1, [EvWait Visibility l timeout])
        else (Raise e, w1, [EvWait Visibility l timeout])
    end.
Proof.
  unfold is_element_visible, try_except, only, until, call, mbind, M_bind, bind.
  destruct (wait_until Visibility l timeout w) as [[el | e] w1]; [reflexivity |].
  destruct (is_class TimeoutException e); reflexivity.
Qed.

Lemma or_else_visible_step self l timeout (b : M W bool) (w : W) :
  or_else (is_element_visible self l timeout) b w
  = match wait_until Visibility l timeout w with
    | (Ok _, w1) => (Ok true, w1, [EvWait Visibility l timeout])
    | (Raise e, w1) =>
        if is_class TimeoutException e
        then let '(r, w2, o) := b w1 in (r, w2, EvWait Visibility l timeout :: o)
        else (Raise e, w1, [EvWait Visibility l timeout])
    end.
Proof.
  unfold or_else. unfold mbind at 1. unfold M_bind, bind. rewrite visible_step.
  destruct (wait_until Visibility l timeout w) as [[el | e] w1]; [reflexivity |].
  destruct (is_class TimeoutException e); reflexivity.
Qed.

End LoginChecks.

Ltac split_error_locators Heq pre :=
  destruct pre as [| ? [| ? [| ? [| ? pre]]]]; cbn [app] in Heq;
  injection Heq as Heq; subst;
  try (destruct pre; discriminate).

Ltac run_timed_out_waits :=
  repeat match goal with
         | Hw : waits_time_out _ _ (_ :: _) _ _ |- _ => inversion Hw; subst; clear Hw
         | Hw : waits_time_out _ _ [] _ _ |- _ => inversion Hw; subst; clear Hw
         end;
  repeat (first [rewrite or_else_visible_step | rewrite visible_step];
          match goal with
          | Hx : wait_until _ _ _ ?w = _ |- context [wait_until _ _ _ ?w] =>
              rewrite Hx
          end;
          try match goal with
              | Hc : is_class TimeoutException ?e = _
                |- context [is_class TimeoutException ?e] => rewrite Hc
              end);
  try reflexivity.

Section ErrorCheck.
Context {W : Type} `{Browser W}.

(** X11.  [has_error_message] waits for a visible element under the
    general error locator, then under the e-mail, the password and the
    generic login error locators, each for the error timeout.  It
    returns [True] at the first wait that succeeds, without making the
    waits after it, and [False] when the four waits time out; a wait
    that fails with anything but a timeout makes it raise that
    failure. *)
Theorem has_error_message_checks_in_order (self : BasePage) (w : W) :
  (forall pre l post el w1 w2,
     has_error_locators = pre ++ l :: post ->
     waits_time_out Visibility (error_timeout self) pre w w1 ->
     wait_until Visibility l (error_timeout self) w1 = (Ok el, w2) ->
     has_error_message self w
     = (Ok true, w2, wait_events Visibility (error_timeout self) (pre ++ [l])))
  /\ (forall w',
        waits_time_out Visibility (error_timeout self) has_error_locators w w' ->
        has_error_message self w
        = (Ok false, w', wait_events Visibility (error_timeout self) has_error_locators))
  /\ (forall pre l post e w1 w2,
        has_error_locators = pre ++ l :: post ->
        waits_time_out Visibility (error_timeout self) pre w w1 ->
        wait_until Visibility l (error_timeout self) w1 = (Raise e, w2) ->
        is_class TimeoutException e = false ->
        has_error_message self w
        = (Raise e, w2, wait_events Visibility (error_timeout self) (pre ++ [l]))).
Proof.
  unfold has_error_message, has_error_locators. split; [| split].
  - intros pre l post el w1 w2 Heq Hpre Hl.
    split_error_locators Heq pre; run_timed_out_waits.
  - intros w' Hall. run_timed_out_waits.
  - intros pre l post e w1 w2 Heq Hpre Hl He.
    split_error_locators Heq pre; run_timed_out_waits.
Qed.

End ErrorCheck.

Lemma provider_name_is_normalised_witness :
  click_provider_login_button default_page "'Google'" page_with_password_error
  = click_element default_page GOOGLE_LOGIN_BUTTON None page_with_password_error
  /\ click_provider_login_button default_page "twitter" page_with_password_error
     = (Raise (Exn ValueError "Unsupported social login provider: twitter"),
        page_with_password_error, []).
Proof.
  split.
  - apply (proj1 (proj2 (proj2 (provider_name_is_normalised default_page "'Google'"
                                  page_with_password_error)))).
    reflexivity.
  - apply (proj2 (proj2 (proj2 (proj2 (proj2
             (provider_name_is_normalised default_page "twitter"
                page_with_password_error)))))).
    reflexivity.
Defined.

Lemma has_error_message_checks_in_order_witness :
  has_error_message default_page page_with_password_error
  = (Ok true, page_with_password_error,
     [EvWait Visibility ERROR_MESSAGE 3; EvWait Visibility EMAIL_ERROR 3;
      EvWait Visibility PASSWORD_ERROR 3]).
Proof.
  apply (proj1 (has_error_message_checks_in_order default_page
                  page_with_password_error)
           [ERROR_MESSAGE; EMAIL_ERROR] PASSWORD_ERROR [GENERIC_ERROR] 6%nat
           page_with_password_error page_with_password_error eq_refl).
  - apply waits_time_out_cons with (e := timeout_exn) (w1 := page_with_password_error);
      [reflexivity | reflexivity |].
    apply waits_time_out_cons with (e := timeout_exn) (w1 := page_with_password_error);
      [reflexivity | reflexivity |].
    apply waits_time_out_nil.
  - reflexivity.
Defined.

(* ===================================================================== *)
(** ** Field types of the login page *)
(* ===================================================================== *)

Lemma field_locators_distinct :
  forall key ls, In (key, ls) field_locator_map -> ls <> [] /\ NoDup ls.
Proof.
  intros key ls Hin. cbn [In field_locator_map] in Hin.
  destruct Hin as [[= <- <-] | [[= <- <-] | [[= <- <-] | []]]];
    (split; [discriminate | apply (bool_decide_unpack _); vm_compute; reflexivity]).
Qed.

(** X12.  [_get_field_locators] looks the field type up whatever its
    case.  For a type whose lower case is [email], [password] or
    [continue_button] it returns the locators of the field, a list of
    distinct locators that is never empty, and returns the same list for
    the lower and the upper case of the type.  For any other type it
    raises a [ValueError] whose message holds the type as it was given,
    and so it does for every case of that type. *)
Theorem field_locators_lookup_ignores_case (field_type : string) :
  (forall ls, _get_field_locators field_type = Ok ls ->
     ls <> [] /\ NoDup ls
     /\ _get_field_locators (lower field_type) = Ok ls
     /\ _get_field_locators (upper field_type) = Ok ls
     /\ In (lower field_type) ["email"; "password"; "continue_button"])
  /\ (forall e, _get_field_locators field_type = Raise e ->
        e = Exn ValueError (unsupported_field_locators_message field_type)
        /\ str_in field_type (exn_text e) = true
        /\ _get_field_locators (lower field_type)
           = Raise (Exn ValueError
                      (unsupported_field_locators_message (lower field_type)))
        /\ _get_field_locators (upper field_type)
           = Raise (Exn ValueError
                      (unsupported_field_locators_message (upper field_type)))
        /\ ~ In (lower field_type) ["email"; "password"; "continue_button"]).
Proof.
  unfold _get_field_locators. rewrite lower_lower, lower_upper.
  cbn [dict_get field_locator_map].
  destruct (String.eqb_spec "email" (lower field_type)) as [He | He];
    [| destruct (String.eqb_spec "password" (lower field_type)) as [Hp | Hp];
       [| destruct (String.eqb_spec "continue_button" (lower field_type))
            as [Hc | Hc]]].
  - split; [| intros e; discriminate]. intros ls [= <-].
    destruct (field_locators_distinct "email" _ ltac:(cbn; auto)) as [Hne Hnd].
    repeat (split; [first [exact Hne | exact Hnd | reflexivity] |]).
    rewrite <- He. cbn. auto.
  - split; [| intros e; discriminate]. intros ls [= <-].
    destruct (field_locators_distinct "password" _ ltac:(cbn; auto)) as [Hne Hnd].
    repeat (split; [first [exact Hne | exact Hnd | reflexivity] |]).
    rewrite <- Hp. cbn. auto.
  - split; [| intros e; discriminate]. intros ls [= <-].
    destruct (field_locators_distinct "continue_button" _ ltac:(cbn; auto))
      as [Hne Hnd].
    repeat (split; [first [exact Hne | exact Hnd | reflexivity] |]).
    rewrite <- Hc. cbn. auto.
  - split; [intros ls; discriminate |]. intros e [= <-].
    split; [reflexivity |]. split; [apply str_in_intro |].
    split; [reflexivity |]. split; [reflexivity |].
    cbn [In]. intros [Hin | [Hin | [Hin | []]]]; congruence.
Qed.

Lemma title_lower (s : string) : title (lower s) = title s.
Proof. apply title_from_lower. Qed.

Section FieldEntry.
Context {W : Type} `{Browser W}.

Lemma lift_ok_bind {A B} (a : A) (k : A -> M W B) (w : W) :
  (lift (Ok a) ≫= k) w = k a w.
Proof.
  unfold lift, mbind, M_bind, bind. destruct (k a w) as [[r w2] o2]. reflexivity.
Qed.

Lemma lift_raise_bind {A B} (e : exn) (k : A -> M W B) (w : W) :
  (lift (Raise e) ≫= k) w = (Raise e, w, []).
Proof. reflexivity. Qed.

(** X13.  [enter_field_value] first looks the field type up, and raises
    the [ValueError] of the lookup without touching the browser when the
    type is not supported.  Otherwise it tries the locators of the type in
    order, an attempt being the wait for a visible element, its clearing
    and the typing, and names the field by the type in title case
    followed by [entry], whatever the case the type was given in: when an
    attempt goes through, the locators after it are not tried; when every
    attempt raises, a plain [Exception] built from that name is
    raised. *)
Theorem enter_field_value_tries_the_locators_of_the_type
  (self : BasePage) (field_type value : string) (w : W) :
  (forall e, _get_field_locators field_type = Raise e ->
     enter_field_value self field_type value w = (Raise e, w, []))
  /\ (forall ls, _get_field_locators field_type = Ok ls ->
        (forall pre l post fs w1 w2 o,
           ls = pre ++ l :: post ->
           attempts_fail (enter_value self value) pre w fs w1 ->
           enter_value self value l w1 = (Ok tt, w2, o) ->
           enter_field_value self field_type value w
           = (Ok tt, w2,
              failure_log (title (lower field_type) +:+ " entry") pre fs ++ o
              ++ [EvPrint (MsgActionOk (title (lower field_type) +:+ " entry") l)]))
        /\ (forall fs w',
              attempts_fail (enter_value self value) ls w fs w' ->
              enter_field_value self field_type value w
              = (Raise (Exn PlainException
                          (could_not_find_message
                             (title (lower field_type) +:+ " entry"))),
                 w', failure_log (title (lower field_type) +:+ " entry") ls fs))).
Proof.
  unfold enter_field_value. rewrite title_lower. split.
  - intros e ->. reflexivity.
  - intros ls ->. rewrite lift_ok_bind. fold (enter_value self value). split.
    + intros pre l post fs w1 w2 o -> Hpre Hl.
      pose proof (try_locators_after_failures self pre (l :: post)
                    (enter_value self value) (title field_type +:+ " entry")
                    w fs w1 Hpre) as Hrun.
      erewrite Hrun; [reflexivity |].
      cbn [_try_locators_with_action].
      rewrite (try_ok _ _ _ _ _ _
                 (bind_ok _ (fun _ => print (MsgActionOk _ l))
                    _ _ _ _ _ _ _ Hl eq_refl)).
      reflexivity.
    + intros fs w' Hall.
      pose proof (try_locators_after_failures self ls []
                    (enter_value self value) (title field_type +:+ " entry")
                    w fs w' Hall _ w' [] eq_refl) as Hrun.
      rewrite !app_nil_r in Hrun. rewrite Hrun. reflexivity.
Qed.

End FieldEntry.

Lemma field_locators_lookup_ignores_case_witness :
  _get_field_locators (upper "Continue_Button") = Ok [CONTINUE_BUTTON; CONTINUE_BUTTON_ALT]
  /\ _get_field_locators (upper "username")
     = Raise (Exn ValueError
                "Unsupported field type: USERNAME. Supported types: ['email', 'password', 'continue_button']").
Proof.
  assert (Hok : _get_field_locators "Continue_Button"
                = Ok [CONTINUE_BUTTON; CONTINUE_BUTTON_ALT]) by reflexivity.
  assert (Hraise : _get_field_locators "username"
                   = Raise (Exn ValueError
                              (unsupported_field_locators_message "username")))
    by reflexivity.
  split.
  - exact (proj1 (proj2 (proj2 (proj2
             (proj1 (field_locators_lookup_ignores_case "Continue_Button") _ Hok))))).
  - exact (proj1 (proj2 (proj2 (proj2
             (proj2 (field_locators_lookup_ignores_case "username") _ Hraise))))).
Defined.

Lemma enter_field_value_tries_the_locators_of_the_type_witness :
  enter_field_value default_page "EMAIL" "a@b.co" page_with_alt_email
  = (Ok tt, page_with_alt_email,
     [EvWait Visibility EMAIL_FIELD 20;
      EvPrint (MsgActionFailed "Email entry" EMAIL_FIELD timeout_exn);
      EvWait Visibility EMAIL_FIELD_ALT 20; EvClear 7%nat;
      EvSendKeys 7%nat "a@b.co";
      EvPrint (MsgActionOk "Email entry" EMAIL_FIELD_ALT)])
  /\ enter_field_value default_page "username" "a@b.co" page_with_alt_email
     = (Raise (Exn ValueError (unsupported_field_locators_message "username")),
        page_with_alt_email, []).
Proof.
  assert (Hok : _get_field_locators "EMAIL"
                = Ok ([EMAIL_FIELD] ++ EMAIL_FIELD_ALT
                      :: [EMAIL_FIELD_TYPE; EMAIL_FIELD_NAME_PATTERN;
                          EMAIL_FIELD_PLACEHOLDER])) by reflexivity.
  assert (Hraise : _get_field_locators "username"
                   = Raise (Exn ValueError
                              (unsupported_field_locators_message "username")))
    by reflexivity.
  split.
  - apply (proj1 (proj2 (enter_field_value_tries_the_locators_of_the_type
                           default_page "EMAIL" "a@b.co" page_with_alt_email) _ Hok)
             [EMAIL_FIELD] EMAIL_FIELD_ALT
             [EMAIL_FIELD_TYPE; EMAIL_FIELD_NAME_PATTERN; EMAIL_FIELD_PLACEHOLDER]
             [(timeout_exn, [EvWait Visibility EMAIL_FIELD 20])]
             page_with_alt_email page_with_alt_email
             [EvWait Visibility EMAIL_FIELD_ALT 20; EvClear 7%nat;
              EvSendKeys 7%nat "a@b.co"] eq_refl).
    + apply attempts_fail_cons with (w1 := page_with_alt_email); [reflexivity |].
      apply attempts_fail_nil.
    + reflexivity.
  - exact (proj1 (enter_field_value_tries_the_locators_of_the_type
                    default_page "username" "a@b.co" page_with_alt_email) _ Hraise).
Defined.

(* ===================================================================== *)
(** ** The home page, the password reset page and the dashboard *)
(* ===================================================================== *)

Lemma str_in_slash (s : string) : str_in "/" s = char_in "/" s.
Proof.
  induction s as [| c s IH]; [reflexivity |].
  cbn [str_in char_in String.prefix].
  destruct (ascii_dec "/" c) as [<- | Hne].
  - destruct s; reflexivity.
  - rewrite IH. destruct (Ascii.eqb_spec "/" c) as [Heq | _]; [contradiction |].
    reflexivity.
Qed.

Lemma ends_with_char_in (c : ascii) (s : string) :
  ends_with_char c s = true -> char_in c s = true.
Proof.
  induction s as [| d s IH]; [discriminate |].
  cbn [ends_with_char char_in]. destruct s as [| d' s].
  - intros Hd. apply Ascii.eqb_eq in Hd as ->. now rewrite Ascii.eqb_refl.
  - intros Hs. rewrite (IH Hs). apply orb_true_r.
Qed.

Section OtherPages.
Context {W : Type} `{Browser W}.

(** X14.  [is_on_home_page] of the home page answers [True] for every
    address that holds a slash, having read the address only: the page
    is not looked at.  The test on the end of the address never decides,
    since an address that ends with a slash holds one.  Only for an
    address without any slash is the login button waited for, and the
    answer is then the answer of that wait. *)
Theorem home_page_check_holds_for_any_url_with_a_slash
  (self : BasePage) (url : string) (w w1 : W) :
  driver_current_url w = (Ok url, w1) ->
  (char_in "/" url = true ->
   HomePage.is_on_home_page self w = (Ok true, w1, [EvCurrentUrl]))
  /\ (ends_with_char "/" url = true -> char_in "/" url = true)
  /\ (char_in "/" url = false ->
      HomePage.is_on_home_page self w
      = (outcome (is_element_present self HomePage.LOGIN_BUTTON 5 w1),
         final (is_element_present self HomePage.LOGIN_BUTTON 5 w1),
         EvCurrentUrl :: events (is_element_present self HomePage.LOGIN_BUTTON 5 w1))).
Proof.
  intros Hurl.
  assert (Hrun : get_current_url self w = (Ok url, w1, [EvCurrentUrl])).
  { unfold get_current_url, call. rewrite Hurl. reflexivity. }
  split; [| split].
  - intros Hslash. unfold HomePage.is_on_home_page.
    erewrite bind_ok; [| exact Hrun |].
    2:{ unfold HomePage.HOME_URL. rewrite str_in_slash, Hslash. reflexivity. }
    reflexivity.
  - apply ends_with_char_in.
  - intros Hslash. unfold HomePage.is_on_home_page.
    destruct (is_element_present self HomePage.LOGIN_BUTTON 5 w1) as [[r w2] o] eqn:Hp.
    erewrite bind_ok; [| exact Hrun |].
    2:{ unfold HomePage.HOME_URL. rewrite str_in_slash, Hslash.
        destruct (ends_with_char "/" url) eqn:Hend.
        - apply ends_with_char_in in Hend. congruence.
        - exact Hp. }
    reflexivity.
Qed.

Lemma find_element_with_fallback_never_raises self locators timeout (w : W) :
  exists r, outcome (find_element_with_fallback self locators timeout w) = Ok r.
Proof.
  revert w. induction locators as [| l rest IH]; intros w.
  - eexists. reflexivity.
  - cbn [find_element_with_fallback]. unfold try_except, any_exception.
    destruct ((el ← find_element self l (Some timeout); mret (Some el)) w)
      as [[[r | e] w1] o].
    + eexists. reflexivity.
    + destruct (IH w1) as [r Hr]. exists r.
      destruct (find_element_with_fallback self rest timeout w1) as [[r' w2] o2].
      exact Hr.
Qed.

(** X15.  On the password reset page, [enter_email] and [click_submit]
    raise in one case only, and raise then: when none of the locators of
    the element finds it, a [NoSuchElementException] of the page.  Once the element
    is found they return normally whatever [send_keys_with_fallback] or
    [click_with_fallback] then answers: the answer is dropped, so the
    call returns normally also when nothing could be typed or clicked
    (for the e-mail, when only the fourth or fifth locator finds the
    field, as the typing tries the first three only). *)
Theorem reset_page_actions_drop_the_answer_of_the_fallback
  (self : BasePage) (email : string) (w : W) :
  (forall el w1 o1,
     ResetPasswordPage.get_email_field self w = (Ok (Some el), w1, o1) ->
     exists b,
       outcome (send_keys_with_fallback self reset_typed_locators email 3 w1) = Ok b
       /\ ResetPasswordPage.enter_email self email w
          = (Ok tt,
             final (send_keys_with_fallback self reset_typed_locators email 3 w1),
             o1 ++ events (send_keys_with_fallback self reset_typed_locators
                             email 3 w1)))
  /\ (forall w1 o1,
        ResetPasswordPage.get_email_field self w = (Ok None, w1, o1) ->
        ResetPasswordPage.enter_email self email w
        = (Raise ResetPasswordPage.email_field_not_found, w1, o1))
  /\ (forall e,
        outcome (ResetPasswordPage.enter_email self email w) = Raise e ->
        e = ResetPasswordPage.email_field_not_found)
  /\ (forall el w1 o1,
        ResetPasswordPage.get_submit_button self w = (Ok (Some el), w1, o1) ->
        exists b,
          outcome (click_with_fallback self reset_clicked_locators 3 w1) = Ok b
          /\ ResetPasswordPage.click_submit self w
             = (Ok tt,
                final (click_with_fallback self reset_clicked_locators 3 w1),
                o1 ++ events (click_with_fallback self reset_clicked_locators 3 w1)))
  /\ (forall e,
        outcome (ResetPasswordPage.click_submit self w) = Raise e ->
        e = ResetPasswordPage.submit_button_not_found)
  /\ (forall w1 o1,
        ResetPasswordPage.get_submit_button self w = (Ok None, w1, o1) ->
        ResetPasswordPage.click_submit self w
        = (Raise ResetPasswordPage.submit_button_not_found, w1, o1)).
Proof.
  assert (Htyped : forall w1,
            exists b,
              outcome (send_keys_with_fallback self reset_typed_locators email 3 w1)
              = Ok b
              /\ (send_keys_with_fallback self reset_typed_locators email 3 ;; mret tt)
                   w1
                 = (Ok tt,
                    final (send_keys_with_fallback self reset_typed_locators email 3 w1),
                    events (send_keys_with_fallback self reset_typed_locators
                              email 3 w1))).
  { intros w1.
    destruct (send_keys_with_fallback_never_raises self reset_typed_locators
                email 3 w1) as [b Hb].
    exists b. split; [exact Hb |].
    unfold mbind, M_bind, bind, outcome, final, events in *.
    destruct (send_keys_with_fallback self reset_typed_locators email 3 w1)
      as [[r w2] o2].
    cbn in Hb. subst r. cbn. rewrite app_nil_r. reflexivity. }
  assert (Hclicked : forall w1,
            exists b,
              outcome (click_with_fallback self reset_clicked_locators 3 w1) = Ok b
              /\ (click_with_fallback self reset_clicked_locators 3 ;; mret tt) w1
                 = (Ok tt,
                    final (click_with_fallback self reset_clicked_locators 3 w1),
                    events (click_with_fallback self reset_clicked_locators 3 w1))).
  { intros w1.
    destruct (click_with_fallback_never_raises self reset_clicked_locators 3 w1)
      as [b Hb].
    exists b. split; [exact Hb |].
    unfold mbind, M_bind, bind, outcome, final, events in *.
    destruct (click_with_fallback self reset_clicked_locators 3 w1)
      as [[r w2] o2].
    cbn in Hb. subst r. cbn. rewrite app_nil_r. reflexivity. }
  split; [| split; [| split; [| split; [| split]]]].
  - intros el w1 o1 Hfound. destruct (Htyped w1) as (b & Hb & Hrun).
    exists b. split; [exact Hb |].
    unfold ResetPasswordPage.enter_email.
    exact (bind_ok _ _ _ _ _ _ _ _ _ Hfound Hrun).
  - intros w1 o1 Hnone. unfold ResetPasswordPage.enter_email.
    rewrite (bind_ok _ _ _ _ _ _ _ _ _ Hnone eq_refl). rewrite app_nil_r.
    reflexivity.
  - intros e. unfold ResetPasswordPage.enter_email.
    destruct (find_element_with_fallback_never_raises self
                [ResetPasswordPage.EMAIL_FIELD; ResetPasswordPage.EMAIL_FIELD_ALT;
                 ResetPasswordPage.EMAIL_FIELD_TYPE;
                 ResetPasswordPage.EMAIL_FIELD_NAME_PATTERN;
                 ResetPasswordPage.EMAIL_FIELD_PLACEHOLDER] 3 w) as [r Hr].
    change (outcome (ResetPasswordPage.get_email_field self w) = Ok r) in Hr.
    destruct (ResetPasswordPage.get_email_field self w) as [[r' w1] o1] eqn:Hfield.
    unfold outcome in Hr. cbn [fst] in Hr. subst r'. destruct r as [el |].
    + destruct (Htyped w1) as (b & _ & Hrun).
      rewrite (bind_ok _ _ _ _ _ _ _ _ _ Hfield Hrun). discriminate.
    + rewrite (bind_ok _ _ _ _ _ _ _ _ _ Hfield eq_refl). cbn. now intros [= <-].
  - intros el w1 o1 Hfound. destruct (Hclicked w1) as (b & Hb & Hrun).
    exists b. split; [exact Hb |].
    unfold ResetPasswordPage.click_submit.
    exact (bind_ok _ _ _ _ _ _ _ _ _ Hfound Hrun).
  - intros e. unfold ResetPasswordPage.click_submit.
    destruct (find_element_with_fallback_never_raises self
                reset_clicked_locators 3 w) as [r Hr].
    change (outcome (ResetPasswordPage.get_submit_button self w) = Ok r) in Hr.
    destruct (ResetPasswordPage.get_submit_button self w) as [[r' w1] o1] eqn:Hfield.
    unfold outcome in Hr. cbn [fst] in Hr. subst r'. destruct r as [el |].
    + destruct (Hclicked w1) as (b & _ & Hrun).
      rewrite (bind_ok _ _ _ _ _ _ _ _ _ Hfield Hrun). discriminate.
    + rewrite (bind_ok _ _ _ _ _ _ _ _ _ Hfield eq_refl). cbn. now intros [= <-].
  - intros w1 o1 Hnone. unfold ResetPasswordPage.click_submit.
    rewrite (bind_ok _ _ _ _ _ _ _ _ _ Hnone eq_refl). rewrite app_nil_r.
    reflexivity.
Qed.


End OtherPages.

Lemma home_page_check_holds_for_any_url_with_a_slash_witness :
  HomePage.is_on_home_page default_page dashboard_page
  = (Ok true, dashboard_page, [EvCurrentUrl]).
Proof.
  assert (Hurl : driver_current_url dashboard_page
                 = (Ok "https://app.example.com/home/dashboard?ref=x", dashboard_page))
    by reflexivity.
  apply (proj1 (home_page_check_holds_for_any_url_with_a_slash default_page
                  "https://app.example.com/home/dashboard?ref=x"
                  dashboard_page dashboard_page Hurl)).
  reflexivity.
Defined.

Lemma reset_page_actions_drop_the_answer_of_the_fallback_witness :
  ResetPasswordPage.enter_email default_page "a@b.co" reset_page_with_pattern_email
  = (Ok tt, reset_page_with_pattern_email,
     [EvWait Presence ResetPasswordPage.EMAIL_FIELD 3;
      EvWait Presence ResetPasswordPage.EMAIL_FIELD_ALT 3;
      EvWait Presence ResetPasswordPage.EMAIL_FIELD_TYPE 3;
      EvWait Presence ResetPasswordPage.EMAIL_FIELD_NAME_PATTERN 3;
      EvWait Presence ResetPasswordPage.EMAIL_FIELD 3;
      EvWait Presence ResetPasswordPage.EMAIL_FIELD_ALT 3;
      EvWait Presence ResetPasswordPage.EMAIL_FIELD_TYPE 3])
  /\ sends_keys (events (ResetPasswordPage.enter_email default_page "a@b.co"
                           reset_page_with_pattern_email)) = false.
Proof.
  assert (Hfound : ResetPasswordPage.get_email_field default_page
                     reset_page_with_pattern_email
                   = (Ok (Some 9%nat), reset_page_with_pattern_email,
                      [EvWait Presence ResetPasswordPage.EMAIL_FIELD 3;
                       EvWait Presence ResetPasswordPage.EMAIL_FIELD_ALT 3;
                       EvWait Presence ResetPasswordPage.EMAIL_FIELD_TYPE 3;
                       EvWait Presence ResetPasswordPage.EMAIL_FIELD_NAME_PATTERN 3]))
    by reflexivity.
  destruct (proj1 (reset_page_actions_drop_the_answer_of_the_fallback default_page
                     "a@b.co" reset_page_with_pattern_email) _ _ _ Hfound)
    as (b & _ & ->).
  split; reflexivity.
Defined.


(* ===================================================================== *)
(** ** More on the hooks and on the driver manager *)
(* ===================================================================== *)

Section HooksMore.
Context {W : Type} `{Browser W}.

(** X17.  [quit_driver] raises nothing, whatever the closing of the
    session does, and leaves a manager without a driver and with the
    configuration it had.  It closes the session once: with a driver it
    makes one call to close it, printing the failure when the call
    raises; without a driver, and so on a second call, it does
    nothing. *)
Theorem quit_driver_closes_the_session_once (self : DriverManager) (w : W) :
  exists self' w' o,
    quit_driver self w = (Ok self', w', o)
    /\ dm_driver self' = None
    /\ dm_config self' = dm_config self
    /\ quit_driver self' w' = (Ok self', w', [])
    /\ (dm_driver self = None -> self' = self /\ w' = w /\ o = [])
    /\ (forall d, dm_driver self = Some d ->
          driver_quit d w
          = (fst (driver_quit d w), w')
          /\ o = EvQuit d
                 :: match fst (driver_quit d w) with
                    | Ok _ => []
                    | Raise e => [EvPrint (MsgDriverQuitError e)]
                    end).
Proof.
  unfold quit_driver. destruct self as [cfg [d |]]; cbn [dm_driver dm_config].
  - unfold mbind, M_bind, bind, try_except, any_exception, call, print.
    destruct (driver_quit d w) as [[[] | e] w1] eqn:Hq; do 3 eexists;
      (split; [reflexivity |]; split; [reflexivity |]; split; [reflexivity |];
       split; [reflexivity |];
       split; [intros Hd; discriminate Hd
              | intros d' [= <-]; rewrite Hq; split; reflexivity]).
  - exists {| dm_config := cfg; dm_driver := None |}, w, [].
    split; [reflexivity |]. split; [reflexivity |]. split; [reflexivity |].
    split; [reflexivity |].
    split; [intros _; repeat split | intros d Hd; discriminate Hd].
Qed.


Lemma metric_missing key (c : Context) (w : W) :
  test_metrics c !! key = None ->
  metric key (c, w)
  = (Raise (Exn KeyError (String squote key +:+ String squote "")), (c, w), []).
Proof.
  intros Hkey. unfold metric, get_context, mbind, M_bind, bind. cbn [fst].
  rewrite Hkey. reflexivity.
Qed.

Lemma keeps_ret {A} (a : A) : keeps_context (mret a : M (Context * W) A).
Proof. intros c w. reflexivity. Qed.

Lemma keeps_lift {A} (r : result A) : keeps_context (lift r : M (Context * W) A).
Proof. intros c w. reflexivity. Qed.

Lemma keeps_get_context : keeps_context (get_context (W := W)).
Proof. intros c w. reflexivity. Qed.

Lemma keeps_hook_call {A} ev (prim : W -> result A * W) :
  keeps_context (hook_call ev prim).
Proof.
  intros c w. unfold hook_call, final. cbn [snd]. destruct (prim w). reflexivity.
Qed.

Lemma keeps_metric key : keeps_context (metric (W := W) key).
Proof.
  intros c w. unfold metric, get_context, mbind, M_bind, bind. cbn [fst].
  destruct (test_metrics c !! key); reflexivity.
Qed.

Lemma keeps_bind {A B} (m : M (Context * W) A) (k : A -> M (Context * W) B) :
  keeps_context m -> (forall a, keeps_context (k a)) -> keeps_context (m ≫= k).
Proof.
  intros Hm Hk c w. unfold mbind, M_bind, bind.
  specialize (Hm c w). unfold final in *.
  destruct (m (c, w)) as [[[a | e] [c1 w1]] o1]; cbn [fst snd] in *; subst c1.
  - specialize (Hk a c w1).
    destruct (k a (c, w1)) as [[r [c2 w2]] o2]. exact Hk.
  - reflexivity.
Qed.

Lemma keeps_pass_rate_text : keeps_context (pass_rate_text (W := W)).
Proof.
  unfold pass_rate_text.
  repeat first [ apply keeps_metric | apply keeps_lift | apply keeps_ret
               | apply keeps_bind; [| intros ?] ].
Qed.

(** the [try] of [after_all] raises nothing and keeps the context *)
Lemma save_summary_never_raises (c : Context) (w : W) :
  exists w' o,
    try_except write_summary_file
      (any_exception (fun e => print (MsgSummaryWriteFailed e))) (c, w)
    = (Ok tt, (c, w'), EvOpenFile summary_file :: o).
Proof.
  unfold write_summary_file, with_open.
  match goal with
  | |- context [try_finally ?b _] => set (body := b)
  end.
  assert (Hbody : keeps_context body).
  { unfold body, write_summary.
    repeat first
      [ apply keeps_hook_call | apply keeps_metric | apply keeps_lift
      | apply keeps_ret | apply keeps_get_context | apply keeps_pass_rate_text
      | match goal with
        | |- keeps_context (match ?x with _ => _ end) => destruct x
        end
      | apply keeps_bind; [| intros ?] ]. }
  unfold try_except, any_exception, try_finally, print.
  unfold mbind at 1. unfold M_bind, bind, hook_call. cbn [fst snd].
  destruct (open_file summary_file w) as [[[] | e] w1].
  - specialize (Hbody c w1). unfold final in Hbody.
    destruct (body (c, w1)) as [[r [c1 w2]] o]. cbn [fst snd] in *. subst c1.
    destruct (file_close summary_file w2) as [[[] | e] w3];
      destruct r as [[] | e']; do 2 eexists; reflexivity.
  - do 2 eexists. reflexivity.
Qed.

Lemma save_summary_open_fails (c : Context) (w w1 : W) (e : exn) :
  open_file summary_file w = (Raise e, w1) ->
  try_except write_summary_file
    (any_exception (fun e => print (MsgSummaryWriteFailed e))) (c, w)
  = (Ok tt, (c, w1), [EvOpenFile summary_file; EvPrint (MsgSummaryWriteFailed e)]).
Proof.
  intros Hopen. unfold write_summary_file, with_open.
  unfold try_except, any_exception, print.
  unfold mbind at 1. unfold M_bind, bind, hook_call. cbn [fst snd].
  rewrite Hopen. reflexivity.
Qed.

(** the lines [after_all] prints before it turns to the file *)
Lemma after_all_screen (c : Context) (w : W) (rate : list message) :
  metrics_ready c -> pass_rate_lines c = Ok rate ->
  after_all (c, w)
  = let '(r, s, o) :=
      try_except write_summary_file
        (any_exception (fun e => print (MsgSummaryWriteFailed e))) (c, w) in
    (r, s, map EvPrint (screen_summary c rate) ++ o).
Proof.
  intros Hready Hrate.
  destruct (Hready "total_tests" ltac:(cbn; auto)) as [t Ht].
  destruct (Hready "passed_tests" ltac:(cbn; auto)) as [p Hp].
  destruct (Hready "failed_tests" ltac:(cbn; auto)) as [f Hf].
  destruct (Hready "skipped_tests" ltac:(cbn; auto 10)) as [s Hs].
  unfold screen_summary, counter_lines. unfold pass_rate_lines in Hrate.
  unfold counter in *. rewrite ?Ht, ?Hp, ?Hf, ?Hs in *.
  change (default 0 (Some ?x)) with x in *.
  unfold after_all.
  set (save := try_except _ _).
  unfold pass_rate_text, mbind, M_bind, bind, print, lift, mret, M_ret, ret.
  destruct (0 <? t) eqn:Hpos;
    repeat (first [rewrite Hpos
                  | rewrite (metric_run "total_tests" c w t Ht)
                  | rewrite (metric_run "passed_tests" c w p Hp)
                  | rewrite (metric_run "failed_tests" c w f Hf)
                  | rewrite (metric_run "skipped_tests" c w s Hs)];
            cbn [fst snd app]).
  - destruct (int_true_divide p t) as [quotient | e]; [| discriminate Hrate].
    injection Hrate as <-.
    destruct (save (c, w)) as [[r s'] o]. reflexivity.
  - injection Hrate as <-.
    destruct (save (c, w)) as [[r s'] o]. reflexivity.
Qed.

End HooksMore.

(** the [try] of [after_all] on a file system that takes every write *)
Lemma save_summary_on_sim (c : Context) (s : Sim) (rate : list message) :
  metrics_ready c -> pass_rate_lines c = Ok rate ->
  try_except write_summary_file
    (any_exception (fun e => print (MsgSummaryWriteFailed e))) (c, s)
  = (Ok tt, (c, s),
     EvOpenFile summary_file
     :: map (EvFileWrite summary_file) (fst (file_summary c rate))
     ++ EvCloseFile summary_file
        :: match snd (file_summary c rate) with
           | Some e => [EvPrint (MsgSummaryWriteFailed e)]
           | None => []
           end).
Proof.
  intros Hready Hrate.
  destruct (Hready "total_tests" ltac:(cbn; auto)) as [t Ht].
  destruct (Hready "passed_tests" ltac:(cbn; auto)) as [p Hp].
  destruct (Hready "failed_tests" ltac:(cbn; auto)) as [f Hf].
  destruct (Hready "skipped_tests" ltac:(cbn; auto 10)) as [k Hk].
  unfold file_summary, file_head, counter_lines. unfold pass_rate_lines in Hrate.
  unfold counter in *. rewrite ?Ht, ?Hp, ?Hf, ?Hk in *.
  change (default 0 (Some ?x)) with x in *.
  unfold write_summary_file, with_open, write_summary, pass_rate_text,
    try_except, any_exception, try_finally, mbind, M_bind, bind, hook_call,
    print, lift, get_context, mret, M_ret, ret.
  cbn [fst snd open_file file_write file_close sim_browser app].
  destruct (config_manager c) as [cfg |];
    [destruct (get_browser cfg) as [browser | e];
       [destruct (get_base_url cfg) as [base_url | e] |] |];
    cbn [fst snd open_file file_write file_close sim_browser app map];
    try reflexivity.
  all: destruct (0 <? t) eqn:Hpos;
    repeat (first [rewrite Hpos
                  | rewrite (metric_run "total_tests" c s t Ht)
                  | rewrite (metric_run "passed_tests" c s p Hp)
                  | rewrite (metric_run "failed_tests" c s f Hf)
                  | rewrite (metric_run "skipped_tests" c s k Hk)];
            cbn [fst snd open_file file_write file_close sim_browser app map]).
  all: try (destruct (int_true_divide p t) as [quotient | e];
            [| discriminate Hrate]).
  all: injection Hrate as <-; reflexivity.
Qed.

(** X19.  With the four counters in place and a pass rate that a float
    can hold, [after_all] raises nothing and leaves the context as it
    was, whatever becomes of the summary file.  It first prints the
    summary, with the pass rate when a scenario was counted, then opens
    the file; when the opening raises, the failure is printed and
    nothing is written.  On a file system that takes every write, the
    file gets its four first lines, then the browser and the base URL
    when there is a configuration manager, then the counters and the
    pass rate as they were printed; but when [get_browser] or
    [get_base_url] raises, the file ends there, without a counter, and
    the failure is printed.  When a counter is missing, [after_all]
    raises a [KeyError]. *)
Theorem after_all_absorbs_summary_file_failures
  {W : Type} `{Browser W} (c : Context) (w : W) :
  (forall rate,
     metrics_ready c -> pass_rate_lines c = Ok rate ->
     (exists w' o,
        after_all (c, w)
        = (Ok tt, (c, w'),
           map EvPrint (screen_summary c rate) ++ EvOpenFile summary_file :: o))
     /\ (forall e w1,
           open_file summary_file w = (Raise e, w1) ->
           after_all (c, w)
           = (Ok tt, (c, w1),
              map EvPrint (screen_summary c rate)
              ++ [EvOpenFile summary_file; EvPrint (MsgSummaryWriteFailed e)]))
     /\ (forall s : Sim,
           after_all (c, s)
           = (Ok tt, (c, s),
              map EvPrint (screen_summary c rate)
              ++ EvOpenFile summary_file
                 :: map (EvFileWrite summary_file) (fst (file_summary c rate))
                 ++ EvCloseFile summary_file
                    :: match snd (file_summary c rate) with
                       | Some e => [EvPrint (MsgSummaryWriteFailed e)]
                       | None => []
                       end)))
  /\ (forall key, In key metric_keys -> test_metrics c !! key = None ->
        exists e, outcome (after_all (c, w)) = Raise e /\ exn_kind e = KeyError).
Proof.
  split.
  - intros rate Hready Hrate. split; [| split].
    + rewrite (after_all_screen c w rate Hready Hrate).
      destruct (save_summary_never_raises c w) as (w' & o & ->).
      exists w', o. reflexivity.
    + intros e w1 Hopen.
      rewrite (after_all_screen c w rate Hready Hrate).
      rewrite (save_summary_open_fails c w w1 e Hopen). reflexivity.
    + intros s.
      rewrite (after_all_screen c s rate Hready Hrate).
      rewrite (save_summary_on_sim c s rate Hready Hrate). reflexivity.
  - intros key Hin Hnone.
    unfold after_all, outcome.
    unfold mbind, M_bind, bind, print, mret, M_ret, ret.
    destruct (test_metrics c !! "total_tests") as [t |] eqn:Ht;
      [rewrite (metric_run "total_tests" c w t Ht)
      | rewrite (metric_missing "total_tests" c w Ht); eexists; split; reflexivity].
    cbn [fst snd app].
    destruct (test_metrics c !! "passed_tests") as [p |] eqn:Hp;
      [rewrite (metric_run "passed_tests" c w p Hp)
      | rewrite (metric_missing "passed_tests" c w Hp); eexists; split; reflexivity].
    cbn [fst snd app].
    destruct (test_metrics c !! "failed_tests") as [f |] eqn:Hf;
      [rewrite (metric_run "failed_tests" c w f Hf)
      | rewrite (metric_missing "failed_tests" c w Hf); eexists; split; reflexivity].
    cbn [fst snd app].
    destruct (test_metrics c !! "skipped_tests") as [s |] eqn:Hs;
      [rewrite (metric_run "skipped_tests" c w s Hs)
      | rewrite (metric_missing "skipped_tests" c w Hs); eexists; split; reflexivity].
    exfalso. cbn [In metric_keys] in Hin.
    destruct Hin as [<- | [<- | [<- | [<- | []]]]]; congruence.
Qed.


Lemma quit_driver_closes_the_session_once_witness :
  quit_driver manager_with_session
    (with_failing_quit (blank "https://www.hudl.com/login"))
  = (Ok {| dm_config := None; dm_driver := None |},
     with_failing_quit (blank "https://www.hudl.com/login"),
     [EvQuit 1%nat; EvPrint (MsgDriverQuitError quit_exn)]).
Proof.
  destruct (quit_driver_closes_the_session_once manager_with_session
              (with_failing_quit (blank "https://www.hudl.com/login")))
    as (self' & w' & o & Hrun & Hdriver & Hconfig & _ & _ & Hquit).
  destruct (Hquit 1%nat eq_refl) as [Hworld ->].
  rewrite Hrun. destruct self' as [cfg dr]. cbn in Hdriver, Hconfig. subst cfg dr.
  injection Hworld as <-. reflexivity.
Defined.


Lemma after_all_absorbs_summary_file_failures_witness :
  after_all (before_all (Some config_with_browser_options),
             blank "https://www.hudl.com/login")
  = (Ok tt,
     (before_all (Some config_with_browser_options),
      blank "https://www.hudl.com/login"),
     map EvPrint
       [MsgSummaryTop; MsgSummaryHeading; MsgSummaryRule; MsgTotalDuration;
        MsgTotalTests 0; MsgPassed 0; MsgFailed 0; MsgSkipped 0; MsgSummaryRule]
     ++ EvOpenFile summary_file
        :: map (EvFileWrite summary_file)
             [MsgFileTitle; MsgFileRule; MsgExecutionDate; MsgDuration]
        ++ [EvCloseFile summary_file;
            EvPrint (MsgSummaryWriteFailed
                       (Exn AttributeError
                          "'dict' object has no attribute 'lower'"))])
  /\ after_all (before_all None, write_protected (blank "https://www.hudl.com/login"))
     = (Ok tt, (before_all None, write_protected (blank "https://www.hudl.com/login")),
        map EvPrint
          [MsgSummaryTop; MsgSummaryHeading; MsgSummaryRule; MsgTotalDuration;
           MsgTotalTests 0; MsgPassed 0; MsgFailed 0; MsgSkipped 0; MsgSummaryRule]
        ++ [EvOpenFile summary_file; EvPrint (MsgSummaryWriteFailed permission_exn)]).
Proof.
  assert (Hready : forall cfg, metrics_ready (before_all cfg)).
  { intros cfg key Hkey. cbn [In metric_keys] in Hkey.
    destruct Hkey as [<- | [<- | [<- | [<- | []]]]]; eexists; reflexivity. }
  assert (Hrate : forall cfg, pass_rate_lines (before_all cfg) = Ok [])
    by reflexivity.
  split.
  - rewrite (proj2 (proj2 (proj1 (after_all_absorbs_summary_file_failures
                                    (before_all (Some config_with_browser_options))
                                    (blank "https://www.hudl.com/login"))
                             [] (Hready _) (Hrate _)))
               (blank "https://www.hudl.com/login")).
    reflexivity.
  - assert (Hopen : open_file summary_file
                      (write_protected (blank "https://www.hudl.com/login"))
                    = (Raise permission_exn,
                       write_protected (blank "https://www.hudl.com/login")))
      by reflexivity.
    rewrite (proj1 (proj2 (proj1 (after_all_absorbs_summary_file_failures
                                    (before_all None)
                                    (write_protected
                                       (blank "https://www.hudl.com/login")))
                             [] (Hready _) (Hrate _)))
               permission_exn _ Hopen).
    reflexivity.
Defined.

(* ===================================================================== *)
(** ** The configuration manager *)
(* ===================================================================== *)

Lemma split_on_not_empty (sep : ascii) (s : string) : split_on sep s <> [].
Proof.
  destruct s as [| c s]; [discriminate |]. cbn [split_on].
  destruct (Ascii.eqb c sep); [discriminate |].
  destruct (split_on sep s); discriminate.
Qed.

Lemma walk_errors (v : ConfigPy.value) (keys : list string) (e : ConfigPy.error) :
  ConfigPy.walk v keys = ConfigPy.Err e ->
  e = ConfigPy.KeyError \/ e = ConfigPy.TypeError.
Proof.
  revert v. induction keys as [| k rest IH]; intros v; [discriminate |].
  cbn [ConfigPy.walk]. unfold mbind, ConfigPy.res_bind.
  destruct v as [| b | n | s | items | entries]; cbn [ConfigPy.subscript];
    try (intros [= <-]; now right).
  destruct (dict_get entries k) as [x |]; [apply IH |].
  intros [= <-]. now left.
Qed.

Lemma walk_nest (keys : list string) (v : ConfigPy.value) :
  ConfigPy.walk (nest keys v) keys = ConfigPy.Val v.
Proof.
  induction keys as [| k rest IH]; [reflexivity |].
  cbn [nest ConfigPy.walk ConfigPy.subscript dict_get].
  rewrite String.eqb_refl. exact IH.
Qed.

Lemma walk_scalar (v : ConfigPy.value) (keys : list string) :
  keys <> [] ->
  (forall entries, v <> ConfigPy.VDict entries) ->
  ConfigPy.walk v keys = ConfigPy.Err ConfigPy.TypeError.
Proof.
  destruct keys as [| k rest]; [congruence |]. intros _ Hv.
  destruct v; try reflexivity. now destruct (Hv entries).
Qed.

Section ConfigFacts.
Variable environ : gmap string string.

Lemma get_without_variable (self : ConfigPy.Config) (key : string)
  (default : ConfigPy.value) :
  environ !! ConfigPy.env_key key = None ->
  ConfigPy.get environ self key default
  = ConfigPy.Val match ConfigPy.walk (ConfigPy.config_data self) (split_on "." key) with
                 | ConfigPy.Val v => v
                 | ConfigPy.Err _ => default
                 end.
Proof.
  intros Henv. unfold ConfigPy.get. rewrite Henv.
  destruct (ConfigPy.walk (ConfigPy.config_data self) (split_on "." key))
    as [v | e] eqn:Hwalk; [reflexivity |].
  destruct (walk_errors _ _ _ Hwalk) as [-> | ->]; reflexivity.
Qed.

(** X20.  [Config.get] raises nothing.  A value of the environment
    variable named after the key (the key in upper case, dots turned to
    underscores) is the answer whatever the file holds, an empty text
    included, and it is always a text.  Without the variable the answer
    is the value the file holds under the dotted path of the key, and
    the default when the path breaks: a missing key, or a value on the
    way that is not a dictionary, as when the file is empty or loads to
    a list. *)
Theorem config_get_prefers_the_environment
  (self : ConfigPy.Config) (key : string) (default : ConfigPy.value) :
  (exists v, ConfigPy.get environ self key default = ConfigPy.Val v)
  /\ (forall text, environ !! ConfigPy.env_key key = Some text ->
        ConfigPy.get environ self key default = ConfigPy.Val (ConfigPy.VStr text))
  /\ (environ !! ConfigPy.env_key key = None ->
      (forall v,
         ConfigPy.walk (ConfigPy.config_data self) (split_on "." key) = ConfigPy.Val v ->
         ConfigPy.get environ self key default = ConfigPy.Val v)
      /\ (forall e,
            ConfigPy.walk (ConfigPy.config_data self) (split_on "." key)
            = ConfigPy.Err e ->
            ConfigPy.get environ self key default = ConfigPy.Val default)
      /\ ((forall entries, ConfigPy.config_data self <> ConfigPy.VDict entries) ->
          ConfigPy.get environ self key default = ConfigPy.Val default)
      /\ (ConfigPy.config_data self = ConfigPy.VDict [] ->
          ConfigPy.get environ self key default = ConfigPy.Val default)).
Proof.
  split; [| split].
  - destruct (environ !! ConfigPy.env_key key) as [text |] eqn:Henv.
    + eexists. unfold ConfigPy.get. rewrite Henv. reflexivity.
    + eexists. apply (get_without_variable _ _ _ Henv).
  - intros text Henv. unfold ConfigPy.get. rewrite Henv. reflexivity.
  - intros Henv. rewrite (get_without_variable _ _ _ Henv).
    split; [| split; [| split]].
    + now intros v ->.
    + now intros e ->.
    + intros Hscalar.
      rewrite (walk_scalar _ _ (split_on_not_empty "." key) Hscalar). reflexivity.
    + intros ->. pose proof (split_on_not_empty "." key) as Hkeys.
      destruct (split_on "." key) as [| k rest]; [congruence | reflexivity].
Qed.

(** X21.  What a file stores under the dotted path of a key is what
    [Config.get] answers for that key when the environment does not
    override it, whatever the key and the value: the key is split at its
    dots and the dictionaries are followed one by one.  In particular a
    null stored under the key is answered as [None]: the default is for
    a key that is missing, not for one that is empty. *)
Theorem config_get_finds_what_is_stored_under_the_key
  (key : string) (v default : ConfigPy.value) :
  environ !! ConfigPy.env_key key = None ->
  ConfigPy.get environ {| ConfigPy.config_data := nest (split_on "." key) v |}
    key default
  = ConfigPy.Val v
  /\ ConfigPy.get environ
       {| ConfigPy.config_data := nest (split_on "." key) ConfigPy.VNone |}
       key default
     = ConfigPy.Val ConfigPy.VNone.
Proof.
  intros Henv. rewrite !(get_without_variable _ _ _ Henv).
  cbn [ConfigPy.config_data]. rewrite !walk_nest. split; reflexivity.
Qed.

Lemma get_browser_name_run (self : ConfigPy.Config) :
  environ !! "BROWSER_NAME" = None ->
  ConfigPy.get environ self "browser.name" ConfigPy.VNone
  = ConfigPy.Val match ConfigPy.walk (ConfigPy.config_data self) ["browser"; "name"] with
                 | ConfigPy.Val v => v
                 | ConfigPy.Err _ => ConfigPy.VNone
                 end.
Proof. intros Henv. exact (get_without_variable self "browser.name" _ Henv). Qed.

Lemma get_browser_run (self : ConfigPy.Config) :
  ConfigPy.get environ self "browser" (ConfigPy.VStr "chrome")
  = ConfigPy.Val match environ !! "BROWSER" with
                 | Some text => ConfigPy.VStr text
                 | None =>
                     match ConfigPy.walk (ConfigPy.config_data self) ["browser"] with
                     | ConfigPy.Val v => v
                     | ConfigPy.Err _ => ConfigPy.VStr "chrome"
                     end
                 end.
Proof.
  destruct (environ !! "BROWSER") as [text |] eqn:Henv.
  - unfold ConfigPy.get. change (ConfigPy.env_key "browser") with "BROWSER".
    rewrite Henv. reflexivity.
  - exact (get_without_variable self "browser" _ Henv).
Qed.

(** X22.  For [get_browser] a name in the file beats the [BROWSER]
    variable: when the file holds a non-empty text under [browser.name]
    and the variable [BROWSER_NAME] is not set, the answer is that text
    in lower case whatever [BROWSER] holds.  [BROWSER] is used only when
    the file gives no name, and [chrome] when the file has no [browser]
    entry either.  When the file has a [browser] dictionary without a
    name and [BROWSER] is not set, the dictionary itself is taken for the
    name and the call raises an [AttributeError]. *)
Theorem browser_name_of_the_file_beats_the_variable (self : ConfigPy.Config) :
  environ !! "BROWSER_NAME" = None ->
  (forall name,
     ConfigPy.walk (ConfigPy.config_data self) ["browser"; "name"]
     = ConfigPy.Val (ConfigPy.VStr name) ->
     name <> "" ->
     ConfigPy.get_browser environ self = ConfigPy.Val (lower name))
  /\ (forall e text,
        ConfigPy.walk (ConfigPy.config_data self) ["browser"; "name"] = ConfigPy.Err e ->
        environ !! "BROWSER" = Some text ->
        ConfigPy.get_browser environ self = ConfigPy.Val (lower text))
  /\ (forall e e',
        ConfigPy.walk (ConfigPy.config_data self) ["browser"; "name"] = ConfigPy.Err e ->
        environ !! "BROWSER" = None ->
        ConfigPy.walk (ConfigPy.config_data self) ["browser"] = ConfigPy.Err e' ->
        ConfigPy.get_browser environ self = ConfigPy.Val "chrome")
  /\ (forall e options,
        ConfigPy.walk (ConfigPy.config_data self) ["browser"; "name"] = ConfigPy.Err e ->
        environ !! "BROWSER" = None ->
        ConfigPy.walk (ConfigPy.config_data self) ["browser"]
        = ConfigPy.Val (ConfigPy.VDict options) ->
        ConfigPy.get_browser environ self = ConfigPy.Err ConfigPy.AttributeError).
Proof.
  intros Henv. unfold ConfigPy.get_browser.
  rewrite (get_browser_name_run self Henv), get_browser_run.
  split; [| split; [| split]].
  - intros name -> Hname. cbn. destruct name; [congruence | reflexivity].
  - intros e text -> ->. reflexivity.
  - intros e e' -> -> ->. reflexivity.
  - intros e options -> -> ->. reflexivity.
Qed.

Lemma integer_setting_run (self : ConfigPy.Config) (key : string) (default : Z) :
  reads_integer_setting environ self (ConfigPy.env_key key) (split_on "." key) default
    (v ← ConfigPy.get environ self key (ConfigPy.VInt default); ConfigPy.py_int v).
Proof.
  unfold reads_integer_setting.
  destruct (environ !! ConfigPy.env_key key) as [text |] eqn:Henv.
  - unfold ConfigPy.get. rewrite Henv. reflexivity.
  - rewrite (get_without_variable _ _ _ Henv).
    destruct (ConfigPy.walk (ConfigPy.config_data self) (split_on "." key));
      reflexivity.
Qed.

(** X23.  The five timeouts of the configuration manager are integer
    settings: each is read from its own environment variable when that
    is set, the text being converted by [int], so that a text that is
    not a number raises a [ValueError], as does one with a separator
    (codes 28 to 31) around the number; otherwise from the file, under
    [timeouts], where an integer is taken as it is and a null raises a
    [TypeError]; and it is the default (10, 20, 30, 3 and 2 seconds)
    only when the file has no value for it. *)
Theorem timeouts_are_integer_settings (self : ConfigPy.Config) :
  reads_integer_setting environ self "TIMEOUTS_IMPLICIT_WAIT"
    ["timeouts"; "implicit_wait"] 10 (ConfigPy.get_implicit_wait environ self)
  /\ reads_integer_setting environ self "TIMEOUTS_EXPLICIT_WAIT"
       ["timeouts"; "explicit_wait"] 20 (ConfigPy.get_explicit_wait environ self)
  /\ reads_integer_setting environ self "TIMEOUTS_PAGE_LOAD"
       ["timeouts"; "page_load"] 30 (ConfigPy.get_page_load_timeout environ self)
  /\ reads_integer_setting environ self "TIMEOUTS_ERROR_DETECTION"
       ["timeouts"; "error_detection"] 3 (ConfigPy.get_error_timeout environ self)
  /\ reads_integer_setting environ self "TIMEOUTS_SOCIAL_LOGIN"
       ["timeouts"; "social_login"] 2 (ConfigPy.get_social_login_timeout environ self)
  /\ ConfigPy.py_int ConfigPy.VNone = ConfigPy.Err ConfigPy.TypeError
  /\ (forall n, ConfigPy.py_int (ConfigPy.VInt n) = ConfigPy.Val n).
Proof.
  split; [exact (integer_setting_run self "timeouts.implicit_wait" 10) |].
  split; [exact (integer_setting_run self "timeouts.explicit_wait" 20) |].
  split; [exact (integer_setting_run self "timeouts.page_load" 30) |].
  split; [exact (integer_setting_run self "timeouts.error_detection" 3) |].
  split; [exact (integer_setting_run self "timeouts.social_login" 2) |].
  split; reflexivity.
Qed.

(** X24.  [get_screenshot_on_failure] lowers what [Config.get] answers,
    and only a text can be lowered.  Without the environment variable, a
    YAML boolean stored under [reporting.screenshot_on_failure], the
    plain way to write the setting, makes the call raise an
    [AttributeError]; a text there is compared with [true] whatever its
    case; and the setting is on when the file has no value for it.  A
    value of the variable is a text and is compared in the same way. *)
Theorem screenshot_setting_rejects_yaml_booleans (self : ConfigPy.Config) :
  (environ !! "REPORTING_SCREENSHOT_ON_FAILURE" = None ->
   (forall b,
      ConfigPy.walk (ConfigPy.config_data self) ["reporting"; "screenshot_on_failure"]
      = ConfigPy.Val (ConfigPy.VBool b) ->
      ConfigPy.get_screenshot_on_failure environ self
      = ConfigPy.Err ConfigPy.AttributeError)
   /\ (forall text,
         ConfigPy.walk (ConfigPy.config_data self)
           ["reporting"; "screenshot_on_failure"]
         = ConfigPy.Val (ConfigPy.VStr text) ->
         ConfigPy.get_screenshot_on_failure environ self
         = ConfigPy.Val (String.eqb (lower text) "true"))
   /\ (forall e,
         ConfigPy.walk (ConfigPy.config_data self)
           ["reporting"; "screenshot_on_failure"]
         = ConfigPy.Err e ->
         ConfigPy.get_screenshot_on_failure environ self = ConfigPy.Val true))
  /\ (forall text,
        environ !! "REPORTING_SCREENSHOT_ON_FAILURE" = Some text ->
        ConfigPy.get_screenshot_on_failure environ self
        = ConfigPy.Val (String.eqb (lower text) "true")).
Proof.
  unfold ConfigPy.get_screenshot_on_failure. split.
  - intros Henv.
    rewrite (get_without_variable self "reporting.screenshot_on_failure" _ Henv).
    change (split_on "." "reporting.screenshot_on_failure")
      with ["reporting"; "screenshot_on_failure"].
    split; [| split].
    + now intros b ->.
    + now intros text ->.
    + now intros e ->.
  - intros text Henv. unfold ConfigPy.get.
    change (ConfigPy.env_key "reporting.screenshot_on_failure")
      with "REPORTING_SCREENSHOT_ON_FAILURE".
    rewrite Henv. reflexivity.
Qed.

End ConfigFacts.

Lemma config_get_prefers_the_environment_witness :
  ConfigPy.get {["TIMEOUTS_PAGE_LOAD" := ""]} file_with_null_timeout
    "timeouts.page_load" (ConfigPy.VInt 30)
  = ConfigPy.Val (ConfigPy.VStr "")
  /\ ConfigPy.get ∅ {| ConfigPy.config_data := ConfigPy.VList [] |}
       "timeouts.page_load" (ConfigPy.VInt 30)
     = ConfigPy.Val (ConfigPy.VInt 30).
Proof.
  split.
  - apply (proj1 (proj2 (config_get_prefers_the_environment
                           {["TIMEOUTS_PAGE_LOAD" := ""]} file_with_null_timeout
                           "timeouts.page_load" (ConfigPy.VInt 30)))).
    reflexivity.
  - apply (proj1 (proj2 (proj2 (proj2 (proj2
             (config_get_prefers_the_environment ∅
                {| ConfigPy.config_data := ConfigPy.VList [] |}
                "timeouts.page_load" (ConfigPy.VInt 30))) (lookup_empty _))))).
    intros entries. discriminate.
Defined.

Lemma config_get_finds_what_is_stored_under_the_key_witness :
  ConfigPy.get ∅
    {| ConfigPy.config_data :=
         ConfigPy.VDict
           [("timeouts", ConfigPy.VDict [("error_detection", ConfigPy.VInt 7)])] |}
    "timeouts.error_detection" (ConfigPy.VInt 3)
  = ConfigPy.Val (ConfigPy.VInt 7)
  /\ ConfigPy.get ∅ file_with_null_timeout "timeouts.error_detection" (ConfigPy.VInt 3)
     = ConfigPy.Val ConfigPy.VNone.
Proof.
  exact (config_get_finds_what_is_stored_under_the_key ∅ "timeouts.error_detection"
           (ConfigPy.VInt 7) (ConfigPy.VInt 3) (lookup_empty _)).
Defined.

Lemma browser_name_of_the_file_beats_the_variable_witness :
  ConfigPy.get_browser {["BROWSER" := "firefox"]} file_with_chrome = ConfigPy.Val "chrome"
  /\ ConfigPy.get_browser ∅ file_with_browser_options
     = ConfigPy.Err ConfigPy.AttributeError.
Proof.
  assert (Hvariable : ({["BROWSER" := "firefox"]} : gmap string string)
                      !! "BROWSER_NAME" = None)
    by (apply lookup_singleton_ne; discriminate).
  split.
  - apply (proj1 (browser_name_of_the_file_beats_the_variable
                    {["BROWSER" := "firefox"]} file_with_chrome Hvariable) "Chrome");
      [reflexivity | discriminate].
  - apply (proj2 (proj2 (proj2 (browser_name_of_the_file_beats_the_variable
                                  ∅ file_with_browser_options (lookup_empty _))))
             ConfigPy.KeyError [("headless", ConfigPy.VBool true)]);
      reflexivity.
Defined.

Lemma timeouts_are_integer_settings_witness :
  ConfigPy.get_error_timeout ∅ file_with_null_timeout = ConfigPy.Err ConfigPy.TypeError
  /\ ConfigPy.get_error_timeout {["TIMEOUTS_ERROR_DETECTION" := " 5 "]}
       file_with_null_timeout
     = ConfigPy.Val 5
  /\ ConfigPy.get_error_timeout
       {["TIMEOUTS_ERROR_DETECTION" := String (ascii_of_nat 28) "5"]}
       file_with_null_timeout
     = ConfigPy.Err ConfigPy.ValueError.
Proof.
  split; [| split].
  - pose proof (proj1 (proj2 (proj2 (proj2
                  (timeouts_are_integer_settings ∅ file_with_null_timeout)))))
      as Hread.
    unfold reads_integer_setting in Hread. rewrite lookup_empty in Hread.
    exact Hread.
  - pose proof (proj1 (proj2 (proj2 (proj2
                  (timeouts_are_integer_settings
                     {["TIMEOUTS_ERROR_DETECTION" := " 5 "]}
                     file_with_null_timeout)))))
      as Hread.
    assert (Hvariable : ({["TIMEOUTS_ERROR_DETECTION" := " 5 "]} : gmap string string)
                        !! "TIMEOUTS_ERROR_DETECTION" = Some " 5 ") by reflexivity.
    unfold reads_integer_setting in Hread. rewrite Hvariable in Hread.
    exact Hread.
  - pose proof (proj1 (proj2 (proj2 (proj2
                  (timeouts_are_integer_settings
                     {["TIMEOUTS_ERROR_DETECTION" := String (ascii_of_nat 28) "5"]}
                     file_with_null_timeout)))))
      as Hread.
    assert (Hvariable : ({["TIMEOUTS_ERROR_DETECTION" := String (ascii_of_nat 28) "5"]}
                         : gmap string string)
                        !! "TIMEOUTS_ERROR_DETECTION"
                        = Some (String (ascii_of_nat 28) "5")) by reflexivity.
    unfold reads_integer_setting in Hread. rewrite Hvariable in Hread.
    exact Hread.
Defined.

Lemma screenshot_setting_rejects_yaml_booleans_witness :
  ConfigPy.get_screenshot_on_failure ∅ file_with_boolean_screenshots
  = ConfigPy.Err ConfigPy.AttributeError.
Proof.
  apply (proj1 (proj1 (screenshot_setting_rejects_yaml_booleans ∅
                         file_with_boolean_screenshots) (lookup_empty _)) true).
  reflexivity.
Defined.

(* ===================================================================== *)
(** ** Failures of the field actions; the address of the reset page *)
(* ===================================================================== *)

Lemma str_in_trans (x y h : string) :
  str_in x y = true -> str_in y h = true -> str_in x h = true.
Proof.
  intros Hxy Hyh.
  apply str_in_inv in Hxy as (a & b & ->).
  apply str_in_inv in Hyh as (c & d & ->).
  rewrite !append_assoc. rewrite <- (append_assoc c a). apply str_in_intro.
Qed.

Section FieldActions.
Context {W : Type} `{Browser W}.

Lemma try_locators_raises_only self locators (action : locator -> M W unit)
  field_name (w : W) e :
  outcome (_try_locators_with_action self locators action field_name w) = Raise e ->
  e = Exn PlainException (could_not_find_message field_name).
Proof.
  revert w. induction locators as [| l rest IH]; intros w.
  - cbn. now intros [= <-].
  - cbn [_try_locators_with_action]. unfold try_except, any_exception.
    destruct ((action l ;; print (MsgActionOk field_name l)) w)
      as [[[a | e0] w1] o1]; [discriminate |].
    unfold mbind at 1. unfold M_bind, bind, print.
    specialize (IH w1).
    destruct (_try_locators_with_action self rest action field_name w1)
      as [[r w2] o2].
    exact IH.
Qed.

Lemma field_action_raises self field_type (action : locator -> M W unit) suffix
  (w : W) e :
  outcome ((locators ← lift (_get_field_locators field_type);
            _try_locators_with_action self locators action
              (title field_type +:+ suffix)) w) = Raise e ->
  e = Exn ValueError (unsupported_field_locators_message field_type)
  \/ e = Exn PlainException (could_not_find_message (title field_type +:+ suffix)).
Proof.
  unfold _get_field_locators.
  destruct (dict_get field_locator_map (lower field_type)) as [[| l ls] |].
  - rewrite lift_raise_bind. intros [= <-]. now left.
  - rewrite lift_ok_bind. intros Hrun. right.
    exact (try_locators_raises_only _ _ _ _ _ _ Hrun).
  - rewrite lift_raise_bind. intros [= <-]. now left.
Qed.

(** X25.  Whatever the browser does, the field actions of the login
    page fail in one way only.  [click_continue_button], [enter_email],
    [enter_password], [clear_email] and [clear_password] either return or
    raise the plain [Exception] of [_try_locators_with_action], whose
    message names the action: no failure of the browser comes through as
    it was raised.  [enter_field_value] and [clear_field] raise either
    that exception or, for a type that is not supported, the [ValueError]
    of the lookup. *)
Theorem field_actions_raise_one_plain_exception (self : BasePage) (w : W) :
  (forall e, outcome (click_continue_button self w) = Raise e ->
     e = Exn PlainException (could_not_find_message "Continue button click"))
  /\ (forall email e, outcome (enter_email self email w) = Raise e ->
        e = Exn PlainException (could_not_find_message "Email entry"))
  /\ (forall password e, outcome (enter_password self password w) = Raise e ->
        e = Exn PlainException (could_not_find_message "Password entry"))
  /\ (forall e, outcome (clear_email self w) = Raise e ->
        e = Exn PlainException (could_not_find_message "Email field clear"))
  /\ (forall e, outcome (clear_password self w) = Raise e ->
        e = Exn PlainException (could_not_find_message "Password field clear"))
  /\ (forall field_type value e,
        outcome (enter_field_value self field_type value w) = Raise e ->
        e = Exn ValueError (unsupported_field_locators_message field_type)
        \/ e = Exn PlainException
                 (could_not_find_message (title field_type +:+ " entry")))
  /\ (forall field_type e,
        outcome (clear_field self field_type w) = Raise e ->
        e = Exn ValueError (unsupported_field_locators_message field_type)
        \/ e = Exn PlainException
                 (could_not_find_message (title field_type +:+ " field clear"))).
Proof.
  split; [| split; [| split; [| split; [| split; [| split]]]]].
  - intros e. unfold click_continue_button.
    change (_get_field_locators "continue_button")
      with (Ok [CONTINUE_BUTTON; CONTINUE_BUTTON_ALT] : result (list locator)).
    rewrite lift_ok_bind. apply try_locators_raises_only.
  - intros email e. unfold enter_email, enter_field_value.
    change (_get_field_locators "email")
      with (Ok [EMAIL_FIELD; EMAIL_FIELD_ALT; EMAIL_FIELD_TYPE;
                EMAIL_FIELD_NAME_PATTERN; EMAIL_FIELD_PLACEHOLDER]
            : result (list locator)).
    rewrite lift_ok_bind. apply try_locators_raises_only.
  - intros password e. unfold enter_password, enter_field_value.
    change (_get_field_locators "password")
      with (Ok [PASSWORD_FIELD; PASSWORD_FIELD_ALT; PASSWORD_FIELD_TYPE;
                PASSWORD_FIELD_NAME_PATTERN; PASSWORD_FIELD_PLACEHOLDER]
            : result (list locator)).
    rewrite lift_ok_bind. apply try_locators_raises_only.
  - intros e. unfold clear_email, clear_field.
    change (_get_field_locators "email")
      with (Ok [EMAIL_FIELD; EMAIL_FIELD_ALT; EMAIL_FIELD_TYPE;
                EMAIL_FIELD_NAME_PATTERN; EMAIL_FIELD_PLACEHOLDER]
            : result (list locator)).
    rewrite lift_ok_bind. apply try_locators_raises_only.
  - intros e. unfold clear_password, clear_field.
    change (_get_field_locators "password")
      with (Ok [PASSWORD_FIELD; PASSWORD_FIELD_ALT; PASSWORD_FIELD_TYPE;
                PASSWORD_FIELD_NAME_PATTERN; PASSWORD_FIELD_PLACEHOLDER]
            : result (list locator)).
    rewrite lift_ok_bind. apply try_locators_raises_only.
  - intros field_type value e. apply field_action_raises.
  - intros field_type e. apply field_action_raises.
Qed.

(** X26.  [is_on_password_reset_page] raises nothing: when the address
    cannot be read it answers [False].  Otherwise it answers [True]
    exactly when the address holds [/password-reset], [/reset-password]
    or [/forgot-password]; the first pattern of its list never decides,
    as an address that holds it holds the second.  The pattern is looked
    for in the whole address, so it counts wherever it stands, in the
    query as well as in the path. *)
Theorem reset_page_check_reads_the_whole_address (self : BasePage) (w : W) :
  (forall e w1, driver_current_url w = (Raise e, w1) ->
     ResetPasswordPage.is_on_password_reset_page self w
     = (Ok false, w1, [EvCurrentUrl]))
  /\ (forall url w1, driver_current_url w = (Ok url, w1) ->
        ResetPasswordPage.is_on_password_reset_page self w
        = (Ok (str_in "/password-reset" url || str_in "/reset-password" url
               || str_in "/forgot-password" url), w1, [EvCurrentUrl]))
  /\ (forall url w1 pattern before rest,
        driver_current_url w = (Ok url, w1) ->
        In pattern ResetPasswordPage.PASSWORD_RESET_URL_PATTERNS ->
        url = before +:+ pattern +:+ rest ->
        ResetPasswordPage.is_on_password_reset_page self w
        = (Ok true, w1, [EvCurrentUrl])).
Proof.
  assert (Hrun : forall url w1, driver_current_url w = (Ok url, w1) ->
            ResetPasswordPage.is_on_password_reset_page self w
            = (Ok (existsb (fun pattern => str_in pattern url)
                     ResetPasswordPage.PASSWORD_RESET_URL_PATTERNS),
               w1, [EvCurrentUrl])).
  { intros url w1 Hurl.
    unfold ResetPasswordPage.is_on_password_reset_page, try_except, get_current_url,
      call, mbind, M_bind, bind, mret, M_ret, ret.
    rewrite Hurl. reflexivity. }
  split; [| split].
  - intros e w1 Hurl.
    unfold ResetPasswordPage.is_on_password_reset_page, try_except, any_exception,
      get_current_url, call, mbind, M_bind, bind, mret, M_ret, ret.
    rewrite Hurl. reflexivity.
  - intros url w1 Hurl. rewrite (Hrun url w1 Hurl).
    cbn [existsb ResetPasswordPage.PASSWORD_RESET_URL_PATTERNS].
    destruct (str_in "/u/login/password-reset-start" url) eqn:Hfirst.
    + rewrite (str_in_trans "/password-reset" "/u/login/password-reset-start" url
                 eq_refl Hfirst).
      reflexivity.
    + destruct (str_in "/password-reset" url), (str_in "/reset-password" url),
        (str_in "/forgot-password" url); reflexivity.
  - intros url w1 pattern before rest Hurl Hin ->. rewrite (Hrun _ w1 Hurl).
    assert (Hsome : existsb (fun p => str_in p (before +:+ pattern +:+ rest))
                      ResetPasswordPage.PASSWORD_RESET_URL_PATTERNS = true).
    { apply existsb_exists. exists pattern. split; [exact Hin |].
      apply str_in_intro. }
    rewrite Hsome. reflexivity.
Qed.

End FieldActions.

Lemma field_actions_raise_one_plain_exception_witness :
  outcome (click_continue_button default_page page_without_errors)
  = Raise (Exn PlainException
             "Could not find Continue button click with any of the available locators").
Proof.
  destruct (outcome (click_continue_button default_page page_without_errors))
    as [[] | e] eqn:Hrun; [discriminate Hrun |].
  rewrite (proj1 (field_actions_raise_one_plain_exception default_page
                    page_without_errors) e Hrun).
  reflexivity.
Defined.

Lemma reset_page_check_reads_the_whole_address_witness :
  ResetPasswordPage.is_on_password_reset_page default_page
    (blank "https://www.hudl.com/login?next=/reset-password")
  = (Ok true, blank "https://www.hudl.com/login?next=/reset-password",
     [EvCurrentUrl]).
Proof.
  apply (proj2 (proj2 (reset_page_check_reads_the_whole_address default_page
                         (blank "https://www.hudl.com/login?next=/reset-password")))
           "https://www.hudl.com/login?next=/reset-password" _
           "/reset-password" "https://www.hudl.com/login?next=" "").
  - reflexivity.
  - cbn. auto.
  - reflexivity.
Defined.
